(** * FreeNOS process control: the ProcessCtl system call and its collaborators

    A shallow embedding of [kernel/API/ProcessCtl.cpp] (the dispatcher
    [ProcessCtlHandler] and the interrupt callback [interruptNotify]) and of
    the [IRQ_REG] / [IRQ] macros and the [CPUState] structure of
    [lib/libarch/arm/ARMCore.h].

    The classes [Process], [ProcessManager] and [Kernel] are used by the
    dispatcher but their implementation is not part of the sources at hand;
    the operations called on them are modelled from the specification and are
    marked as such. *)

From stdpp Require Import gmap list strings.

Local Open Scope Z_scope.

(** ** Machine words, addresses, identifiers *)

(** [Address], [ProcessID] and the registers are machine words; the dispatcher
    performs no arithmetic on them, they are kept as integers. *)
Abbreviation Address := Z (only parsing).
Abbreviation ProcessID := Z (only parsing).

(** Modelled from the spec: the sentinel "self" identifier (its declaration is
    not part of the sources).  It never names a slot of the process table. *)
Definition SELF : ProcessID := -1.

(** ** ARMCore.h *)

(** [struct CPUState]: the saved registers (the four padding words first). *)
Record CPUState := mkCPUState {
  padding : list Z;
  cpsr : Z;
  sp : Z;
  lr : Z;
  r0 : Z; r1 : Z; r2 : Z; r3 : Z; r4 : Z; r5 : Z; r6 : Z;
  r7 : Z; r8 : Z; r9 : Z; r10 : Z; r11 : Z; r12 : Z;
  pc : Z
}.

(** [#define IRQ_REG(state) (0)] *)
Definition IRQ_REG (state : CPUState) : Z := 0.

(** [#define IRQ(vector) (vector)] *)
Definition IRQ (vector : Z) : Z := vector.

(** ** Values exchanged with user space *)

(** [Process::State]: the dispatcher names [Process::Waiting] and
    [Process::Sleeping]; the other states are those of the state machine of
    the specification (the enumeration itself is not part of the sources). *)
Inductive State := Running | Ready | Stopped | Sleeping | Waiting.

Global Instance State_eq_dec : EqDecision State.
Proof. solve_decision. Defined.

(** [ProcessOperation]: the operations the dispatcher switches on. *)
Inductive ProcessOperation :=
  | Spawn | KillPID | GetPID | GetParent | WatchIRQ | EnableIRQ | DisableIRQ
  | InfoPID | WaitPID | InfoTimer | WaitTimer | EnterSleep | Schedule
  | Resume | SetStack.

Global Instance ProcessOperation_eq_dec : EqDecision ProcessOperation.
Proof. solve_decision. Defined.

(** [API::Result]: the two result codes the dispatcher names, and a word
    returned in their place ([return proc->getID()] and the like). *)
Inductive Result := Success | NotFound | Payload (w : Z).

Global Instance Result_eq_dec : EqDecision Result.
Proof. solve_decision. Defined.

(** Modelled from the spec: [Timer::Info] (its declaration is not part of the
    sources), a tick count and a frequency. *)
Record TimerInfo := mkTimerInfo { ticks : Z; frequency : Z }.

(** [ProcessEvent]: the only event type the sources name is
    [InterruptEvent]. *)
Inductive ProcessEventType := InterruptEvent.

Record ProcessEvent := mkProcessEvent {
  type : ProcessEventType;
  number : Z
}.

(** [ProcessInfo], with the fields the dispatcher fills in. *)
Record ProcessInfo := mkProcessInfo {
  info_id : ProcessID;
  info_state : State;
  info_userStack : Address;
  info_kernelStack : Address;
  info_pageDirectory : Address;
  info_parent : ProcessID
}.

(** What a user buffer holds.  User memory is kept as the buffers that user
    space has set up, each under the address it starts at: a buffer has room
    for one structure of its kind and holds a value of it, whatever that is
    before the kernel first writes there.  Buffers do not overlap.  The
    layout of the structures, which are declared outside the sources, is left
    out. *)
Inductive UserObject :=
  | ObjProcessInfo (i : ProcessInfo)
  | ObjTimerInfo (t : TimerInfo).

(** ** Process *)

(** Modelled from the spec: the wait bookkeeping of a process (class
    [Process] is not part of the sources).  One field, written by [setWait]
    and read by [getWait]: it holds the process waited for, and after that
    process is removed its exit status. *)
Inductive WaitField :=
  | NoWait
  | WaitTarget (id : ProcessID)
  | WaitResult (status : Z).

Global Instance WaitField_eq_dec : EqDecision WaitField.
Proof. solve_decision. Defined.

(** The places of the dispatcher at which a caller is switched away: each is
    the statement after a [procs->schedule()]. *)
Inductive ResumePoint :=
  | AfterKillPID | AfterSchedule | AfterWaitPID | AfterWaitTimer
  | AfterEnterSleep.

(** Modelled from the spec: the process control block (class [Process] is
    not part of the sources).  The identifier of a process is its key in the
    process table.  [m_resume] is the saved kernel context: where in the
    dispatcher the process continues when it next runs, or [None] when it was
    in user mode. *)
Record Process := mkProcess {
  m_parent : ProcessID;
  m_state : State;
  m_waitId : WaitField;
  m_wakeups : nat;
  m_sleepTimer : option TimerInfo;
  m_userStack : Address;
  m_kernelStack : Address;
  m_pageDirectory : Address;
  m_events : list ProcessEvent;
  m_entry : Address;
  m_resume : option ResumePoint
}.

Definition setParent (id : ProcessID) (p : Process) : Process :=
  mkProcess id (m_state p) (m_waitId p) (m_wakeups p) (m_sleepTimer p)
    (m_userStack p) (m_kernelStack p) (m_pageDirectory p) (m_events p)
    (m_entry p) (m_resume p).

Definition setState (s : State) (p : Process) : Process :=
  mkProcess (m_parent p) s (m_waitId p) (m_wakeups p) (m_sleepTimer p)
    (m_userStack p) (m_kernelStack p) (m_pageDirectory p) (m_events p)
    (m_entry p) (m_resume p).

Definition setWaitField (w : WaitField) (p : Process) : Process :=
  mkProcess (m_parent p) (m_state p) w (m_wakeups p) (m_sleepTimer p)
    (m_userStack p) (m_kernelStack p) (m_pageDirectory p) (m_events p)
    (m_entry p) (m_resume p).

Definition setWakeups (n : nat) (p : Process) : Process :=
  mkProcess (m_parent p) (m_state p) (m_waitId p) n (m_sleepTimer p)
    (m_userStack p) (m_kernelStack p) (m_pageDirectory p) (m_events p)
    (m_entry p) (m_resume p).

Definition setSleepTimer (t : option TimerInfo) (p : Process) : Process :=
  mkProcess (m_parent p) (m_state p) (m_waitId p) (m_wakeups p) t
    (m_userStack p) (m_kernelStack p) (m_pageDirectory p) (m_events p)
    (m_entry p) (m_resume p).

Definition setUserStack (a : Address) (p : Process) : Process :=
  mkProcess (m_parent p) (m_state p) (m_waitId p) (m_wakeups p)
    (m_sleepTimer p) a (m_kernelStack p) (m_pageDirectory p) (m_events p)
    (m_entry p) (m_resume p).

Definition setEvents (l : list ProcessEvent) (p : Process) : Process :=
  mkProcess (m_parent p) (m_state p) (m_waitId p) (m_wakeups p)
    (m_sleepTimer p) (m_userStack p) (m_kernelStack p) (m_pageDirectory p) l
    (m_entry p) (m_resume p).

Definition setResume (r : option ResumePoint) (p : Process) : Process :=
  mkProcess (m_parent p) (m_state p) (m_waitId p) (m_wakeups p)
    (m_sleepTimer p) (m_userStack p) (m_kernelStack p) (m_pageDirectory p)
    (m_events p) (m_entry p) r.

(** [setWait(id)] as the dispatcher calls it: the caller starts to wait for
    [id]. *)
Definition setWait (id : ProcessID) (p : Process) : Process :=
  setWaitField (WaitTarget id) p.

(** [getWait()]: the word in the wait field. *)
Definition getWait (p : Process) : Z :=
  match m_waitId p with
  | NoWait => 0
  | WaitTarget id => id
  | WaitResult status => status
  end.

(** Modelled from the spec: [Process::wakeup] (not part of the sources)
    increments the wakeup counter and forces the process Ready. *)
Definition wakeup (p : Process) : Process :=
  setState Ready (setWakeups (S (m_wakeups p)) p).

(** Modelled from the spec: [Process::sleep] (not part of the sources).  With
    no pending wakeup the process becomes Sleeping, with the deadline when one
    is given, and the call reports success; with a pending wakeup the process
    is left in its state and the call reports otherwise.  The pending wakeups
    are consumed by the skipped sleep. *)
Definition sleep (timer : option TimerInfo) (p : Process) : bool * Process :=
  match m_wakeups p with
  | O =>
      (true,
       setState Sleeping
         (match timer with
          | Some t => setSleepTimer (Some t) p
          | None => p
          end))
  | S _ => (false, setWakeups O p)
  end.

(** Modelled from the spec: [Process::raiseEvent] (not part of the sources)
    appends the event to the queue of pending events.  The event counts as a
    wakeup (an interrupt may arrive before the process has reached its sleep
    check, and must not be lost): the process is woken up as by [wakeup]. *)
Definition raiseEvent (e : ProcessEvent) (p : Process) : Process :=
  wakeup (setEvents (m_events p ++ [e]) p).

(** Modelled from the spec: [Arch::MemoryMap] (its declaration is not part of
    the sources), the descriptor handed to [create]; it is kept as the stack
    and address-space handles a new process gets. *)
Record MemoryMap := mkMemoryMap {
  map_userStack : Address;
  map_kernelStack : Address;
  map_pageDirectory : Address
}.

(** ** Kernel and ProcessManager *)

(** Modelled from the spec: the state of the kernel the dispatcher works on
    (classes [Kernel] and [ProcessManager] are not part of the sources): the
    process table, the current process ([None] while the idle placeholder
    runs), the next identifier to hand out, the capacity of the table, the
    timer device if there is one, the hooked interrupt vectors, the enabled
    interrupt lines and the user buffers. *)
Record Kernel := mkKernel {
  procs : gmap Z Process;
  m_current : option ProcessID;
  m_nextID : ProcessID;
  m_capacity : nat;
  m_timer : option TimerInfo;
  m_hooks : list (Z * option ProcessID);
  m_irqEnabled : gset Z;
  m_memory : gmap Z UserObject;
  m_map : MemoryMap
}.

Definition setProcs (t : gmap Z Process) (k : Kernel) : Kernel :=
  mkKernel t (m_current k) (m_nextID k) (m_capacity k) (m_timer k)
    (m_hooks k) (m_irqEnabled k) (m_memory k) (m_map k).

Definition setCurrent (c : option ProcessID) (k : Kernel) : Kernel :=
  mkKernel (procs k) c (m_nextID k) (m_capacity k) (m_timer k)
    (m_hooks k) (m_irqEnabled k) (m_memory k) (m_map k).

Definition setNextID (n : ProcessID) (k : Kernel) : Kernel :=
  mkKernel (procs k) (m_current k) n (m_capacity k) (m_timer k)
    (m_hooks k) (m_irqEnabled k) (m_memory k) (m_map k).

Definition setHooks (h : list (Z * option ProcessID)) (k : Kernel) : Kernel :=
  mkKernel (procs k) (m_current k) (m_nextID k) (m_capacity k) (m_timer k)
    h (m_irqEnabled k) (m_memory k) (m_map k).

Definition setIrqEnabled (s : gset Z) (k : Kernel) : Kernel :=
  mkKernel (procs k) (m_current k) (m_nextID k) (m_capacity k) (m_timer k)
    (m_hooks k) s (m_memory k) (m_map k).

Definition setMemory (m : gmap Z UserObject) (k : Kernel) : Kernel :=
  mkKernel (procs k) (m_current k) (m_nextID k) (m_capacity k) (m_timer k)
    (m_hooks k) (m_irqEnabled k) m (m_map k).

Definition setTimer (t : option TimerInfo) (k : Kernel) : Kernel :=
  mkKernel (procs k) (m_current k) (m_nextID k) (m_capacity k) t
    (m_hooks k) (m_irqEnabled k) (m_memory k) (m_map k).

(** [procs->get(id)] *)
Definition get (k : Kernel) (id : ProcessID) : option Process := procs k !! id.

(** A call through a process pointer writes to the process it points to. *)
Definition update (id : ProcessID) (f : Process → Process) (k : Kernel) : Kernel :=
  setProcs (alter f id (procs k)) k.

(** Modelled from the spec: the process [ProcessManager::create] builds (the
    constructor is not part of the sources): Ready, to start at [entry], with
    nothing pending. *)
Definition newProcess (entry : Address) (map : MemoryMap) : Process :=
  mkProcess 0 Ready NoWait O None (map_userStack map) (map_kernelStack map)
    (map_pageDirectory map) [] entry None.

(** Modelled from the spec: [ProcessManager::create] (not part of the
    sources).  It fails, yielding no process, when the capacity of the table
    is exhausted, and only then; otherwise it takes a fresh identifier and
    enters the new process in the table. *)
Definition create (entry : Address) (map : MemoryMap) (k : Kernel)
  : option (ProcessID * Kernel) :=
  if decide (m_capacity k ≤ size (procs k))%nat then None
  else
    Some (m_nextID k,
          setNextID (m_nextID k + 1)
            (setProcs (<[m_nextID k := newProcess entry map]> (procs k)) k)).

(** Modelled from the spec: what [ProcessManager::remove] does to the other
    processes (not part of the sources): a process that is Waiting for the one
    removed receives the exit status and becomes Ready. *)
Definition release (t : ProcessID) (status : Z) (p : Process) : Process :=
  if bool_decide (m_state p = Waiting ∧ m_waitId p = WaitTarget t)
  then setState Ready (setWaitField (WaitResult status) p)
  else p.

(** Modelled from the spec: [ProcessManager::remove] (not part of the
    sources).  The slot of the process is released, the processes waiting for
    it are released with the exit status, and the process is no longer
    current. *)
Definition remove (proc : ProcessID) (status : Z) (k : Kernel) : Kernel :=
  setCurrent (if decide (m_current k = Some proc) then None else m_current k)
    (setProcs (release proc status <$> delete proc (procs k)) k).

(** Modelled from the spec: the scheduling policy (not part of the sources),
    round-robin over the Ready processes: the identifiers after the current
    one are tried first, then those up to it. *)
Definition isReady (k : Kernel) (id : ProcessID) : bool :=
  match procs k !! id with
  | Some p => bool_decide (m_state p = Ready)
  | None => false
  end.

Definition candidates (k : Kernel) : list ProcessID :=
  match m_current k with
  | Some c => seqZ (c + 1) (m_nextID k - (c + 1)) ++ seqZ 0 (c + 1)
  | None => seqZ 0 (m_nextID k)
  end.

Definition select (k : Kernel) : option ProcessID :=
  List.find (isReady k) (candidates k).

(** Modelled from the spec: the context switch (not part of the sources).
    The process selected becomes Running and current; the one switched away
    from goes back to Ready if it was Running. *)
Definition yieldCpu (p : Process) : Process :=
  if decide (m_state p = Running) then setState Ready p else p.

Definition switchTo (next : ProcessID) (k : Kernel) : Kernel :=
  if decide (m_current k = Some next) then k
  else
    setCurrent (Some next)
      (update next (setState Running)
         (match m_current k with
          | Some prev => update prev yieldCpu k
          | None => k
          end)).

Definition saveContext (pt : option ResumePoint) (k : Kernel) : Kernel :=
  match m_current k with
  | Some c => update c (setResume pt) k
  | None => k
  end.

(** Modelled from the spec: [ProcessManager::schedule] (not part of the
    sources).  The context of the caller is saved and the next Ready process
    is switched to.  With no Ready process the current one goes on if it is
    Running, otherwise the idle placeholder runs. *)
Definition schedule (pt : option ResumePoint) (k : Kernel) : Kernel :=
  let k1 := saveContext pt k in
  match select k1 with
  | Some next => switchTo next k1
  | None =>
      match m_current k1 with
      | Some c =>
          match procs k1 !! c with
          | Some p => if decide (m_state p = Running) then k1 else setCurrent None k1
          | None => setCurrent None k1
          end
      | None => k1
      end
  end.

(** Modelled from the spec: [Kernel::hookIntVector] and [Kernel::enableIRQ]
    (not part of the sources).  The only handler the dispatcher hooks is
    [interruptNotify], so a hook is the vector and the process pointer it is
    for. *)
Definition hookIntVector (vector : Z) (param : option ProcessID) (k : Kernel) : Kernel :=
  setHooks (m_hooks k ++ [(vector, param)]) k.

Definition enableIRQ (irq : Z) (enabled : bool) (k : Kernel) : Kernel :=
  setIrqEnabled
    (if enabled then {[irq]} ∪ m_irqEnabled k else m_irqEnabled k ∖ {[irq]}) k.

(** ** ProcessCtl.cpp *)

(** A pointer is followed: the process is there, or the call faults. *)
Definition deref (k : Kernel) (ptr : option ProcessID) : option (ProcessID * Process) :=
  match ptr with
  | Some id =>
      match procs k !! id with
      | Some p => Some (id, p)
      | None => None
      end
  | None => None
  end.

(** [interruptNotify(st, p)]: an [InterruptEvent] numbered [IRQ_REG(st)] is
    raised on [p]. *)
Definition interruptNotify (st : CPUState) (p : option ProcessID) (k : Kernel)
  : option Kernel :=
  let event := mkProcessEvent InterruptEvent (IRQ_REG st) in
  match deref k p with
  | Some (id, _) => Some (update id (raiseEvent event) k)
  | None => None
  end.

(** What a call of the dispatcher comes to: it returns a result; or it has
    called [schedule()], and what it returns is decided when the caller runs
    again; or it went through a pointer that is null or leads to nothing it
    may use, after which the behaviour of the code is not defined and no
    state is given. *)
Inductive Outcome :=
  | Returned (r : Result) (k : Kernel)
  | Scheduled (k : Kernel)
  | Fault.

(** The first step of the dispatcher: [None] is the early [return
    API::NotFound]; otherwise the value of [proc], which is [ZERO] for
    [GetPID] and [Spawn]. *)
Definition resolveTarget (k : Kernel) (procID : ProcessID)
    (action : ProcessOperation) : option (option ProcessID) :=
  if bool_decide (action ≠ GetPID) && bool_decide (action ≠ Spawn) then
    if decide (procID = SELF) then Some (m_current k)
    else match get k procID with
         | Some _ => Some (Some procID)
         | None => None
         end
  else Some None.

(** The [Timer::Info] a user pointer leads to; a null pointer is no timer, and
    a buffer that holds no [Timer::Info] reads as zero. *)
Definition readTimer (k : Kernel) (addr : Address) : option TimerInfo :=
  if decide (addr = 0) then None
  else match m_memory k !! addr with
       | Some (ObjTimerInfo t) => Some t
       | _ => Some (mkTimerInfo 0 0)
       end.

(** What the InfoPID arm copies out of [proc], field by field. *)
Definition snapshot (id : ProcessID) (p : Process) : ProcessInfo :=
  mkProcessInfo id (m_state p) (m_userStack p) (m_kernelStack p)
    (m_pageDirectory p) (m_parent p).

(** The buffer a user pointer leads to.  The null pointer leads to none, and
    so does every address at which no buffer starts (an address that is not
    mapped, one inside a buffer, one of kernel data). *)
Definition userBuffer (k : Kernel) (addr : Address) : option UserObject :=
  if decide (addr = 0) then None else m_memory k !! addr.

(** The stores of the InfoPID arm, [info->id = ...] to [info->parent = ...],
    where [info] is [addr] cast to a pointer.  The pointer is not checked.  When it
    leads to a buffer for a [ProcessInfo], that buffer is overwritten; when it
    does not, the stores go through a null pointer or over whatever is there:
    [None]. *)
Definition storeProcessInfo (addr : Address) (i : ProcessInfo) (k : Kernel)
  : option Kernel :=
  match userBuffer k addr with
  | Some (ObjProcessInfo _) =>
      Some (setMemory (<[addr := ObjProcessInfo i]> (m_memory k)) k)
  | _ => None
  end.

(** Modelled from the spec: [Timer::getCurrent] (not part of the sources)
    writes the current time through the pointer it is given, which is [addr]
    cast to a pointer, unchecked as well. *)
Definition storeTimerInfo (addr : Address) (t : TimerInfo) (k : Kernel)
  : option Kernel :=
  match userBuffer k addr with
  | Some (ObjTimerInfo _) =>
      Some (setMemory (<[addr := ObjTimerInfo t]> (m_memory k)) k)
  | _ => None
  end.

(** [ProcessCtlHandler(procID, action, addr, output)], up to the first
    [schedule()] when there is one.  The [DEBUG] line only logs. *)
Definition ProcessCtlHandler (k : Kernel) (procID : ProcessID)
    (action : ProcessOperation) (addr output : Address) : Outcome :=
  match resolveTarget k procID action with
  | None => Returned NotFound k
  | Some proc =>
      match action with
      | Spawn =>
          match create addr (m_map k) k with
          | Some (new, k1) =>
              match deref k1 (m_current k1) with
              | Some (cur, _) => Returned (Payload new) (update new (setParent cur) k1)
              | None => Fault
              end
          | None => Fault
          end
      | KillPID =>
          match deref k proc with
          | Some (id, _) => Scheduled (schedule (Some AfterKillPID) (remove id addr k))
          | None => Fault
          end
      | GetPID =>
          match deref k (m_current k) with
          | Some (cur, _) => Returned (Payload cur) k
          | None => Fault
          end
      | GetParent =>
          match deref k (m_current k) with
          | Some (_, c) => Returned (Payload (m_parent c)) k
          | None => Fault
          end
      | Schedule => Scheduled (schedule (Some AfterSchedule) k)
      | Resume =>
          match deref k proc with
          | Some (id, _) => Returned Success (update id wakeup k)
          | None => Fault
          end
      | WatchIRQ =>
          Returned Success (hookIntVector (IRQ addr) proc k)
      | EnableIRQ => Returned Success (enableIRQ addr true k)
      | DisableIRQ => Returned Success (enableIRQ addr false k)
      | InfoPID =>
          match deref k proc with
          | Some (id, p) =>
              match storeProcessInfo addr (snapshot id p) k with
              | Some k1 => Returned Success k1
              | None => Fault
              end
          | None => Fault
          end
      | WaitPID =>
          match deref k proc, deref k (m_current k) with
          | Some (id, _), Some (cur, _) =>
              Scheduled
                (schedule (Some AfterWaitPID)
                   (update cur (setState Waiting) (update cur (setWait id) k)))
          | _, _ => Fault
          end
      | InfoTimer =>
          match m_timer k with
          | None => Returned NotFound k
          | Some now =>
              match storeTimerInfo addr now k with
              | Some k1 => Returned Success k1
              | None => Fault
              end
          end
      | WaitTimer =>
          match deref k (m_current k) with
          | Some (cur, _) =>
              Scheduled
                (schedule (Some AfterWaitTimer)
                   (update cur (setState Sleeping)
                      (update cur (setSleepTimer (readTimer k addr)) k)))
          | None => Fault
          end
      | EnterSleep =>
          match deref k (m_current k) with
          | Some (cur, c) =>
              if fst (sleep (readTimer k addr) c)
              then Scheduled (schedule (Some AfterEnterSleep)
                                (update cur (λ p, snd (sleep (readTimer k addr) p)) k))
              else Returned Success
                     (update cur (λ p, snd (sleep (readTimer k addr) p)) k)
          | None => Fault
          end
      | SetStack =>
          match deref k proc with
          | Some (id, _) => Returned Success (update id (setUserStack addr) k)
          | None => Fault
          end
      end
  end.

(** The rest of the dispatcher, run when the caller is current again: what
    follows the [schedule()] it stopped at. *)
Definition resumeHandler (pt : ResumePoint) (k : Kernel) : option Result :=
  match pt with
  | AfterWaitPID =>
      match deref k (m_current k) with
      | Some (_, c) => Some (Payload (getWait c))
      | None => None
      end
  | AfterKillPID | AfterSchedule | AfterWaitTimer | AfterEnterSleep =>
      Some Success
  end.

(** ** The trap boundary *)

(** Modelled from the spec: what enters the kernel (the trap and interrupt
    code is not part of the sources): a system call of the current process,
    a hardware interrupt on a vector, or the tick of the timer, which
    preempts. *)
Inductive Event :=
  | Trap (procID : ProcessID) (action : ProcessOperation) (addr output : Address)
  | Interrupt (st : CPUState) (vector : Z)
  | TimerTick.

(** Modelled from the spec: the return through the trap boundary.  The
    process that is current continues: if it was switched away inside the
    dispatcher, the call it was in returns now. *)
Definition resumeCurrent (k : Kernel) : option (Kernel * list (ProcessID * Result)) :=
  match deref k (m_current k) with
  | Some (c, p) =>
      match m_resume p with
      | Some pt =>
          match resumeHandler pt k with
          | Some r => Some (update c (setResume None) k, [(c, r)])
          | None => None
          end
      | None => Some (k, [])
      end
  | None => Some (k, [])
  end.

(** Modelled from the spec: [Kernel::executeIntVector] (not part of the
    sources).  The hooks of a vector are called in the order they were
    made. *)
Fixpoint executeIntVector (st : CPUState) (vector : Z)
    (hooks : list (Z * option ProcessID)) (k : Kernel) : option Kernel :=
  match hooks with
  | [] => Some k
  | (v, p) :: rest =>
      if decide (v = vector) then
        match interruptNotify st p k with
        | Some k1 => executeIntVector st vector rest k1
        | None => None
        end
      else executeIntVector st vector rest k
  end.

(** Modelled from the spec: the timer service (not part of the sources).  The
    timer advances by one tick; a Sleeping process whose deadline is reached
    becomes Ready. *)
Definition expire (now : TimerInfo) (p : Process) : Process :=
  match m_sleepTimer p with
  | Some t =>
      if bool_decide (m_state p = Sleeping) && bool_decide (ticks t ≤ ticks now)
      then setState Ready (setSleepTimer None p)
      else p
  | None => p
  end.

Definition tick (k : Kernel) : Kernel :=
  match m_timer k with
  | Some now =>
      let now1 := mkTimerInfo (ticks now + 1) (frequency now) in
      setTimer (Some now1) (setProcs (expire now1 <$> procs k) k)
  | None => k
  end.

(** Modelled from the spec: one entry into the kernel, and what it leaves:
    the new state, and the system calls that return in it, each with the
    process it returns to.  [None] is a fault. *)
Definition kernelStep (k : Kernel) (e : Event)
  : option (Kernel * list (ProcessID * Result)) :=
  match e with
  | Trap procID action addr output =>
      match m_current k with
      | Some c =>
          match ProcessCtlHandler k procID action addr output with
          | Returned r k1 => Some (k1, [(c, r)])
          | Scheduled k1 => resumeCurrent k1
          | Fault => None
          end
      | None => None
      end
  | Interrupt st vector =>
      match executeIntVector st vector (m_hooks k) k with
      | Some k1 => Some (k1, [])
      | None => None
      end
  | TimerTick => resumeCurrent (schedule None (tick k))
  end.

Fixpoint run (k : Kernel) (es : list Event)
  : option (Kernel * list (ProcessID * Result)) :=
  match es with
  | [] => Some (k, [])
  | e :: rest =>
      match kernelStep k e with
      | Some (k1, rets1) =>
          match run k1 rest with
          | Some (k2, rets2) => Some (k2, rets1 ++ rets2)
          | None => None
          end
      | None => None
      end
  end.


(** ** raspberry/Main.cpp *)

(** The fields of [coreInfo] that [kernel_main] fills in; the two memory
    regions have a physical base and a size. *)
Record MemoryRegion := mkMemoryRegion {
  phys : Z;
  region_size : Z
}.

Record CoreInfo := mkCoreInfo {
  bootImageAddress : Address;
  bootImageSize : Z;
  kernel : MemoryRegion;
  memory : MemoryRegion;
  heapAddress : Address;
  heapSize : Z
}.

(** An [Address] is 32 bits wide on ARM: sums wrap around. *)
Definition wrap32 (x : Z) : Z := x mod 2 ^ 32.

(** The block of [kernel_main] that fills [coreInfo], after it was cleared
    with [MemoryBlock::set].  The macros [PAGESIZE], [PAGEMASK] and [MegaByte]
    and the build flag [BCM2836] are not part of the sources and are taken as
    parameters; [bootimage] is the address of [__bootimg] and [imageSize] the
    size found in its header. *)
Definition fillCoreInfo (PAGESIZE PAGEMASK : Z) (MegaByte : Z → Z)
    (BCM2836 : bool) (bootimage : Address) (imageSize : Z) : CoreInfo :=
  let heap0 := wrap32 (bootimage + imageSize) in
  let heap1 := Z.land heap0 PAGEMASK in
  let heap2 := wrap32 (heap1 + PAGESIZE) in
  mkCoreInfo bootimage imageSize
    (mkMemoryRegion 0 (MegaByte 4))
    (mkMemoryRegion 0 (if BCM2836 then MegaByte 1024 else MegaByte 512))
    heap2 (MegaByte 1).

(** ** unistd/getcwd.cpp *)

(** [memcpy(dest, src, n)] on the memory at the two pointers, each given as
    the bytes that may be accessed there: [n] bytes are read from [src] and
    written over the first [n] bytes of [dest]; the bytes of [dest] behind
    them stay.  With fewer than [n] bytes on either side the copy leaves the
    object, and its behaviour is not defined: [None]. *)
Definition memcpy (dest src : list Z) (n : nat) : option (list Z) :=
  if decide (n ≤ length src ∧ n ≤ length dest)%nat
  then Some (take n src ++ drop n dest)
  else None.

(** [getcwd(buf, size)]: [size] bytes are copied from the text of the current
    directory into [buf], [errno] is set to [ESUCCESS] and [buf] is returned.
    [cwd] is the memory at [**getCurrentDirectory()]; the value of the macro
    [ESUCCESS] is not part of the sources and is a parameter.  The result is
    the buffer returned and the new [errno]; there is none when the copy
    leaves [cwd] or [buf]. *)
Definition getcwd (ESUCCESS : Z) (cwd buf : list Z) (size : nat)
  : option (list Z * Z) :=
  match memcpy buf cwd size with
  | Some buf1 => Some (buf1, ESUCCESS)
  | None => None
  end.

(** The C string at the start of a buffer: the bytes before the first zero. *)
Fixpoint cstring (l : list Z) : list Z :=
  match l with
  | [] => []
  | c :: rest => if decide (c = 0) then [] else c :: cstring rest
  end.

(** ** A small system to run the definitions on *)

Definition stEx : CPUState :=
  mkCPUState [0; 0; 0; 0] 0 0 0 0 0 0 0 0 0 0 0 0 0 0 0 0 0.

Definition procEx (s : State) : Process :=
  mkProcess 0 s NoWait O None 100 200 300 [] 0 None.

(** The user buffers of the sample system: one for a [ProcessInfo] at 10 and
    one at 20, one for a [Timer::Info] at 16. *)
Definition memEx : gmap Z UserObject :=
  <[10 := ObjProcessInfo (mkProcessInfo 0 Stopped 0 0 0 0)]>
    (<[20 := ObjProcessInfo (mkProcessInfo 0 Stopped 0 0 0 0)]>
       (<[16 := ObjTimerInfo (mkTimerInfo 0 0)]> ∅)).

(** Three processes, the first of them running, room for a fourth. *)
Definition kEx : Kernel :=
  mkKernel
    (<[0 := procEx Running]> (<[1 := procEx Ready]> (<[2 := procEx Ready]> ∅)))
    (Some 0) 3 4%nat (Some (mkTimerInfo 0 1)) [] ∅ memEx (mkMemoryMap 1 2 3).

(** The same processes in a table that has no room left. *)
Definition kFull : Kernel :=
  mkKernel (procs kEx) (Some 0) 3 3%nat (Some (mkTimerInfo 0 1)) [] ∅ memEx
    (mkMemoryMap 1 2 3).

(** The sample system after process 0 has called WaitPID on process 2:
    process 1 runs. *)
Definition kWait : Kernel :=
  mkKernel
    (<[0 := mkProcess 0 Waiting (WaitTarget 2) O None 100 200 300 [] 0
              (Some AfterWaitPID)]>
       (<[1 := procEx Running]> (<[2 := procEx Ready]> ∅)))
    (Some 1) 3 4%nat (Some (mkTimerInfo 0 1)) [] ∅ memEx (mkMemoryMap 1 2 3).

(** The same after process 1 has yielded: process 2, the one waited for,
    runs. *)
Definition kTarget : Kernel :=
  mkKernel
    (<[0 := mkProcess 0 Waiting (WaitTarget 2) O None 100 200 300 [] 0
              (Some AfterWaitPID)]>
       (<[1 := mkProcess 0 Ready NoWait O None 100 200 300 [] 0
                 (Some AfterSchedule)]>
          (<[2 := procEx Running]> ∅)))
    (Some 2) 3 4%nat (Some (mkTimerInfo 0 1)) [] ∅ memEx (mkMemoryMap 1 2 3).

(** One process, the table otherwise empty, and a deadline of ten ticks in
    the buffer at 16. *)
Definition kBoot : Kernel :=
  mkKernel (<[0 := procEx Running]> ∅) (Some 0) 1 4%nat
    (Some (mkTimerInfo 0 1)) [] ∅
    (<[16 := ObjTimerInfo (mkTimerInfo 10 1)]> ∅) (mkMemoryMap 1 2 3).

(** The state a call leaves behind, when it leaves one. *)
Definition outcomeKernel (o : Outcome) : option Kernel :=
  match o with
  | Returned _ k => Some k
  | Scheduled k => Some k
  | Fault => None
  end.

(** ** Predicates on states *)

(** The identifiers in the table were handed out already, and the current
    process is in the table. *)
Definition wfKernel (k : Kernel) : Prop :=
  map_Forall (λ id _, id < m_nextID k) (procs k)
  ∧ (∀ c, m_current k = Some c → is_Some (procs k !! c)).

(** A wait target is recorded. *)
Definition hasWaitTarget (p : Process) : bool :=
  match m_waitId p with
  | WaitTarget _ => true
  | _ => false
  end.

(** A wait target is recorded exactly in the Waiting state. *)
Definition waitConsistent (p : Process) : Prop :=
  hasWaitTarget p = true ↔ m_state p = Waiting.

Global Instance waitConsistent_dec p : Decision (waitConsistent p).
Proof. unfold waitConsistent. apply _. Defined.

Definition allConsistent (k : Kernel) : Prop :=
  map_Forall (λ _ p, waitConsistent p) (procs k).

Definition currentNotWaiting (k : Kernel) : Prop :=
  ∀ c p, m_current k = Some c → procs k !! c = Some p → m_state p ≠ Waiting.

(** Every process is consistent, and the current process is not Waiting. *)
Definition waitInvariant (k : Kernel) : Prop :=
  allConsistent k ∧ currentNotWaiting k.

(** The fields the scheduler does not write. *)
Definition sameBook (p q : Process) : Prop :=
  m_parent q = m_parent p
  ∧ m_waitId q = m_waitId p
  ∧ m_wakeups q = m_wakeups p
  ∧ m_sleepTimer q = m_sleepTimer p
  ∧ m_userStack q = m_userStack p
  ∧ m_kernelStack q = m_kernelStack p
  ∧ m_pageDirectory q = m_pageDirectory p
  ∧ m_events q = m_events p
  ∧ m_entry q = m_entry p.

(** [c] was switched away inside WaitPID and waits for [t]. *)
Definition parked (c t : ProcessID) (k : Kernel) : Prop :=
  m_current k ≠ Some c
  ∧ ∃ q, procs k !! c = Some q
         ∧ m_state q = Waiting
         ∧ m_waitId q = WaitTarget t
         ∧ m_resume q = Some AfterWaitPID.

(** [c] is still inside WaitPID and holds the exit status [s]. *)
Definition pending (c : ProcessID) (s : Z) (k : Kernel) : Prop :=
  m_current k ≠ Some c
  ∧ ∃ q, procs k !! c = Some q
         ∧ m_waitId q = WaitResult s
         ∧ m_resume q = Some AfterWaitPID.

(** [c] was removed. *)
Definition gone (c : ProcessID) (k : Kernel) : Prop :=
  procs k !! c = None ∧ c < m_nextID k.

(** The events that end the wait of [c] for [t]: a Resume aimed at [c], an
    interrupt on a vector hooked for [c], a KillPID aimed at [t]. *)
Definition disturbs (c t : ProcessID) (k : Kernel) (e : Event) : Prop :=
  match e with
  | Trap procID action _ _ =>
      (action = Resume ∧ resolveTarget k procID action = Some (Some c))
      ∨ (action = KillPID ∧ resolveTarget k procID action = Some (Some t))
  | Interrupt _ vector => In (vector, Some c) (m_hooks k)
  | TimerTick => False
  end.

(** The current process calls EnterSleep. *)
Definition sleepsBy (p : ProcessID) (k : Kernel) (e : Event) : Prop :=
  match e with
  | Trap _ EnterSleep _ _ => m_current k = Some p
  | _ => False
  end.

(** A sequence of events none of which is [bad] in the state it comes in. *)
Fixpoint avoids (bad : Kernel → Event → Prop) (k : Kernel) (es : list Event) : Prop :=
  match es with
  | [] => True
  | e :: rest =>
      ¬ bad k e
      ∧ match kernelStep k e with
        | Some (k1, _) => avoids bad k1 rest
        | None => True
        end
  end.

(** The current process is Running or Ready. *)
Definition currentRuns (k : Kernel) : Prop :=
  ∀ c q, m_current k = Some c → procs k !! c = Some q →
         m_state q = Running ∨ m_state q = Ready.

(** The first call of [c] that returns in a trace. *)
Definition firstReturn (c : ProcessID) (rets : list (ProcessID * Result))
  : option Result :=
  snd <$> List.find (λ x, bool_decide (fst x = c)) rets.

(** [c] was switched away inside the dispatcher at [pt]. *)
Definition suspended (c : ProcessID) (pt : ResumePoint) (k : Kernel) : Prop :=
  m_current k ≠ Some c
  ∧ ∃ q, procs k !! c = Some q ∧ m_resume q = Some pt.

(** [c] is woken up: a Resume is aimed at it, or an interrupt comes in on a
    vector hooked for it. *)
Definition wakes (c : ProcessID) (k : Kernel) (e : Event) : Prop :=
  match e with
  | Trap procID Resume _ _ => resolveTarget k procID Resume = Some (Some c)
  | Interrupt _ vector => In (vector, Some c) (m_hooks k)
  | _ => False
  end.

(** What the interrupts raised on a process leave of it: the events are
    queued, each counts as a wakeup, and the process is Ready. *)
Definition interrupted (evs : list ProcessEvent) (q : Process) : Process :=
  setState Ready
    (setWakeups (length evs + m_wakeups q) (setEvents (m_events q ++ evs) q)).

(** What one entry into the kernel may do to the process [x], found as [q],
    before any rescheduling: [o] is what is found afterwards. *)
Definition effect (k : Kernel) (e : Event) (x : ProcessID) (q : Process)
    (o : option Process) : Prop :=
  o = Some q
  ∨ match e with
    | Trap procID action addr _ =>
        (action = Resume ∧ resolveTarget k procID action = Some (Some x)
         ∧ o = Some (wakeup q))
        ∨ (action = SetStack ∧ resolveTarget k procID action = Some (Some x)
           ∧ o = Some (setUserStack addr q))
        ∨ (action = KillPID ∧ resolveTarget k procID action = Some (Some x)
           ∧ o = None)
        ∨ (action = KillPID
           ∧ ∃ t, t ≠ x ∧ resolveTarget k procID action = Some (Some t)
                  ∧ o = Some (release t addr q))
        ∨ (action = WaitPID ∧ m_current k = Some x
           ∧ ∃ id, o = Some (setState Waiting (setWait id q)))
        ∨ (action = WaitTimer ∧ m_current k = Some x
           ∧ o = Some (setState Sleeping (setSleepTimer (readTimer k addr) q)))
        ∨ (action = EnterSleep ∧ m_current k = Some x
           ∧ o = Some (snd (sleep (readTimer k addr) q)))
    | Interrupt _ vector =>
        In (vector, Some x) (m_hooks k) ∧ ∃ evs, o = Some (interrupted evs q)
    | TimerTick => ∃ now, o = Some (expire now q)
    end.

(** The two ways an entry into the kernel ends: it returns to the process
    that was current, or it reschedules. *)
Definition ending (k kmid k1 : Kernel) (rets : list (ProcessID * Result)) : Prop :=
  (k1 = kmid ∧ m_current kmid = m_current k
   ∧ (rets = [] ∨ ∃ cur r, m_current k = Some cur ∧ rets = [(cur, r)]))
  ∨ (∃ pt, resumeCurrent (schedule pt kmid) = Some (k1, rets)).

(** ** Proof tools *)

(** Case analysis on the innermost scrutinee of the goal. *)
Ltac break_inner :=
  match goal with
  | |- context [match ?x with _ => _ end] =>
      lazymatch x with
      | context [match _ with _ => _ end] => fail
      | _ => destruct x eqn:?
      end
  end.

(** * Properties *)

(** ** Lookups after an update *)

Lemma lookup_update k id f j :
  procs (update id f k) !! j
  = if decide (id = j) then f <$> procs k !! j else procs k !! j.
Proof.
  unfold update; simpl. rewrite lookup_alter.
  destruct (decide (id = j)); subst; reflexivity.
Qed.

Lemma lookup_update_eq k id f :
  procs (update id f k) !! id = f <$> procs k !! id.
Proof. rewrite lookup_update. destruct (decide (id = id)); congruence. Qed.

Lemma lookup_update_ne k id f j :
  id ≠ j → procs (update id f k) !! j = procs k !! j.
Proof. intros Hne. rewrite lookup_update. destruct (decide (id = j)); congruence. Qed.

Lemma deref_Some k ptr id p :
  deref k ptr = Some (id, p) ↔ ptr = Some id ∧ procs k !! id = Some p.
Proof.
  unfold deref. destruct ptr as [i|]; [|split; [discriminate | intros [? _]; discriminate]].
  destruct (procs k !! i) as [q|] eqn:E.
  - split.
    + intros [= -> ->]. auto.
    + intros [[= ->] H]. rewrite E in H. congruence.
  - split; [discriminate|]. intros [[= ->] H]. rewrite E in H. discriminate.
Qed.

Lemma resolveTarget_found k procID action id :
  action ≠ GetPID → action ≠ Spawn → procID ≠ SELF →
  is_Some (get k procID) → id = procID →
  resolveTarget k procID action = Some (Some id).
Proof.
  intros H1 H2 H3 [p Hp] ->. unfold resolveTarget.
  rewrite !bool_decide_eq_true_2 by assumption. simpl.
  destruct (decide (procID = SELF)); [contradiction|]. rewrite Hp. reflexivity.
Qed.

Lemma resolveTarget_self k action :
  action ≠ GetPID → action ≠ Spawn →
  resolveTarget k SELF action = Some (m_current k).
Proof.
  intros H1 H2. unfold resolveTarget.
  rewrite !bool_decide_eq_true_2 by assumption. simpl.
  destruct (decide (SELF = SELF)); congruence.
Qed.

(** ** The unresolved target *)

(** C2: for every operation but Spawn and GetPID, a target that is not the
    SELF sentinel and not in the process table makes the dispatcher return
    NotFound at once, with the whole kernel state, the user buffers included,
    as it was; the caller gets NotFound from the trap. *)
Theorem unresolved_target_not_found k procID action addr output :
  action ≠ Spawn → action ≠ GetPID → procID ≠ SELF → get k procID = None →
  ProcessCtlHandler k procID action addr output = Returned NotFound k
  ∧ (∀ c, m_current k = Some c →
       kernelStep k (Trap procID action addr output) = Some (k, [(c, NotFound)])).
Proof.
  intros HS HG Hself Hget.
  assert (E : ProcessCtlHandler k procID action addr output = Returned NotFound k).
  { unfold ProcessCtlHandler, resolveTarget.
    rewrite !bool_decide_eq_true_2 by assumption. simpl.
    destruct (decide (procID = SELF)); [contradiction|].
    rewrite Hget. reflexivity. }
  split; [exact E|].
  intros c Hc. simpl. rewrite Hc, E. reflexivity.
Qed.

Lemma unresolved_target_not_found_witness :
  ProcessCtlHandler kEx 9 InfoPID 10 20 = Returned NotFound kEx
  ∧ (∀ c, m_current kEx = Some c →
       kernelStep kEx (Trap 9 InfoPID 10 20) = Some (kEx, [(c, NotFound)])).
Proof.
  apply (unresolved_target_not_found kEx 9 InfoPID 10 20);
    [discriminate | discriminate | discriminate | reflexivity].
Defined.

(** ** Spawn *)

(** C3: with the process table full, [create] yields no process and the
    dispatcher goes through the null pointer: no error result comes back. *)
Theorem spawn_on_full_table_faults k procID addr output :
  (m_capacity k ≤ size (procs k))%nat →
  ProcessCtlHandler k procID Spawn addr output = Fault
  ∧ kernelStep k (Trap procID Spawn addr output) = None.
Proof.
  intros Hfull.
  assert (E : ProcessCtlHandler k procID Spawn addr output = Fault).
  { unfold ProcessCtlHandler, resolveTarget, create. simpl.
    destruct (decide (m_capacity k ≤ size (procs k))%nat); [reflexivity | contradiction]. }
  split; [exact E|].
  simpl. rewrite E. destruct (m_current k); reflexivity.
Qed.

Lemma spawn_on_full_table_faults_witness :
  ProcessCtlHandler kFull 0 Spawn 7 0 = Fault
  ∧ kernelStep kFull (Trap 0 Spawn 7 0) = None.
Proof.
  apply (spawn_on_full_table_faults kFull 0 7 0). vm_compute. lia.
Defined.

(** A Spawn that returns has returned the identifier of a process whose
    parent is the caller. *)
Lemma spawn_returned_inv k procID addr output r k1 :
  ProcessCtlHandler k procID Spawn addr output = Returned r k1 →
  ∃ c new p,
    m_current k = Some c ∧ r = Payload new ∧ get k1 new = Some p ∧ m_parent p = c.
Proof.
  unfold ProcessCtlHandler, resolveTarget. simpl.
  destruct (create addr (m_map k) k) as [[new kc]|] eqn:Hcr; [|discriminate].
  destruct (deref kc (m_current kc)) as [[cur qc]|] eqn:Hd; [|discriminate].
  intros [= <- <-]. apply deref_Some in Hd as [Hcur Hqc].
  unfold create in Hcr. destruct (decide _); [discriminate|]. injection Hcr as <- <-.
  exists cur, (m_nextID k), (setParent cur (newProcess addr (m_map k))).
  split; [exact Hcur|]. split; [reflexivity|]. split; [|reflexivity].
  unfold get. rewrite lookup_update_eq. simpl. rewrite lookup_insert_eq. reflexivity.
Qed.

(** C7: a Spawn by the current process [c] with room in the table enters a
    new process, returns its identifier, and [get] on that identifier yields a
    process whose parent is [c]; the GetParent of that process, once it runs,
    returns [c]. *)
Theorem spawn_records_parent k procID addr output c :
  m_current k = Some c → is_Some (get k c) →
  (size (procs k) < m_capacity k)%nat →
  ∃ new k1 p,
    ProcessCtlHandler k procID Spawn addr output = Returned (Payload new) k1
    ∧ new = m_nextID k
    ∧ get k1 new = Some p
    ∧ m_parent p = c
    ∧ m_state p = Ready
    ∧ m_entry p = addr
    ∧ (∀ k2 a o, m_current k2 = Some new → get k2 new = Some p →
         ProcessCtlHandler k2 SELF GetParent a o = Returned (Payload c) k2).
Proof.
  intros Hc [q Hq] Hroom. unfold get in *.
  assert (Hin : is_Some (<[m_nextID k := newProcess addr (m_map k)]> (procs k) !! c)).
  { rewrite lookup_insert. destruct (decide (m_nextID k = c)); eauto. }
  destruct Hin as [q1 Hq1].
  exists (m_nextID k).
  eexists _, (setParent c (newProcess addr (m_map k))).
  split.
  { unfold ProcessCtlHandler, resolveTarget, create. simpl.
    destruct (decide (m_capacity k ≤ size (procs k))%nat) as [Hle|_]; [lia|].
    simpl. rewrite Hc. simpl. rewrite Hq1. reflexivity. }
  split; [reflexivity|].
  split.
  { rewrite lookup_update_eq. simpl. rewrite lookup_insert_eq. reflexivity. }
  split; [reflexivity|]. split; [reflexivity|]. split; [reflexivity|].
  intros k2 a o Hcur Hget.
  unfold ProcessCtlHandler. rewrite resolveTarget_self by discriminate.
  unfold deref. rewrite Hcur, Hget. reflexivity.
Qed.

Lemma spawn_records_parent_witness :
  ∃ new k1 p,
    ProcessCtlHandler kEx 0 Spawn 7 0 = Returned (Payload new) k1
    ∧ new = m_nextID kEx
    ∧ get k1 new = Some p
    ∧ m_parent p = 0
    ∧ m_state p = Ready
    ∧ m_entry p = 7
    ∧ (∀ k2 a o, m_current k2 = Some new → get k2 new = Some p →
         ProcessCtlHandler k2 SELF GetParent a o = Returned (Payload 0) k2).
Proof.
  apply (spawn_records_parent kEx 0 7 0 0);
    [reflexivity | eexists; reflexivity | vm_compute; lia].
Defined.

(** ** What the scheduler leaves alone *)

Lemma switchTo_frame next k :
  m_memory (switchTo next k) = m_memory k
  ∧ m_nextID (switchTo next k) = m_nextID k
  ∧ m_capacity (switchTo next k) = m_capacity k
  ∧ m_timer (switchTo next k) = m_timer k
  ∧ m_hooks (switchTo next k) = m_hooks k
  ∧ m_irqEnabled (switchTo next k) = m_irqEnabled k
  ∧ m_map (switchTo next k) = m_map k.
Proof.
  unfold switchTo.
  destruct (decide (m_current k = Some next)); [repeat split; reflexivity|].
  destruct (m_current k); simpl; repeat split; reflexivity.
Qed.

Lemma saveContext_frame pt k :
  m_memory (saveContext pt k) = m_memory k
  ∧ m_nextID (saveContext pt k) = m_nextID k
  ∧ m_capacity (saveContext pt k) = m_capacity k
  ∧ m_timer (saveContext pt k) = m_timer k
  ∧ m_hooks (saveContext pt k) = m_hooks k
  ∧ m_irqEnabled (saveContext pt k) = m_irqEnabled k
  ∧ m_map (saveContext pt k) = m_map k
  ∧ m_current (saveContext pt k) = m_current k.
Proof.
  unfold saveContext. destruct (m_current k) eqn:E; simpl; rewrite ?E;
    repeat split; reflexivity.
Qed.

Lemma schedule_frame pt k :
  m_memory (schedule pt k) = m_memory k
  ∧ m_nextID (schedule pt k) = m_nextID k
  ∧ m_capacity (schedule pt k) = m_capacity k
  ∧ m_timer (schedule pt k) = m_timer k
  ∧ m_hooks (schedule pt k) = m_hooks k
  ∧ m_irqEnabled (schedule pt k) = m_irqEnabled k
  ∧ m_map (schedule pt k) = m_map k.
Proof.
  unfold schedule.
  pose proof (saveContext_frame pt k) as (H1 & H2 & H3 & H4 & H5 & H6 & H7 & _).
  destruct (select (saveContext pt k)) as [next|].
  - pose proof (switchTo_frame next (saveContext pt k)) as (G1 & G2 & G3 & G4 & G5 & G6 & G7).
    rewrite G1, G2, G3, G4, G5, G6, G7. repeat split; assumption.
  - destruct (m_current (saveContext pt k)) as [c|]; [|repeat split; assumption].
    destruct (procs (saveContext pt k) !! c) as [p|]; [|simpl; repeat split; assumption].
    destruct (decide (m_state p = Running)); simpl; repeat split; assumption.
Qed.

Lemma schedule_memory pt k : m_memory (schedule pt k) = m_memory k.
Proof. apply schedule_frame. Qed.

(** ** Stores through a user pointer *)

Lemma storeProcessInfo_Some addr i k k1 :
  storeProcessInfo addr i k = Some k1 ↔
  (∃ old, userBuffer k addr = Some (ObjProcessInfo old))
  ∧ k1 = setMemory (<[addr := ObjProcessInfo i]> (m_memory k)) k.
Proof.
  unfold storeProcessInfo. destruct (userBuffer k addr) as [[old|t]|].
  - split; [intros [= <-]; eauto | intros [_ ->]; reflexivity].
  - split; [discriminate | intros [[old [=]] _]].
  - split; [discriminate | intros [[old [=]] _]].
Qed.

Lemma storeTimerInfo_Some addr t k k1 :
  storeTimerInfo addr t k = Some k1 ↔
  (∃ old, userBuffer k addr = Some (ObjTimerInfo old))
  ∧ k1 = setMemory (<[addr := ObjTimerInfo t]> (m_memory k)) k.
Proof.
  unfold storeTimerInfo. destruct (userBuffer k addr) as [[i|old]|].
  - split; [discriminate | intros [[old [=]] _]].
  - split; [intros [= <-]; eauto | intros [_ ->]; reflexivity].
  - split; [discriminate | intros [[old [=]] _]].
Qed.

Lemma storeProcessInfo_frame addr i k k1 :
  storeProcessInfo addr i k = Some k1 → k1 = setMemory (m_memory k1) k.
Proof. intros H. apply storeProcessInfo_Some in H as [_ ->]. reflexivity. Qed.

Lemma storeTimerInfo_frame addr t k k1 :
  storeTimerInfo addr t k = Some k1 → k1 = setMemory (m_memory k1) k.
Proof. intros H. apply storeTimerInfo_Some in H as [_ ->]. reflexivity. Qed.

Lemma userBuffer_lookup k addr o :
  userBuffer k addr = Some o → m_memory k !! addr = Some o.
Proof. unfold userBuffer. destruct (decide (addr = 0)); [discriminate | auto]. Qed.

(** The dispatcher writes to user memory at [addr] and nowhere else. *)
Lemma handler_memory k procID action addr output k1 a :
  outcomeKernel (ProcessCtlHandler k procID action addr output) = Some k1 →
  a ≠ addr → m_memory k1 !! a = m_memory k !! a.
Proof.
  unfold ProcessCtlHandler. intros H Ha.
  destruct (resolveTarget k procID action) as [proc|]; [|simpl in H; congruence].
  destruct action; simpl in H;
    repeat match type of H with
    | context [match ?x with _ => _ end] => destruct x eqn:?; simpl in H
    end;
    try discriminate; injection H as <-;
    rewrite ?schedule_memory; simpl; try reflexivity.
  - unfold create in *. destruct (decide _); [discriminate|]. simplify_eq. reflexivity.
  - match goal with E : storeProcessInfo _ _ _ = Some _ |- _ =>
      apply storeProcessInfo_Some in E as [_ ->] end.
    simpl. rewrite lookup_insert_ne by congruence. reflexivity.
  - match goal with E : storeTimerInfo _ _ _ = Some _ |- _ =>
      apply storeTimerInfo_Some in E as [_ ->] end.
    simpl. rewrite lookup_insert_ne by congruence. reflexivity.
Qed.

(** ** InfoPID *)

(** C6, as the code has it: InfoPID on an existing target writes the snapshot
    of the target (identifier, state, user stack, kernel stack, page
    directory, parent) to the third argument [addr], when that is the address
    of a buffer for a [ProcessInfo]; every other buffer and the rest of the
    kernel state, the process table included, are as they were, and the call
    returns Success.  The pointer is not checked: with a null [addr] the
    stores go through the null pointer, and no result is returned. *)
Theorem infopid_writes_addr k procID addr output id p :
  resolveTarget k procID InfoPID = Some (Some id) → get k id = Some p →
  (∀ old, userBuffer k addr = Some (ObjProcessInfo old) →
     ∃ k1,
       ProcessCtlHandler k procID InfoPID addr output = Returned Success k1
       ∧ m_memory k1 !! addr
         = Some (ObjProcessInfo
                   (mkProcessInfo id (m_state p) (m_userStack p) (m_kernelStack p)
                      (m_pageDirectory p) (m_parent p)))
       ∧ (∀ a, a ≠ addr → m_memory k1 !! a = m_memory k !! a)
       ∧ procs k1 = procs k
       ∧ m_current k1 = m_current k
       ∧ k1 = setMemory (m_memory k1) k)
  ∧ (addr = 0 → ProcessCtlHandler k procID InfoPID addr output = Fault).
Proof.
  intros Hr Hp. unfold get in Hp.
  unfold ProcessCtlHandler. rewrite Hr. unfold deref. rewrite Hp.
  split.
  - intros old Hold. unfold storeProcessInfo. rewrite Hold.
    eexists. split; [reflexivity|]. simpl.
    split; [apply lookup_insert_eq|].
    split; [|repeat split; reflexivity].
    intros a Ha. apply lookup_insert_ne. congruence.
  - intros ->. reflexivity.
Qed.

Lemma infopid_writes_addr_witness :
  (∃ k1,
     ProcessCtlHandler kEx 1 InfoPID 10 20 = Returned Success k1
     ∧ m_memory k1 !! 10
       = Some (ObjProcessInfo (mkProcessInfo 1 Ready 100 200 300 0))
     ∧ (∀ a, a ≠ 10 → m_memory k1 !! a = m_memory kEx !! a)
     ∧ procs k1 = procs kEx
     ∧ m_current k1 = m_current kEx
     ∧ k1 = setMemory (m_memory k1) kEx)
  ∧ ProcessCtlHandler kEx 1 InfoPID 0 20 = Fault.
Proof.
  split.
  - destruct (infopid_writes_addr kEx 1 10 20 1 (procEx Ready) eq_refl eq_refl)
      as [H _].
    exact (H (mkProcessInfo 0 Stopped 0 0 0 0) eq_refl).
  - destruct (infopid_writes_addr kEx 1 0 20 1 (procEx Ready) eq_refl eq_refl)
      as [_ H].
    apply H. reflexivity.
Defined.

(** C6, as stated, fails: with a buffer for a [ProcessInfo] at 10 and one at
    20, InfoPID on process 1 with [addr = 10] and [output = 20] returns
    Success and does not leave the snapshot at [output]. *)
Lemma infopid_output_not_written :
  (∃ k1, ProcessCtlHandler kEx 1 InfoPID 10 20 = Returned Success k1)
  ∧ ¬ (∃ k1,
         ProcessCtlHandler kEx 1 InfoPID 10 20 = Returned Success k1
         ∧ m_memory k1 !! 20 = Some (ObjProcessInfo (snapshot 1 (procEx Ready)))).
Proof.
  split; [eexists; vm_compute; reflexivity|].
  intros (k1 & H & Hm).
  vm_compute in H. injection H as <-. vm_compute in Hm. discriminate Hm.
Qed.

(** ** SetStack *)

(** C9: SetStack on an existing target puts [addr] in the user stack pointer
    of the target and returns Success; the other fields of the target, the
    other processes and the rest of the kernel state are as they were. *)
Theorem setstack_changes_only_user_stack k procID addr output id p :
  resolveTarget k procID SetStack = Some (Some id) → get k id = Some p →
  ∃ k1 p1,
    ProcessCtlHandler k procID SetStack addr output = Returned Success k1
    ∧ get k1 id = Some p1
    ∧ m_userStack p1 = addr
    ∧ m_parent p1 = m_parent p
    ∧ m_state p1 = m_state p
    ∧ m_waitId p1 = m_waitId p
    ∧ m_wakeups p1 = m_wakeups p
    ∧ m_sleepTimer p1 = m_sleepTimer p
    ∧ m_kernelStack p1 = m_kernelStack p
    ∧ m_pageDirectory p1 = m_pageDirectory p
    ∧ m_events p1 = m_events p
    ∧ m_entry p1 = m_entry p
    ∧ m_resume p1 = m_resume p
    ∧ (∀ j, j ≠ id → get k1 j = get k j)
    ∧ m_current k1 = m_current k
    ∧ m_nextID k1 = m_nextID k
    ∧ m_capacity k1 = m_capacity k
    ∧ m_timer k1 = m_timer k
    ∧ m_hooks k1 = m_hooks k
    ∧ m_irqEnabled k1 = m_irqEnabled k
    ∧ m_memory k1 = m_memory k
    ∧ m_map k1 = m_map k.
Proof.
  intros Hr Hp. unfold get in *.
  unfold ProcessCtlHandler. rewrite Hr. unfold deref. rewrite Hp.
  exists (update id (setUserStack addr) k), (setUserStack addr p).
  split; [reflexivity|].
  split; [rewrite lookup_update_eq, Hp; reflexivity|].
  repeat (split; [reflexivity|]).
  split; [|repeat split; reflexivity].
  intros j Hj. apply lookup_update_ne. congruence.
Qed.

Lemma setstack_changes_only_user_stack_witness :
  ∃ k1 p1,
    ProcessCtlHandler kEx 1 SetStack 4096 0 = Returned Success k1
    ∧ get k1 1 = Some p1
    ∧ m_userStack p1 = 4096
    ∧ m_parent p1 = m_parent (procEx Ready)
    ∧ m_state p1 = m_state (procEx Ready)
    ∧ m_waitId p1 = m_waitId (procEx Ready)
    ∧ m_wakeups p1 = m_wakeups (procEx Ready)
    ∧ m_sleepTimer p1 = m_sleepTimer (procEx Ready)
    ∧ m_kernelStack p1 = m_kernelStack (procEx Ready)
    ∧ m_pageDirectory p1 = m_pageDirectory (procEx Ready)
    ∧ m_events p1 = m_events (procEx Ready)
    ∧ m_entry p1 = m_entry (procEx Ready)
    ∧ m_resume p1 = m_resume (procEx Ready)
    ∧ (∀ j, j ≠ 1 → get k1 j = get kEx j)
    ∧ m_current k1 = m_current kEx
    ∧ m_nextID k1 = m_nextID kEx
    ∧ m_capacity k1 = m_capacity kEx
    ∧ m_timer k1 = m_timer kEx
    ∧ m_hooks k1 = m_hooks kEx
    ∧ m_irqEnabled k1 = m_irqEnabled kEx
    ∧ m_memory k1 = m_memory kEx
    ∧ m_map k1 = m_map kEx.
Proof.
  apply (setstack_changes_only_user_stack kEx 1 4096 0 1 (procEx Ready)); reflexivity.
Defined.

(** ** The fourth argument *)

(** C10: [output] has no influence: two calls that differ only in it give
    the same outcome, result and state alike, also seen from the trap and in
    everything that follows; and the buffer at [output] is as it was, unless
    it is the one at [addr]. *)
Theorem output_is_ignored k procID action addr output1 output2 :
  ProcessCtlHandler k procID action addr output1
  = ProcessCtlHandler k procID action addr output2
  ∧ kernelStep k (Trap procID action addr output1)
    = kernelStep k (Trap procID action addr output2)
  ∧ (∀ es, run k (Trap procID action addr output1 :: es)
           = run k (Trap procID action addr output2 :: es))
  ∧ (∀ k1, outcomeKernel (ProcessCtlHandler k procID action addr output1) = Some k1 →
       output1 ≠ addr → m_memory k1 !! output1 = m_memory k !! output1).
Proof.
  split; [reflexivity|]. split; [reflexivity|]. split; [reflexivity|].
  intros k1 H Hne. eapply handler_memory; eassumption.
Qed.

Lemma output_is_ignored_witness :
  ProcessCtlHandler kEx 1 InfoPID 10 20 = ProcessCtlHandler kEx 1 InfoPID 10 30
  ∧ kernelStep kEx (Trap 1 InfoPID 10 20) = kernelStep kEx (Trap 1 InfoPID 10 30)
  ∧ (∀ es, run kEx (Trap 1 InfoPID 10 20 :: es) = run kEx (Trap 1 InfoPID 10 30 :: es))
  ∧ (∀ k1, outcomeKernel (ProcessCtlHandler kEx 1 InfoPID 10 20) = Some k1 →
       20 ≠ 10 → m_memory k1 !! 20 = m_memory kEx !! 20).
Proof. apply (output_is_ignored kEx 1 InfoPID 10 20 30). Defined.

(** ** The process table under the primitives *)

Lemma lookup_remove k proc status x :
  procs (remove proc status k) !! x
  = if decide (proc = x) then None else release proc status <$> procs k !! x.
Proof.
  unfold remove; simpl. rewrite lookup_fmap, lookup_delete.
  destruct (decide (proc = x)); reflexivity.
Qed.

Lemma release_other t status q :
  ¬ (m_state q = Waiting ∧ m_waitId q = WaitTarget t) → release t status q = q.
Proof. intros H. unfold release. rewrite bool_decide_eq_false_2; auto. Qed.

Lemma select_ready k n :
  select k = Some n → ∃ q, procs k !! n = Some q ∧ m_state q = Ready.
Proof.
  unfold select. intros H. apply find_some in H as [_ H].
  unfold isReady in H. destruct (procs k !! n) as [q|]; [|discriminate].
  exists q. split; [reflexivity|]. eapply bool_decide_eq_true_1. exact H.
Qed.

Lemma select_saveContext pt k n :
  select (saveContext pt k) = Some n → ∃ q, procs k !! n = Some q ∧ m_state q = Ready.
Proof.
  intros H. apply select_ready in H as (q & Hq & Hs).
  unfold saveContext in Hq. destruct (m_current k) as [c|]; [|eauto].
  rewrite lookup_update in Hq. destruct (decide (c = n)); [|eauto].
  destruct (procs k !! n) as [q0|]; [|discriminate]. simpl in Hq.
  injection Hq as <-. eauto.
Qed.

(** A process that is neither current nor Ready is left alone by the
    scheduler, and is not made current. *)
Lemma schedule_other pt k x q :
  m_current k ≠ Some x → procs k !! x = Some q → m_state q ≠ Ready →
  procs (schedule pt k) !! x = Some q ∧ m_current (schedule pt k) ≠ Some x.
Proof.
  intros Hc Hq Hs. unfold schedule.
  assert (Hsv : procs (saveContext pt k) !! x = Some q).
  { unfold saveContext. destruct (m_current k) as [c|]; [|exact Hq].
    rewrite lookup_update_ne; [exact Hq | congruence]. }
  pose proof (saveContext_frame pt k) as (_ & _ & _ & _ & _ & _ & _ & Hcur).
  destruct (select (saveContext pt k)) as [next|] eqn:Hsel.
  - apply select_saveContext in Hsel as (qn & Hqn & Hsn).
    assert (next ≠ x) by (intros ->; congruence).
    unfold switchTo. destruct (decide _) as [e|ne].
    + split; [exact Hsv | congruence].
    + unfold setCurrent; cbn [procs m_current]. split; [|congruence].
      rewrite lookup_update_ne by assumption.
      destruct (m_current (saveContext pt k)) as [prev|]; [|exact Hsv].
      rewrite lookup_update_ne; [exact Hsv | congruence].
  - destruct (m_current (saveContext pt k)) as [c|] eqn:Hc1.
    + destruct (procs (saveContext pt k) !! c) as [p|].
      * destruct (decide (m_state p = Running)); simpl; split; try assumption; congruence.
      * simpl. split; [assumption | congruence].
    + split; [assumption | congruence].
Qed.

(** What the scheduler does to a process: the bookkeeping is kept; the saved
    context changes only for the process that was current; the state changes
    only from Ready to Running, for the process that is made current, and
    from Running to Ready, for the one switched away from. *)
Lemma schedule_lookup pt k x q1 :
  procs (schedule pt k) !! x = Some q1 →
  ∃ q, procs k !! x = Some q ∧ sameBook q q1
    ∧ (m_resume q1 = m_resume q ∨ (m_current k = Some x ∧ m_resume q1 = pt))
    ∧ (m_state q1 = m_state q
       ∨ (m_state q = Ready ∧ m_state q1 = Running)
       ∨ (m_state q = Running ∧ m_state q1 = Ready ∧ m_current k = Some x)).
Proof.
  assert (Hsave : ∀ q2, procs (saveContext pt k) !! x = Some q2 →
    ∃ q, procs k !! x = Some q ∧ sameBook q q2
      ∧ (m_resume q2 = m_resume q ∨ (m_current k = Some x ∧ m_resume q2 = pt))
      ∧ m_state q2 = m_state q).
  { intros q2. unfold saveContext. destruct (m_current k) as [c|] eqn:Hc.
    - rewrite lookup_update. destruct (decide (c = x)) as [->|].
      + destruct (procs k !! x) as [q|]; [|discriminate]. simpl. intros [= <-].
        exists q. unfold sameBook. simpl. tauto.
      + intros H. exists q2. unfold sameBook. tauto.
    - intros H. exists q2. unfold sameBook. tauto. }
  pose proof (saveContext_frame pt k) as (_ & _ & _ & _ & _ & _ & _ & Hcur).
  unfold schedule.
  destruct (select (saveContext pt k)) as [next|] eqn:Hsel.
  - apply select_ready in Hsel as (qn & Hqn & Hsn).
    unfold switchTo. rewrite Hcur.
    destruct (decide (m_current k = Some next)) as [e|ne].
    { intros H. apply Hsave in H as (q & ? & ? & ? & ?). exists q. tauto. }
    unfold setCurrent; cbn [procs m_current].
    rewrite lookup_update. destruct (decide (next = x)) as [->|Hnx].
    + assert (E : ∃ q3, (match m_current k with
                         | Some prev => update prev yieldCpu (saveContext pt k)
                         | None => saveContext pt k
                         end).(procs) !! x = Some q3 ∧ q3 = qn).
      { destruct (m_current k) as [prev|]; [|eauto].
        rewrite lookup_update_ne by congruence. eauto. }
      destruct E as (q3 & -> & ->). simpl. intros [= <-].
      apply Hsave in Hqn as (q & ? & Hb & ? & Hst). exists q.
      unfold sameBook in *. simpl. repeat split; try tauto.
      right. left. split; congruence.
    + destruct (m_current k) as [prev|] eqn:Hc.
      * rewrite lookup_update. destruct (decide (prev = x)) as [->|].
        -- intros H. apply fmap_Some in H as (q2 & E & ->).
           apply Hsave in E as (q & ? & Hb & ? & Hst).
           exists q. unfold yieldCpu.
           destruct (decide (m_state q2 = Running)); unfold sameBook in *; simpl.
           ++ repeat split; try tauto. right. right. repeat split; congruence.
           ++ repeat split; tauto.
        -- intros H. apply Hsave in H as (q & ? & ? & ? & ?). exists q. tauto.
      * intros H. apply Hsave in H as (q & ? & ? & ? & ?). exists q. tauto.
  - assert (G : procs (saveContext pt k) !! x = Some q1 →
      ∃ q, procs k !! x = Some q ∧ sameBook q q1
        ∧ (m_resume q1 = m_resume q ∨ (m_current k = Some x ∧ m_resume q1 = pt))
        ∧ (m_state q1 = m_state q
           ∨ (m_state q = Ready ∧ m_state q1 = Running)
           ∨ (m_state q = Running ∧ m_state q1 = Ready ∧ m_current k = Some x))).
    { intros H. apply Hsave in H as (q & ? & ? & ? & ?). exists q. tauto. }
    destruct (m_current (saveContext pt k)) as [c|]; [|exact G].
    destruct (procs (saveContext pt k) !! c) as [p|]; [|exact G].
    destruct (decide (m_state p = Running)); exact G.
Qed.

Lemma update_None k id f x :
  procs (update id f k) !! x = None ↔ procs k !! x = None.
Proof.
  rewrite lookup_update. destruct (decide (id = x)); [|tauto].
  destruct (procs k !! x); simpl; split; congruence.
Qed.

Lemma schedule_None pt k x :
  procs (schedule pt k) !! x = None ↔ procs k !! x = None.
Proof.
  assert (Hsave : procs (saveContext pt k) !! x = None ↔ procs k !! x = None).
  { unfold saveContext. destruct (m_current k); [apply update_None | tauto]. }
  unfold schedule.
  destruct (select (saveContext pt k)) as [next|].
  - unfold switchTo. destruct (decide _); [exact Hsave|].
    unfold setCurrent; cbn [procs]. rewrite update_None.
    destruct (m_current (saveContext pt k)); [rewrite update_None|]; exact Hsave.
  - destruct (m_current (saveContext pt k)) as [c|]; [|exact Hsave].
    destruct (procs (saveContext pt k) !! c) as [p|]; [|exact Hsave].
    destruct (decide (m_state p = Running)); exact Hsave.
Qed.

(** The process the scheduler leaves current is in the table and is Running
    or Ready; it was current already or it was Ready. *)
Lemma schedule_current pt k n :
  m_current (schedule pt k) = Some n →
  (∃ q1, procs (schedule pt k) !! n = Some q1
         ∧ (m_state q1 = Running ∨ m_state q1 = Ready))
  ∧ (m_current k = Some n ∨ ∃ q, procs k !! n = Some q ∧ m_state q = Ready).
Proof.
  pose proof (saveContext_frame pt k) as (_ & _ & _ & _ & _ & _ & _ & Hcur).
  unfold schedule.
  destruct (select (saveContext pt k)) as [next|] eqn:Hsel.
  - pose proof Hsel as Hsel'. apply select_ready in Hsel as (qn & Hqn & Hsn).
    apply select_saveContext in Hsel' as (q0 & Hq0 & Hs0).
    unfold switchTo. destruct (decide _) as [e|ne].
    + intros H. rewrite H in e. injection e as ->.
      split; [exists qn; auto|]. left. congruence.
    + unfold setCurrent; cbn [procs m_current]. intros [= ->].
      split; [|right; eauto].
      rewrite lookup_update_eq.
      assert (E : is_Some ((match m_current (saveContext pt k) with
                         | Some prev => update prev yieldCpu (saveContext pt k)
                         | None => saveContext pt k
                         end).(procs) !! n)).
      { destruct (m_current (saveContext pt k)) as [prev|]; [|eauto].
        apply not_eq_None_Some. rewrite update_None. congruence. }
      destruct E as [q3 ->]. simpl. eexists. split; [reflexivity|]. left. reflexivity.
  - destruct (m_current (saveContext pt k)) as [c|] eqn:Hc;
      [|rewrite Hc; discriminate].
    destruct (procs (saveContext pt k) !! c) as [p|] eqn:Hp; [|discriminate].
    destruct (decide (m_state p = Running)); [|discriminate].
    rewrite Hc. intros [= ->]. split; [eauto|]. left. congruence.
Qed.

(** ** Well-formed states stay well-formed *)

Lemma wfKernel_lookup k id q :
  wfKernel k → procs k !! id = Some q → id < m_nextID k.
Proof. intros [H _] Hq. exact (H id q Hq). Qed.

Lemma wf_update k id f : wfKernel k → wfKernel (update id f k).
Proof.
  intros [H1 H2]. split.
  - intros x q Hq. simpl.
    destruct (procs k !! x) as [q0|] eqn:E.
    + exact (H1 x q0 E).
    + apply (update_None k id f) in E. congruence.
  - intros c Hc. apply not_eq_None_Some. rewrite update_None.
    apply not_eq_None_Some. apply H2. exact Hc.
Qed.

Lemma wf_schedule pt k : wfKernel k → wfKernel (schedule pt k).
Proof.
  intros [H1 H2]. split.
  - intros x q Hq. apply schedule_lookup in Hq as (q0 & Hq0 & _).
    pose proof (schedule_frame pt k) as (_ & -> & _). exact (H1 x q0 Hq0).
  - intros c Hc. apply schedule_current in Hc as [(q1 & Hq1 & _) _]. eauto.
Qed.

Lemma wf_remove k id status : wfKernel k → wfKernel (remove id status k).
Proof.
  intros [H1 H2]. split.
  - intros x q Hq. rewrite lookup_remove in Hq.
    destruct (decide (id = x)); [discriminate|].
    apply fmap_Some in Hq as (q0 & Hq0 & _). exact (H1 x q0 Hq0).
  - intros c. unfold remove; cbn [m_current setCurrent].
    destruct (decide (m_current k = Some id)); [discriminate|].
    intros Hc. change (is_Some (procs (remove id status k) !! c)).
    rewrite lookup_remove. destruct (decide (id = c)); [congruence|].
    destruct (H2 c Hc) as [q ->]. simpl. eauto.
Qed.

Lemma wf_create k entry map new k1 :
  wfKernel k → create entry map k = Some (new, k1) → wfKernel k1.
Proof.
  intros [H1 H2]. unfold create. destruct (decide _); [discriminate|].
  intros [= <- <-]. split.
  - intros x q. simpl. rewrite lookup_insert.
    destruct (decide (m_nextID k = x)) as [<-|]; [lia|].
    intros Hq. specialize (H1 x q Hq). simpl in H1. lia.
  - intros c Hc. simpl in *. rewrite lookup_insert.
    destruct (decide (m_nextID k = c)); eauto.
Qed.

Lemma wf_resumeCurrent k k1 rets :
  wfKernel k → resumeCurrent k = Some (k1, rets) → wfKernel k1.
Proof.
  intros Hwf. unfold resumeCurrent.
  destruct (deref k (m_current k)) as [[c p]|]; [|intros [= <- <-]; exact Hwf].
  destruct (m_resume p); [|intros [= <- <-]; exact Hwf].
  destruct (resumeHandler _ _); [|discriminate].
  intros [= <- <-]. apply wf_update. exact Hwf.
Qed.

Lemma wf_handler k procID action addr output k1 :
  wfKernel k →
  outcomeKernel (ProcessCtlHandler k procID action addr output) = Some k1 →
  wfKernel k1.
Proof.
  intros Hwf. unfold ProcessCtlHandler.
  destruct (resolveTarget k procID action) as [proc|]; [|intros [= <-]; exact Hwf].
  destruct action; simpl;
    repeat match goal with
    | |- context [match ?x with _ => _ end] => destruct x eqn:?; simpl
    end;
    try discriminate; intros [= <-];
    repeat match goal with
    | E : storeProcessInfo _ _ _ = Some _ |- _ =>
        apply storeProcessInfo_Some in E as [_ ->]
    | E : storeTimerInfo _ _ _ = Some _ |- _ =>
        apply storeTimerInfo_Some in E as [_ ->]
    end;
    repeat first [ apply wf_schedule | apply wf_update | apply wf_remove ];
    try exact Hwf.
  eapply wf_create; eassumption.
Qed.

Lemma wf_executeIntVector st vector hooks k k1 :
  wfKernel k → executeIntVector st vector hooks k = Some k1 → wfKernel k1.
Proof.
  revert k. induction hooks as [|[v p] rest IH]; intros k Hwf; simpl.
  - intros [= <-]. exact Hwf.
  - destruct (decide (v = vector)); [|apply IH; exact Hwf].
    unfold interruptNotify. destruct (deref k p) as [[id q]|]; [|discriminate].
    apply IH. apply wf_update. exact Hwf.
Qed.

Lemma wf_tick k : wfKernel k → wfKernel (tick k).
Proof.
  intros [H1 H2]. unfold tick. destruct (m_timer k) as [now|]; [|split; assumption].
  split.
  - intros x q. simpl. rewrite lookup_fmap. intros Hq.
    apply fmap_Some in Hq as (q0 & Hq0 & _). exact (H1 x q0 Hq0).
  - intros c Hc. simpl in *. rewrite lookup_fmap.
    destruct (H2 c Hc) as [q ->]. simpl. eauto.
Qed.

Lemma wf_step k e k1 rets :
  wfKernel k → kernelStep k e = Some (k1, rets) → wfKernel k1.
Proof.
  intros Hwf. destruct e as [procID action addr output | st vector |]; simpl.
  - destruct (m_current k) as [c|]; [|discriminate].
    destruct (ProcessCtlHandler k procID action addr output) as [r k2|k2|] eqn:E;
      [| |discriminate].
    + intros [= <- <-]. eapply wf_handler; [exact Hwf|]. rewrite E. reflexivity.
    + apply wf_resumeCurrent. eapply wf_handler; [exact Hwf|]. rewrite E. reflexivity.
  - destruct (executeIntVector st vector (m_hooks k) k) as [k2|] eqn:E; [|discriminate].
    intros [= <- <-]. eapply wf_executeIntVector; eassumption.
  - apply wf_resumeCurrent. apply wf_schedule. apply wf_tick. exact Hwf.
Qed.

(** ** One entry into the kernel, in two phases *)

Lemma raiseEvent_interrupted e q : raiseEvent e q = interrupted [e] q.
Proof. reflexivity. Qed.

Lemma interrupted_raiseEvent evs e q :
  interrupted evs (raiseEvent e q) = interrupted (e :: evs) q.
Proof.
  unfold interrupted, raiseEvent, wakeup, setState, setWakeups, setEvents. simpl.
  rewrite <- app_assoc, Nat.add_succ_r. reflexivity.
Qed.

(** The interrupt handlers of a vector touch only the processes they were
    hooked for. *)
Lemma executeIntVector_effect st vector hooks k k1 :
  executeIntVector st vector hooks k = Some k1 →
  m_current k1 = m_current k ∧ m_nextID k1 = m_nextID k
  ∧ (∀ x, procs k !! x = None → procs k1 !! x = None)
  ∧ (∀ x q, procs k !! x = Some q →
       procs k1 !! x = Some q
       ∨ (In (vector, Some x) hooks
          ∧ ∃ evs, procs k1 !! x = Some (interrupted evs q))).
Proof.
  revert k. induction hooks as [|[v p] rest IH]; intros k; simpl.
  - intros [= <-]. repeat split; auto.
  - destruct (decide (v = vector)) as [->|Hv].
    2:{ intros H. apply IH in H as (H1 & H2 & H3 & H4).
        repeat split; auto.
        intros x q Hq. destruct (H4 x q Hq) as [G | [Hin G]]; auto. }
    unfold interruptNotify. destruct (deref k p) as [[id q0]|] eqn:Hd; [|discriminate].
    apply deref_Some in Hd as [-> Hq0].
    intros H. apply IH in H as (H1 & H2 & H3 & H4).
    repeat split; auto.
    + intros x Hx. apply H3. apply update_None. exact Hx.
    + intros x q Hq.
      destruct (decide (id = x)) as [->|Hne].
      * right. split; [left; reflexivity|].
        destruct (H4 x (raiseEvent (mkProcessEvent InterruptEvent (IRQ_REG st)) q))
          as [G | [_ [evs G]]].
        { rewrite lookup_update_eq, Hq. reflexivity. }
        -- eexists. rewrite G, raiseEvent_interrupted. reflexivity.
        -- eexists. rewrite G, interrupted_raiseEvent. reflexivity.
      * destruct (H4 x q) as [G | [Hin G]]; auto.
        rewrite lookup_update_ne by assumption. exact Hq.
Qed.

Lemma resolveTarget_deref k procID action proc id q :
  resolveTarget k procID action = Some proc → deref k proc = Some (id, q) →
  resolveTarget k procID action = Some (Some id).
Proof. intros H Hd. apply deref_Some in Hd as [-> _]. exact H. Qed.

Lemma step_phases k e k1 rets :
  wfKernel k → kernelStep k e = Some (k1, rets) →
  ∃ kmid,
    (∀ x q, procs k !! x = Some q → effect k e x q (procs kmid !! x))
    ∧ (∀ x, procs k !! x = None → x < m_nextID k → procs kmid !! x = None)
    ∧ m_nextID k ≤ m_nextID kmid
    ∧ (m_current kmid = m_current k ∨ m_current kmid = None)
    ∧ ending k kmid k1 rets.
Proof.
  intros Hwf. destruct e as [procID action addr output | st vector |]; simpl.
  - destruct (m_current k) as [c|] eqn:Hc; [|discriminate].
    unfold ProcessCtlHandler.
    destruct (resolveTarget k procID action) as [proc|] eqn:Hr.
    2:{ intros [= <- <-]. exists k. unfold effect, ending.
        repeat split; eauto; try lia. left. repeat split; eauto. }
    destruct action.
    + (* Spawn *)
      destruct (create addr (m_map k) k) as [[new kc]|] eqn:Hcr; [|discriminate].
      destruct (deref kc (m_current kc)) as [[cur qc]|] eqn:Hd; [|discriminate].
      intros [= Hk1 Hrets]. exists k1. subst k1 rets. unfold ending.
      unfold create in Hcr. destruct (decide _); [discriminate|].
      injection Hcr as <- <-.
      split; [|split; [|split; [|split]]].
      * intros x q Hq. left.
        rewrite lookup_update_ne, <- Hq.
        -- simpl. apply lookup_insert_ne.
           pose proof (wfKernel_lookup _ _ _ Hwf Hq). lia.
        -- pose proof (wfKernel_lookup _ _ _ Hwf Hq). lia.
      * intros x Hx Hlt. apply update_None. simpl.
        rewrite lookup_insert_ne by lia. exact Hx.
      * simpl. lia.
      * left. simpl. exact Hc.
      * left. repeat split; eauto.
    + (* KillPID *)
      destruct (deref k proc) as [[id q0]|] eqn:Hd; [|discriminate].
      pose proof (resolveTarget_deref _ _ _ _ _ _ Hr Hd) as Hr'.
      intros H. exists (remove id addr k).
      split; [|split; [|split; [|split]]].
      * intros x q Hq. right. rewrite lookup_remove.
        destruct (decide (id = x)) as [->|Hne].
        -- right. right. left. auto.
        -- right. right. right. left. split; [reflexivity|].
           exists id. rewrite Hq. auto.
      * intros x Hx _. rewrite lookup_remove.
        destruct (decide (id = x)); [reflexivity|]. rewrite Hx. reflexivity.
      * simpl. lia.
      * unfold remove; cbn [m_current setCurrent].
        destruct (decide _); [right | left]; congruence.
      * right. eauto.
    + (* GetPID *)
      destruct (deref k (m_current k)) as [[cur qc]|]; [|discriminate].
      intros [= <- <-]. exists k. unfold effect, ending.
      repeat split; eauto; try lia. left. repeat split; eauto.
    + (* GetParent *)
      destruct (deref k (m_current k)) as [[cur qc]|]; [|discriminate].
      intros [= <- <-]. exists k. unfold effect, ending.
      repeat split; eauto; try lia. left. repeat split; eauto.
    + (* WatchIRQ *)
      intros [= Hk1 Hrets]. exists k1. subst k1 rets. unfold effect, ending.
      split; [|split; [|split; [|split]]];
        [ intros x q Hq; left; exact Hq | intros x Hx _; exact Hx | simpl; lia
        | left; exact Hc | left; repeat split; eauto ].
    + (* EnableIRQ *)
      intros [= Hk1 Hrets]. exists k1. subst k1 rets. unfold effect, ending.
      split; [|split; [|split; [|split]]];
        [ intros x q Hq; left; exact Hq | intros x Hx _; exact Hx | simpl; lia
        | left; exact Hc | left; repeat split; eauto ].
    + (* DisableIRQ *)
      intros [= Hk1 Hrets]. exists k1. subst k1 rets. unfold effect, ending.
      split; [|split; [|split; [|split]]];
        [ intros x q Hq; left; exact Hq | intros x Hx _; exact Hx | simpl; lia
        | left; exact Hc | left; repeat split; eauto ].
    + (* InfoPID *)
      destruct (deref k proc) as [[id q0]|]; [|discriminate].
      destruct (storeProcessInfo addr (snapshot id q0) k) as [ks|] eqn:Hst;
        [|discriminate].
      apply storeProcessInfo_Some in Hst as [_ ->].
      intros [= Hk1 Hrets]. exists k1. subst k1 rets. unfold effect, ending.
      split; [|split; [|split; [|split]]];
        [ intros x q Hq; left; exact Hq | intros x Hx _; exact Hx | simpl; lia
        | left; exact Hc | left; repeat split; eauto ].
    + (* WaitPID *)
      destruct (deref k proc) as [[id q0]|] eqn:Hd; [|discriminate].
      destruct (deref k (m_current k)) as [[cur qc]|] eqn:Hdc; [|discriminate].
      apply deref_Some in Hdc as [Hcur Hqc]. rewrite Hc in Hcur. injection Hcur as <-.
      intros H. exists (update c (setState Waiting) (update c (setWait id) k)).
      split; [|split; [|split; [|split]]]; [| | | |right; eauto].
      * intros x q Hq. rewrite !lookup_update.
        destruct (decide (c = x)) as [->|Hne]; [|left; exact Hq].
        right. right. right. right. right. left.
        rewrite Hq. simpl. eauto.
      * intros x Hx _. rewrite !update_None. exact Hx.
      * simpl. lia.
      * left. exact Hc.
    + (* InfoTimer *)
      destruct (m_timer k) as [now|].
      * destruct (storeTimerInfo addr now k) as [ks|] eqn:Hst; [|discriminate].
        apply storeTimerInfo_Some in Hst as [_ ->].
        intros [= Hk1 Hrets]. exists k1. subst k1 rets. unfold effect, ending.
        split; [|split; [|split; [|split]]];
          [ intros x q Hq; left; exact Hq | intros x Hx _; exact Hx | simpl; lia
          | left; exact Hc | left; repeat split; eauto ].
      * intros [= <- <-]. exists k. unfold effect, ending.
        repeat split; eauto; try lia. left. repeat split; eauto.
    + (* WaitTimer *)
      destruct (deref k (m_current k)) as [[cur qc]|] eqn:Hdc; [|discriminate].
      apply deref_Some in Hdc as [Hcur Hqc]. rewrite Hc in Hcur. injection Hcur as <-.
      intros H.
      exists (update c (setState Sleeping)
                (update c (setSleepTimer (readTimer k addr)) k)).
      split; [|split; [|split; [|split]]]; [| | | |right; eauto].
      * intros x q Hq. rewrite !lookup_update.
        destruct (decide (c = x)) as [->|Hne]; [|left; exact Hq].
        right. right. right. right. right. right. left.
        rewrite Hq. simpl. eauto.
      * intros x Hx _. rewrite !update_None. exact Hx.
      * simpl. lia.
      * left. exact Hc.
    + (* EnterSleep *)
      destruct (deref k (m_current k)) as [[cur qc]|] eqn:Hdc; [|discriminate].
      apply deref_Some in Hdc as [Hcur Hqc]. rewrite Hc in Hcur. injection Hcur as <-.
      assert (Heff : ∀ x q, procs k !! x = Some q →
        effect k (Trap procID EnterSleep addr output) x q
          (procs (update c (λ p, snd (sleep (readTimer k addr) p)) k) !! x)).
      { intros x q Hq. rewrite !lookup_update.
        destruct (decide (c = x)) as [->|Hne]; [|left; exact Hq].
        right. right. right. right. right. right. right.
        rewrite Hq. simpl. eauto. }
      destruct (fst (sleep (readTimer k addr) qc)).
      * intros H. exists (update c (λ p, snd (sleep (readTimer k addr) p)) k).
        split; [exact Heff|].
        split; [intros x Hx _; rewrite update_None; exact Hx|].
        split; [simpl; lia|]. split; [left; exact Hc|]. right. eauto.
      * intros [= Hk1 Hrets]. exists k1. subst k1 rets.
        split; [exact Heff|].
        split; [intros x Hx _; rewrite update_None; exact Hx|].
        split; [simpl; lia|]. split; [left; exact Hc|].
        left. repeat split; eauto.
    + (* Schedule *)
      intros H. exists k. unfold effect.
      split; [|split; [|split; [|split]]]; eauto; try lia. right. eauto.
    + (* Resume *)
      destruct (deref k proc) as [[id q0]|] eqn:Hd; [|discriminate].
      pose proof (resolveTarget_deref _ _ _ _ _ _ Hr Hd) as Hr'.
      intros [= Hk1 Hrets]. exists k1. subst k1 rets.
      split; [|split; [|split; [|split]]].
      * intros x q Hq. rewrite lookup_update.
        destruct (decide (id = x)) as [->|Hne]; [|left; exact Hq].
        right. left. rewrite Hq. auto.
      * intros x Hx _. rewrite update_None. exact Hx.
      * simpl. lia.
      * left. exact Hc.
      * left. repeat split; eauto.
    + (* SetStack *)
      destruct (deref k proc) as [[id q0]|] eqn:Hd; [|discriminate].
      pose proof (resolveTarget_deref _ _ _ _ _ _ Hr Hd) as Hr'.
      intros [= Hk1 Hrets]. exists k1. subst k1 rets.
      split; [|split; [|split; [|split]]].
      * intros x q Hq. rewrite lookup_update.
        destruct (decide (id = x)) as [->|Hne]; [|left; exact Hq].
        right. right. left. rewrite Hq. auto.
      * intros x Hx _. rewrite update_None. exact Hx.
      * simpl. lia.
      * left. exact Hc.
      * left. repeat split; eauto.
  - destruct (executeIntVector st vector (m_hooks k) k) as [k2|] eqn:E; [|discriminate].
    intros [= <- <-]. apply executeIntVector_effect in E as (H1 & H2 & H3 & H4).
    exists k2. split; [|split; [|split; [|split]]].
    + intros x q Hq. destruct (H4 x q Hq) as [G | G]; [left | right]; exact G.
    + intros x Hx _. apply H3. exact Hx.
    + lia.
    + left. exact H1.
    + left. auto.
  - intros H. exists (tick k). split; [|split; [|split; [|split]]].
    + intros x q Hq. unfold tick. destruct (m_timer k) as [now|]; [|left; exact Hq].
      right. simpl. rewrite lookup_fmap, Hq. simpl. eauto.
    + intros x Hx _. unfold tick. destruct (m_timer k); [|exact Hx].
      simpl. rewrite lookup_fmap, Hx. reflexivity.
    + unfold tick. destruct (m_timer k); simpl; lia.
    + left. unfold tick. destruct (m_timer k); reflexivity.
    + right. eauto.
Qed.

(** ** Rescheduling *)

Lemma firstReturn_nil c : firstReturn c [] = None.
Proof. reflexivity. Qed.

Lemma firstReturn_single c n r :
  firstReturn c [(n, r)] = if decide (n = c) then Some r else None.
Proof.
  unfold firstReturn. simpl. destruct (decide (n = c)).
  - rewrite bool_decide_eq_true_2 by assumption. reflexivity.
  - rewrite bool_decide_eq_false_2 by assumption. reflexivity.
Qed.

Lemma firstReturn_app c l1 l2 :
  firstReturn c (l1 ++ l2)
  = match firstReturn c l1 with
    | Some r => Some r
    | None => firstReturn c l2
    end.
Proof.
  unfold firstReturn. induction l1 as [|[n r] l1 IH]; simpl; [reflexivity|].
  destruct (bool_decide (n = c)); [reflexivity | exact IH].
Qed.

Lemma resumeCurrent_inv k k1 rets :
  resumeCurrent k = Some (k1, rets) →
  (k1 = k ∧ rets = []
   ∧ ∀ c p, m_current k = Some c → procs k !! c = Some p → m_resume p = None)
  ∨ ∃ c p pt r,
      m_current k = Some c ∧ procs k !! c = Some p ∧ m_resume p = Some pt
      ∧ resumeHandler pt k = Some r ∧ rets = [(c, r)]
      ∧ k1 = update c (setResume None) k.
Proof.
  unfold resumeCurrent.
  destruct (deref k (m_current k)) as [[c p]|] eqn:Hd.
  - apply deref_Some in Hd as [Hc Hp].
    destruct (m_resume p) as [pt|] eqn:Hpt.
    + destruct (resumeHandler pt k) as [r|] eqn:Hr; [|discriminate].
      intros [= <- <-]. right. exists c, p, pt, r. repeat split; assumption.
    + intros [= <- <-]. left. repeat split.
      intros c' p' Hc' Hp'. congruence.
  - intros [= <- <-]. left. repeat split.
    intros c p Hc Hp. unfold deref in Hd. rewrite Hc, Hp in Hd. discriminate.
Qed.

Lemma resumeCurrent_current k k1 rets :
  resumeCurrent k = Some (k1, rets) → m_current k1 = m_current k.
Proof.
  intros H. apply resumeCurrent_inv in H
    as [(-> & _ & _) | (c & p & pt & r & _ & _ & _ & _ & _ & ->)]; reflexivity.
Qed.

(** A process that is neither current nor Ready is passed over. *)
Lemma resched_other pt k k1 rets x q :
  resumeCurrent (schedule pt k) = Some (k1, rets) →
  m_current k ≠ Some x → procs k !! x = Some q → m_state q ≠ Ready →
  procs k1 !! x = Some q ∧ m_current k1 ≠ Some x ∧ firstReturn x rets = None.
Proof.
  intros H Hc Hq Hs.
  destruct (schedule_other pt k x q Hc Hq Hs) as [Hq1 Hc1].
  apply resumeCurrent_inv in H
    as [(-> & -> & _) | (c & p & pt' & r & Hcc & _ & _ & _ & -> & ->)].
  - auto.
  - assert (c ≠ x) by congruence.
    rewrite lookup_update_ne by assumption.
    rewrite firstReturn_single. destruct (decide (c = x)); [contradiction|].
    repeat split; auto.
Qed.

Lemma resched_none pt k k1 rets x :
  resumeCurrent (schedule pt k) = Some (k1, rets) →
  procs k !! x = None →
  procs k1 !! x = None ∧ firstReturn x rets = None.
Proof.
  intros H Hx. apply (schedule_None pt) in Hx.
  apply resumeCurrent_inv in H
    as [(-> & -> & _) | (c & p & pt' & r & Hcc & Hp & _ & _ & -> & ->)].
  - auto.
  - rewrite update_None. split; [exact Hx|].
    rewrite firstReturn_single. destruct (decide (c = x)); [congruence | reflexivity].
Qed.

(** Rescheduling keeps the bookkeeping of every process. *)
Lemma resched_book pt k k1 rets x q :
  resumeCurrent (schedule pt k) = Some (k1, rets) →
  procs k !! x = Some q →
  ∃ q1, procs k1 !! x = Some q1 ∧ sameBook q q1
        ∧ (m_state q1 = m_state q
           ∨ (m_state q = Ready ∧ m_state q1 = Running)
           ∨ (m_state q = Running ∧ m_state q1 = Ready)).
Proof.
  intros H Hq.
  destruct (procs (schedule pt k) !! x) as [q2|] eqn:Hq2.
  2:{ apply schedule_None in Hq2. congruence. }
  pose proof Hq2 as Hq2'.
  apply schedule_lookup in Hq2 as (q' & Hq' & Hb & _ & Hst).
  rewrite Hq in Hq'. injection Hq' as <-.
  assert (Hst' : m_state q2 = m_state q
           ∨ (m_state q = Ready ∧ m_state q2 = Running)
           ∨ (m_state q = Running ∧ m_state q2 = Ready)) by tauto.
  apply resumeCurrent_inv in H
    as [(-> & -> & _) | (c & p & pt' & r & Hcc & Hp & _ & _ & -> & ->)].
  - eauto.
  - rewrite lookup_update. destruct (decide (c = x)) as [->|]; [|eauto].
    rewrite Hq2'. simpl. eexists. split; [reflexivity|]. split; [exact Hb | exact Hst'].
Qed.

(** A process that holds an exit status inside WaitPID either stays so, or is
    made current and returns that status. *)
Lemma resched_pending pt k k1 rets c q s :
  resumeCurrent (schedule pt k) = Some (k1, rets) →
  m_current k ≠ Some c → procs k !! c = Some q →
  m_waitId q = WaitResult s → m_resume q = Some AfterWaitPID →
  (pending c s k1 ∧ firstReturn c rets = None) ∨ rets = [(c, Payload s)].
Proof.
  intros H Hc Hq Hw Hr.
  destruct (procs (schedule pt k) !! c) as [q2|] eqn:Hq2.
  2:{ apply schedule_None in Hq2. congruence. }
  pose proof Hq2 as Hq2'.
  apply schedule_lookup in Hq2 as (q' & Hq' & Hb & Hres & _).
  rewrite Hq in Hq'. injection Hq' as <-.
  destruct Hres as [Hres | [? _]]; [|contradiction].
  destruct Hb as (_ & Hw2 & _).
  pose proof H as Hcur. apply resumeCurrent_current in Hcur.
  apply resumeCurrent_inv in H
    as [(-> & -> & Hnone) | (n & p & pt' & r & Hcn & Hp & Hpt & Hrh & -> & ->)].
  - left. split; [|reflexivity]. split.
    + intros Hcc. specialize (Hnone c q2 Hcc Hq2'). congruence.
    + exists q2. split; [exact Hq2'|]. split; congruence.
  - destruct (decide (n = c)) as [->|Hne].
    + right. rewrite Hq2' in Hp. injection Hp as <-.
      rewrite Hres, Hr in Hpt. injection Hpt as <-.
      unfold resumeHandler, deref in Hrh. rewrite Hcn, Hq2' in Hrh.
      injection Hrh as <-. unfold getWait. rewrite Hw2, Hw. reflexivity.
    + left. split.
      * split; [simpl; congruence|]. exists q2.
        rewrite lookup_update_ne by assumption. split; [exact Hq2'|]. split; congruence.
      * rewrite firstReturn_single. destruct (decide (n = c)); [contradiction | reflexivity].
Qed.

(** ** Interrupts *)

Lemma interruptNotify_raises st p k k1 :
  interruptNotify st p k = Some k1 →
  ∃ id q, p = Some id ∧ procs k !! id = Some q
          ∧ k1 = update id (raiseEvent (mkProcessEvent InterruptEvent 0)) k.
Proof.
  unfold interruptNotify. destruct (deref k p) as [[id q]|] eqn:Hd; [|discriminate].
  apply deref_Some in Hd as [-> Hq]. intros [= <-]. exists id, q. auto.
Qed.

(** C4: a process watches the line [vector], the line fires: the event put
    in its queue is an InterruptEvent, and its number is 0, whatever the
    line. *)
Theorem watched_interrupt_number_is_zero k procID vector output c id q st :
  m_current k = Some c →
  resolveTarget k procID WatchIRQ = Some (Some id) → get k id = Some q →
  m_hooks k = [] →
  ∃ k1 k2 q2,
    kernelStep k (Trap procID WatchIRQ vector output) = Some (k1, [(c, Success)])
    ∧ kernelStep k1 (Interrupt st vector) = Some (k2, [])
    ∧ get k2 id = Some q2
    ∧ m_events q2 = m_events q ++ [mkProcessEvent InterruptEvent 0].
Proof.
  intros Hc Hr Hq Hh. unfold get in *.
  exists (hookIntVector (IRQ vector) (Some id) k).
  exists (update id (raiseEvent (mkProcessEvent InterruptEvent 0))
            (hookIntVector (IRQ vector) (Some id) k)).
  exists (raiseEvent (mkProcessEvent InterruptEvent 0) q).
  split; [|split; [|split]].
  - simpl. rewrite Hc. unfold ProcessCtlHandler. rewrite Hr. reflexivity.
  - simpl. rewrite Hh. simpl. unfold IRQ.
    destruct (decide (vector = vector)); [|contradiction].
    unfold interruptNotify, deref. simpl. rewrite Hq. reflexivity.
  - rewrite lookup_update_eq. simpl. rewrite Hq. reflexivity.
  - reflexivity.
Qed.

Lemma watched_interrupt_number_is_zero_witness :
  ∃ k1 k2 q2,
    kernelStep kEx (Trap 1 WatchIRQ 5 0) = Some (k1, [(0, Success)])
    ∧ kernelStep k1 (Interrupt stEx 5) = Some (k2, [])
    ∧ get k2 1 = Some q2
    ∧ m_events q2 = m_events (procEx Ready) ++ [mkProcessEvent InterruptEvent 0].
Proof.
  apply (watched_interrupt_number_is_zero kEx 1 5 0 0 1 (procEx Ready) stEx);
    reflexivity.
Defined.

(** ** Removed processes stay removed *)

Lemma ending_nextID k kmid k1 rets :
  ending k kmid k1 rets → m_nextID k1 = m_nextID kmid.
Proof.
  intros [(-> & _) | (pt & H)]; [reflexivity|].
  pose proof (schedule_frame pt kmid) as (_ & Hn & _).
  apply resumeCurrent_inv in H
    as [(-> & _ & _) | (c & p & pt' & r & _ & _ & _ & _ & _ & ->)]; exact Hn.
Qed.

Lemma gone_step x k e k1 rets :
  wfKernel k → gone x k → kernelStep k e = Some (k1, rets) →
  gone x k1 ∧ firstReturn x rets = None.
Proof.
  intros Hwf [Hx Hlt] H.
  destruct (step_phases _ _ _ _ Hwf H) as (kmid & _ & Hnone & Hn & _ & Hend).
  pose proof (ending_nextID _ _ _ _ Hend) as Hn1.
  specialize (Hnone x Hx Hlt).
  destruct Hend as [(-> & _ & Hrets) | (pt & Hres)].
  - split; [split; [exact Hnone | lia]|].
    destruct Hrets as [-> | (cur & r & Hcur & ->)]; [reflexivity|].
    rewrite firstReturn_single. destruct (decide (cur = x)) as [->|]; [|reflexivity].
    destruct Hwf as [_ Hwf]. destruct (Hwf x Hcur) as [q Hq]. congruence.
  - destruct (resched_none _ _ _ _ x Hres Hnone) as [H1 H2].
    split; [split; [exact H1 | lia] | exact H2].
Qed.

Lemma gone_run x es : ∀ k k1 rets,
  wfKernel k → gone x k → run k es = Some (k1, rets) →
  gone x k1 ∧ firstReturn x rets = None.
Proof.
  induction es as [|e es IH]; intros k k1 rets Hwf Hg; simpl.
  - intros [= <- <-]. auto.
  - destruct (kernelStep k e) as [[k2 rets2]|] eqn:E; [|discriminate].
    destruct (run k2 es) as [[k3 rets3]|] eqn:E3; [|discriminate].
    intros [= <- <-].
    destruct (gone_step _ _ _ _ _ Hwf Hg E) as [Hg2 Hr2].
    destruct (IH _ _ _ (wf_step _ _ _ _ Hwf E) Hg2 E3) as [Hg3 Hr3].
    split; [exact Hg3|]. rewrite firstReturn_app, Hr2. exact Hr3.
Qed.

(** ** Pending wakeups are kept *)

Lemma ending_book k kmid k1 rets x q :
  ending k kmid k1 rets → procs kmid !! x = Some q →
  ∃ q1, procs k1 !! x = Some q1 ∧ sameBook q q1
        ∧ (m_state q1 = m_state q
           ∨ (m_state q = Ready ∧ m_state q1 = Running)
           ∨ (m_state q = Running ∧ m_state q1 = Ready)).
Proof.
  intros [(-> & _) | (pt & H)] Hq.
  - exists q. unfold sameBook. tauto.
  - eapply resched_book; eassumption.
Qed.

Lemma ending_none k kmid k1 rets x :
  ending k kmid k1 rets → procs kmid !! x = None → procs k1 !! x = None.
Proof.
  intros [(-> & _) | (pt & H)] Hq; [exact Hq|].
  eapply resched_none; eassumption.
Qed.

Lemma release_wakeups t s q : m_wakeups (release t s q) = m_wakeups q.
Proof. unfold release. destruct (bool_decide _); reflexivity. Qed.

Lemma expire_wakeups now q : m_wakeups (expire now q) = m_wakeups q.
Proof.
  unfold expire. destruct (m_sleepTimer q); [|reflexivity].
  destruct (_ && _); reflexivity.
Qed.

Lemma wakeups_step x q k e k1 rets :
  wfKernel k → procs k !! x = Some q → kernelStep k e = Some (k1, rets) →
  ¬ sleepsBy x k e →
  gone x k1 ∨ ∃ q1, procs k1 !! x = Some q1 ∧ (m_wakeups q ≤ m_wakeups q1)%nat.
Proof.
  intros Hwf Hq H Hbad.
  destruct (step_phases _ _ _ _ Hwf H) as (kmid & Heff & _ & Hn & _ & Hend).
  pose proof (ending_nextID _ _ _ _ Hend) as Hn1.
  pose proof (wfKernel_lookup _ _ _ Hwf Hq) as Hlt.
  specialize (Heff x q Hq).
  assert (Hcases : procs kmid !! x = None
                   ∨ ∃ q', procs kmid !! x = Some q'
                           ∧ (m_wakeups q ≤ m_wakeups q')%nat).
  { destruct Heff as [-> | Heff]; [right; eauto|].
    destruct e as [procID action addr output | st vector |].
    - destruct Heff as [(_ & _ & ->) | [(_ & _ & ->) | [(_ & _ & ->) |
        [(_ & t & _ & _ & ->) | [(_ & _ & id & ->) | [(_ & _ & ->) | (-> & Hc & _)]]]]]].
      + right. eexists. split; [reflexivity|]. simpl. lia.
      + right. eexists. split; [reflexivity|]. simpl. lia.
      + left. reflexivity.
      + right. eexists. split; [reflexivity|]. rewrite release_wakeups. lia.
      + right. eexists. split; [reflexivity|]. simpl. lia.
      + right. eexists. split; [reflexivity|]. simpl. lia.
      + exfalso. apply Hbad. exact Hc.
    - destruct Heff as [_ [evs ->]]. right. eexists. split; [reflexivity|]. simpl. lia.
    - destruct Heff as [now ->]. right. eexists. split; [reflexivity|].
      rewrite expire_wakeups. lia. }
  destruct Hcases as [Hnone | (q' & Hq' & Hle)].
  - left. split; [eapply ending_none; eassumption | lia].
  - right. destruct (ending_book _ _ _ _ _ _ Hend Hq') as (q1 & Hq1 & Hb & _).
    exists q1. split; [exact Hq1|]. destruct Hb as (_ & _ & -> & _). exact Hle.
Qed.

Lemma wakeups_run x es : ∀ k q k1 rets q1,
  wfKernel k → procs k !! x = Some q → avoids (sleepsBy x) k es →
  run k es = Some (k1, rets) → procs k1 !! x = Some q1 →
  (m_wakeups q ≤ m_wakeups q1)%nat.
Proof.
  induction es as [|e es IH]; intros k q k1 rets q1 Hwf Hq Hav; simpl.
  - intros [= <- <-] Hq1. rewrite Hq in Hq1. injection Hq1 as <-. lia.
  - destruct Hav as [Hbad Hav].
    destruct (kernelStep k e) as [[k2 rets2]|] eqn:E; [|discriminate].
    destruct (run k2 es) as [[k3 rets3]|] eqn:E3; [|discriminate].
    intros [= <- <-] Hq1.
    pose proof (wf_step _ _ _ _ Hwf E) as Hwf2.
    destruct (wakeups_step _ _ _ _ _ _ Hwf Hq E Hbad) as [Hg | (q2 & Hq2 & Hle)].
    + destruct (gone_run _ _ _ _ _ Hwf2 Hg E3) as [[Hnone _] _]. congruence.
    + specialize (IH _ _ _ _ _ Hwf2 Hq2 Hav E3 Hq1). lia.
Qed.

(** ** The current process is Running or Ready *)

Lemma currentRuns_update k id f :
  (∀ q, procs k !! id = Some q → m_state q = Running ∨ m_state q = Ready →
        m_state (f q) = Running ∨ m_state (f q) = Ready) →
  currentRuns k → currentRuns (update id f k).
Proof.
  intros Hf Hk c q Hc. rewrite lookup_update.
  destruct (decide (id = c)) as [->|]; [|apply Hk; exact Hc].
  intros Hq. apply fmap_Some in Hq as (q0 & Hq0 & ->).
  apply Hf; [exact Hq0|]. eapply Hk; eassumption.
Qed.

Lemma currentRuns_resched pt k k1 rets :
  resumeCurrent (schedule pt k) = Some (k1, rets) → currentRuns k1.
Proof.
  intros H c q Hc Hq.
  pose proof (resumeCurrent_current _ _ _ H) as Hcur.
  rewrite Hcur in Hc. apply schedule_current in Hc as [(q1 & Hq1 & Hs) _].
  apply resumeCurrent_inv in H
    as [(-> & _ & _) | (n & p & pt' & r & _ & _ & _ & _ & _ & ->)].
  - congruence.
  - rewrite lookup_update in Hq. destruct (decide (n = c)).
    + rewrite Hq1 in Hq. injection Hq as <-. exact Hs.
    + congruence.
Qed.

Lemma currentRuns_step k e k1 rets :
  currentRuns k → kernelStep k e = Some (k1, rets) → currentRuns k1.
Proof.
  intros Hk. destruct e as [procID action addr output | st vector |]; simpl.
  - destruct (m_current k) as [c|] eqn:Hc; [|discriminate].
    unfold ProcessCtlHandler.
    destruct (resolveTarget k procID action) as [proc|]; [|intros [= <- <-]; exact Hk].
    destruct action; repeat break_inner;
      try discriminate;
      repeat match goal with
      | E : storeProcessInfo _ _ _ = Some _ |- _ =>
          apply storeProcessInfo_Some in E as [_ ->]
      | E : storeTimerInfo _ _ _ = Some _ |- _ =>
          apply storeTimerInfo_Some in E as [_ ->]
      end;
      try (intros [= <- <-]; first [ exact Hk | apply currentRuns_update; [|exact Hk] ]);
      try (apply currentRuns_resched).
    + (* Spawn *)
      unfold create in *. destruct (decide _); [discriminate|]. simplify_eq.
      intros [= <- <-]. apply currentRuns_update; [auto|].
      intros c' q' Hc' Hq'. simpl in *. rewrite lookup_insert in Hq'.
      destruct (decide (m_nextID k = c')).
      * injection Hq' as <-. right. reflexivity.
      * eapply Hk; eassumption.
    + (* EnterSleep *)
      intros q Hq Hs.
      match goal with H : deref k (m_current k) = Some _ |- _ =>
        apply deref_Some in H as [Hcur Hp] end.
      rewrite Hq in Hp. injection Hp as <-.
      unfold sleep in *. destruct (m_wakeups q); simpl in *; [discriminate | exact Hs].
    + (* Resume *) intros q _ _. right. reflexivity.
    + (* SetStack *) intros q _ Hs. exact Hs.
  - destruct (executeIntVector st vector (m_hooks k) k) as [k2|] eqn:E; [|discriminate].
    intros [= <- <-]. apply executeIntVector_effect in E as (H1 & _ & H3 & H4).
    intros c q Hc Hq. rewrite H1 in Hc.
    destruct (procs k !! c) as [q0|] eqn:Hq0.
    + destruct (H4 c q0 Hq0) as [G | [_ [evs G]]]; rewrite G in Hq; injection Hq as <-.
      * eapply Hk; eassumption.
      * right. reflexivity.
    + rewrite (H3 c Hq0) in Hq. discriminate.
  - apply currentRuns_resched.
Qed.

Lemma invariants_run es : ∀ k k1 rets,
  wfKernel k → currentRuns k → run k es = Some (k1, rets) →
  wfKernel k1 ∧ currentRuns k1.
Proof.
  induction es as [|e es IH]; intros k k1 rets Hwf Hcr; simpl.
  - intros [= <- <-]. auto.
  - destruct (kernelStep k e) as [[k2 rets2]|] eqn:E; [|discriminate].
    destruct (run k2 es) as [[k3 rets3]|] eqn:E3; [|discriminate].
    intros [= <- <-].
    eapply IH; [eapply wf_step | eapply currentRuns_step | ]; eassumption.
Qed.

(** ** The sample system is well-formed *)

Lemma wfKernel_kEx : wfKernel kEx.
Proof.
  split.
  - unfold kEx; simpl.
    repeat (apply map_Forall_insert_2; [lia|]). apply map_Forall_empty.
  - intros c [= <-]. eexists. reflexivity.
Qed.

Lemma currentRuns_kEx : currentRuns kEx.
Proof. intros c q [= <-] [= <-]. left. reflexivity. Qed.

(** ** EnterSleep after Resume *)

Lemma entersleep_with_pending_wakeup k procID addr output c q :
  m_current k = Some c → procs k !! c = Some q →
  resolveTarget k procID EnterSleep ≠ None → (0 < m_wakeups q)%nat →
  ProcessCtlHandler k procID EnterSleep addr output
  = Returned Success (update c (λ p, snd (sleep (readTimer k addr) p)) k)
  ∧ procs (update c (λ p, snd (sleep (readTimer k addr) p)) k) !! c
    = Some (setWakeups O q).
Proof.
  intros Hc Hq Hr Hw. unfold ProcessCtlHandler.
  destruct (resolveTarget k procID EnterSleep) as [proc|]; [|contradiction].
  unfold deref. rewrite Hc, Hq.
  split.
  - unfold sleep. destruct (m_wakeups q) as [|n] eqn:E; [lia|]. reflexivity.
  - rewrite lookup_update_eq, Hq. simpl.
    unfold sleep. destruct (m_wakeups q) as [|n] eqn:E; [lia|]. reflexivity.
Qed.

(** C5: a Resume of [p] is delivered; whatever enters the kernel afterwards,
    as long as [p] does not call EnterSleep, the wakeup stays pending; when
    [p] then calls EnterSleep, the call returns Success at once, without
    rescheduling: [p] is still current, its state is as before the call, and
    that is Running or Ready. *)
Theorem resume_before_entersleep_skips_sleep
    k0 rProcID a o p k1 rets1 es k2 rets2 procID addr output :
  wfKernel k0 → currentRuns k0 →
  resolveTarget k0 rProcID Resume = Some (Some p) →
  kernelStep k0 (Trap rProcID Resume a o) = Some (k1, rets1) →
  avoids (sleepsBy p) k1 es → run k1 es = Some (k2, rets2) →
  m_current k2 = Some p → resolveTarget k2 procID EnterSleep ≠ None →
  (∃ q1, get k1 p = Some q1 ∧ m_state q1 = Ready ∧ (0 < m_wakeups q1)%nat)
  ∧ ∃ q2 k3 q3,
      get k2 p = Some q2 ∧ (0 < m_wakeups q2)%nat
      ∧ ProcessCtlHandler k2 procID EnterSleep addr output = Returned Success k3
      ∧ kernelStep k2 (Trap procID EnterSleep addr output) = Some (k3, [(p, Success)])
      ∧ m_current k3 = Some p
      ∧ get k3 p = Some q3
      ∧ m_state q3 = m_state q2
      ∧ (m_state q3 = Running ∨ m_state q3 = Ready).
Proof.
  intros Hwf Hcr Hr Hstep Hav Hrun Hcur Hres. unfold get.
  pose proof (wf_step _ _ _ _ Hwf Hstep) as Hwf1.
  pose proof (currentRuns_step _ _ _ _ Hcr Hstep) as Hcr1.
  destruct (invariants_run _ _ _ _ Hwf1 Hcr1 Hrun) as [Hwf2 Hcr2].
  (* the Resume *)
  assert (H1 : ∃ q1, procs k1 !! p = Some q1 ∧ m_state q1 = Ready
                     ∧ (0 < m_wakeups q1)%nat).
  { simpl in Hstep. destruct (m_current k0) as [c0|]; [|discriminate].
    unfold ProcessCtlHandler in Hstep. rewrite Hr in Hstep.
    destruct (deref k0 (Some p)) as [[id q0]|] eqn:Hd; [|discriminate].
    apply deref_Some in Hd as [[= <-] Hq0]. injection Hstep as <- <-.
    exists (wakeup q0). rewrite lookup_update_eq, Hq0. simpl.
    repeat split; lia. }
  split; [exact H1|].
  destruct H1 as (q1 & Hq1 & _ & Hw1).
  destruct Hwf2 as [Hwf2a Hwf2b]. destruct (Hwf2b p Hcur) as [q2 Hq2].
  pose proof (wakeups_run p es _ _ _ _ _ Hwf1 Hq1 Hav Hrun Hq2) as Hle.
  assert (Hw2 : (0 < m_wakeups q2)%nat) by lia.
  destruct (entersleep_with_pending_wakeup k2 procID addr output p q2
              Hcur Hq2 Hres Hw2) as [Hh Hq3].
  eexists q2, _, (setWakeups O q2).
  split; [exact Hq2|]. split; [exact Hw2|]. split; [exact Hh|].
  split; [simpl; rewrite Hcur, Hh; reflexivity|].
  split; [exact Hcur|]. split; [exact Hq3|]. split; [reflexivity|].
  simpl. eapply Hcr2; eassumption.
Qed.

Lemma resume_before_entersleep_skips_sleep_witness :
  ∃ k1 k2,
    kernelStep kEx (Trap 1 Resume 0 0) = Some (k1, [(0, Success)])
    ∧ run k1 [Trap SELF Schedule 0 0] = Some (k2, [])
    ∧ (∃ q1, get k1 1 = Some q1 ∧ m_state q1 = Ready ∧ (0 < m_wakeups q1)%nat)
    ∧ ∃ q2 k3 q3,
        get k2 1 = Some q2 ∧ (0 < m_wakeups q2)%nat
        ∧ ProcessCtlHandler k2 SELF EnterSleep 0 0 = Returned Success k3
        ∧ kernelStep k2 (Trap SELF EnterSleep 0 0) = Some (k3, [(1, Success)])
        ∧ m_current k3 = Some 1
        ∧ get k3 1 = Some q3
        ∧ m_state q3 = m_state q2
        ∧ (m_state q3 = Running ∨ m_state q3 = Ready).
Proof.
  eexists _, _.
  split; [vm_compute; reflexivity|].
  split; [vm_compute; reflexivity|].
  eapply (resume_before_entersleep_skips_sleep kEx 1 0 0 1 _ _
            [Trap SELF Schedule 0 0] _ _ SELF 0 0).
  - exact wfKernel_kEx.
  - exact currentRuns_kEx.
  - reflexivity.
  - vm_compute; reflexivity.
  - simpl. split; [intros H; exact H | exact I].
  - vm_compute; reflexivity.
  - reflexivity.
  - discriminate.
Defined.

(** ** A wait target exactly when Waiting *)

Lemma allConsistent_update k id f :
  (∀ q, procs k !! id = Some q → waitConsistent q → waitConsistent (f q)) →
  allConsistent k → allConsistent (update id f k).
Proof.
  intros Hf Hk x q. rewrite lookup_update.
  destruct (decide (id = x)) as [->|]; [|apply Hk].
  intros Hq. apply fmap_Some in Hq as (q0 & Hq0 & ->).
  apply Hf; [exact Hq0|]. exact (Hk x q0 Hq0).
Qed.

Lemma update_update k id f g :
  update id f (update id g k) = update id (f ∘ g) k.
Proof. unfold update, setProcs. simpl. rewrite alter_alter_eq. reflexivity. Qed.

Lemma allConsistent_schedule pt k : allConsistent k → allConsistent (schedule pt k).
Proof.
  intros Hk x q1 Hq1.
  apply schedule_lookup in Hq1 as (q & Hq & Hb & _ & Hst).
  specialize (Hk x q Hq). simpl in Hk.
  destruct Hb as (_ & Hw & _).
  unfold waitConsistent, hasWaitTarget in *. rewrite Hw.
  destruct Hst as [-> | [[H1 H2] | (H1 & H2 & _)]]; [exact Hk | |];
    rewrite H1 in Hk; rewrite H2; split; intros H; try discriminate;
    apply Hk in H; discriminate.
Qed.

Lemma currentNotWaiting_schedule pt k : currentNotWaiting (schedule pt k).
Proof.
  intros c q Hc Hq. apply schedule_current in Hc as [(q1 & Hq1 & Hs) _].
  rewrite Hq in Hq1. injection Hq1 as <-. destruct Hs as [-> | ->]; discriminate.
Qed.

Lemma release_consistent t s q : waitConsistent q → waitConsistent (release t s q).
Proof.
  intros H. unfold release. destruct (bool_decide _); [|exact H].
  unfold waitConsistent, hasWaitTarget. simpl. split; discriminate.
Qed.

Lemma allConsistent_remove k id s : allConsistent k → allConsistent (remove id s k).
Proof.
  intros Hk x q. rewrite lookup_remove. destruct (decide (id = x)); [discriminate|].
  intros Hq. apply fmap_Some in Hq as (q0 & Hq0 & ->).
  apply release_consistent. exact (Hk x q0 Hq0).
Qed.

Lemma not_waiting_no_target q :
  waitConsistent q → m_state q ≠ Waiting → hasWaitTarget q = false.
Proof.
  unfold waitConsistent. intros H Hs.
  destruct (hasWaitTarget q); [|reflexivity]. exfalso. apply Hs. apply H. reflexivity.
Qed.

(** X18: every operation of the dispatcher but one keeps the invariant that
    a wait target is recorded exactly in the Waiting state and that the
    current process is not Waiting; the one that does not is a Resume aimed
    at a process that is Waiting. *)
Theorem wait_invariant_preserved k procID action addr output k1 :
  waitInvariant k →
  ¬ (action = Resume
     ∧ ∃ id q, resolveTarget k procID Resume = Some (Some id)
               ∧ get k id = Some q ∧ m_state q = Waiting) →
  outcomeKernel (ProcessCtlHandler k procID action addr output) = Some k1 →
  waitInvariant k1.
Proof.
  intros [Hall Hcur] Hno. unfold ProcessCtlHandler.
  destruct (resolveTarget k procID action) as [proc|] eqn:Hr;
    [|intros [= <-]; split; assumption].
  destruct action; repeat break_inner; simpl; try discriminate; intros [= <-];
    repeat match goal with
    | E : storeProcessInfo _ _ _ = Some _ |- _ =>
        apply storeProcessInfo_Some in E as [_ ->]
    | E : storeTimerInfo _ _ _ = Some _ |- _ =>
        apply storeTimerInfo_Some in E as [_ ->]
    end;
    try (split; assumption);
    repeat match goal with
    | H : deref _ _ = Some _ |- _ => apply deref_Some in H as [? ?]
    end.
  - (* Spawn *)
    unfold create in *. destruct (decide _); [discriminate|]. simplify_eq.
    split.
    + apply allConsistent_update.
      { intros q _ Hq. exact Hq. }
      intros x q. simpl. rewrite lookup_insert.
      destruct (decide (m_nextID k = x)).
      * intros [= <-]. unfold waitConsistent, hasWaitTarget. simpl.
        split; discriminate.
      * apply Hall.
    + intros c q Hc. rewrite lookup_update. simpl in *.
      rewrite lookup_insert.
      destruct (decide (m_nextID k = c)).
      * simpl. intros [= <-]. simpl. discriminate.
      * intros Hq. eapply Hcur; eassumption.
  - (* KillPID *)
    split; [|apply currentNotWaiting_schedule].
    apply allConsistent_schedule, allConsistent_remove, Hall.
  - (* WaitPID *)
    split; [|apply currentNotWaiting_schedule].
    rewrite update_update.
    apply allConsistent_schedule, allConsistent_update; [|exact Hall].
    intros q _ _. unfold waitConsistent, hasWaitTarget. simpl. tauto.
  - (* WaitTimer *)
    split; [|apply currentNotWaiting_schedule].
    rewrite update_update.
    apply allConsistent_schedule, allConsistent_update; [|exact Hall].
    intros q Hq Hcons.
    assert (Hs : m_state q ≠ Waiting) by (eapply Hcur; eassumption).
    pose proof (not_waiting_no_target q Hcons Hs) as Hw.
    unfold waitConsistent, hasWaitTarget in *. simpl. rewrite Hw.
    split; discriminate.
  - (* EnterSleep, asleep *)
    split; [|apply currentNotWaiting_schedule].
    apply allConsistent_schedule, allConsistent_update; [|exact Hall].
    intros q Hq Hcons.
    assert (Hs : m_state q ≠ Waiting) by (eapply Hcur; eassumption).
    pose proof (not_waiting_no_target q Hcons Hs) as Hw.
    unfold sleep. destruct (m_wakeups q); [|exact Hcons].
    destruct (readTimer k addr); unfold waitConsistent, hasWaitTarget in *;
      simpl; rewrite Hw; split; discriminate.
  - (* EnterSleep, skipped *)
    match goal with H : procs k !! ?c = Some ?p, E : fst (sleep _ ?p) = false |- _ =>
      rename H into Hp; rename E into Hskip end.
    split.
    + apply allConsistent_update; [|exact Hall].
      intros q Hq Hcons. rewrite Hp in Hq. injection Hq as <-.
      unfold sleep in *. destruct (m_wakeups _); [discriminate | exact Hcons].
    + intros c q Hc. rewrite lookup_update. destruct (decide _) as [->|].
      * intros Hq. apply fmap_Some in Hq as (q0 & Hq0 & ->).
        rewrite Hp in Hq0. injection Hq0 as <-.
        unfold sleep in *. destruct (m_wakeups _); [discriminate|]. simpl.
        eapply Hcur; eassumption.
      * apply Hcur. exact Hc.
  - (* Schedule *)
    split; [apply allConsistent_schedule, Hall | apply currentNotWaiting_schedule].
  - (* Resume *)
    match goal with H : procs k !! ?c = Some ?p |- _ => rename H into Hp end.
    assert (Hs : ∀ q, procs k !! z = Some q → m_state q ≠ Waiting).
    { intros q Hq Hw. apply Hno. split; [reflexivity|]. exists z, q.
      subst proc. auto. }
    split.
    + apply allConsistent_update; [|exact Hall].
      intros q Hq Hcons. pose proof (not_waiting_no_target q Hcons (Hs q Hq)) as Hw.
      unfold waitConsistent, hasWaitTarget in *. simpl. rewrite Hw.
      split; discriminate.
    + intros c q Hc. rewrite lookup_update. destruct (decide _) as [->|].
      * intros Hq. apply fmap_Some in Hq as (q0 & Hq0 & ->). simpl. discriminate.
      * apply Hcur. exact Hc.
  - (* SetStack *)
    split.
    + apply allConsistent_update; [|exact Hall]. intros q _ Hcons. exact Hcons.
    + intros c q Hc. rewrite lookup_update. destruct (decide _) as [->|].
      * intros Hq. apply fmap_Some in Hq as (q0 & Hq0 & ->). simpl.
        eapply Hcur; eassumption.
      * apply Hcur. exact Hc.
Qed.

Lemma waitInvariant_kWait : waitInvariant kWait.
Proof.
  split.
  - unfold allConsistent, kWait; simpl.
    repeat (apply map_Forall_insert_2;
            [unfold waitConsistent, hasWaitTarget; simpl; split;
             first [discriminate | reflexivity]|]).
    apply map_Forall_empty.
  - intros c q [= <-] [= <-]. discriminate.
Qed.

Lemma wait_invariant_preserved_witness : waitInvariant (update 2 wakeup kWait).
Proof.
  apply (wait_invariant_preserved kWait 2 Resume 0 0 (update 2 wakeup kWait)).
  - exact waitInvariant_kWait.
  - intros (_ & id & q & Hr & Hq & Hs).
    vm_compute in Hr. injection Hr as <-.
    vm_compute in Hq. injection Hq as <-. discriminate Hs.
  - reflexivity.
Defined.

(** C8: the Resume arm does not keep the invariant.  It calls [wakeup] on
    its target without looking at the state of the target: a target that is
    Waiting, with its wait target recorded as the invariant has it, is made
    Ready and keeps the wait target.  The call returns Success, and in the
    state it leaves a process that is not Waiting has a wait target
    recorded. *)
Theorem resume_of_waiting_breaks_wait_invariant k procID addr output id q :
  waitInvariant k →
  resolveTarget k procID Resume = Some (Some id) → get k id = Some q →
  m_state q = Waiting →
  ∃ k1 q1 t,
    ProcessCtlHandler k procID Resume addr output = Returned Success k1
    ∧ m_waitId q = WaitTarget t
    ∧ get k1 id = Some q1
    ∧ m_state q1 = Ready
    ∧ m_waitId q1 = WaitTarget t
    ∧ ¬ waitConsistent q1
    ∧ ¬ waitInvariant k1.
Proof.
  intros [Hall _] Hr Hq Hs. unfold get in *.
  assert (Ht : ∃ t, m_waitId q = WaitTarget t).
  { pose proof (Hall id q Hq) as Hcons. simpl in Hcons.
    destruct Hcons as [_ Hcons]. specialize (Hcons Hs).
    unfold hasWaitTarget in Hcons. destruct (m_waitId q); try discriminate. eauto. }
  destruct Ht as [t Ht].
  exists (update id wakeup k), (wakeup q), t.
  assert (Hq1 : procs (update id wakeup k) !! id = Some (wakeup q)).
  { rewrite lookup_update_eq, Hq. reflexivity. }
  assert (Hbad : ¬ waitConsistent (wakeup q)).
  { unfold waitConsistent, hasWaitTarget. simpl. rewrite Ht.
    intros [H _]. specialize (H eq_refl). discriminate H. }
  split.
  { unfold ProcessCtlHandler. rewrite Hr. unfold deref. rewrite Hq. reflexivity. }
  split; [exact Ht|]. split; [exact Hq1|]. split; [reflexivity|].
  split; [exact Ht|]. split; [exact Hbad|].
  intros [Hall1 _]. apply Hbad. exact (Hall1 id _ Hq1).
Qed.

Lemma resume_of_waiting_breaks_wait_invariant_witness :
  run kEx [Trap 2 WaitPID 0 0] = Some (kWait, [])
  ∧ waitInvariant kWait
  ∧ ∃ k1 q1 t,
      ProcessCtlHandler kWait 0 Resume 0 0 = Returned Success k1
      ∧ WaitTarget 2 = WaitTarget t
      ∧ get k1 0 = Some q1
      ∧ m_state q1 = Ready
      ∧ m_waitId q1 = WaitTarget t
      ∧ ¬ waitConsistent q1
      ∧ ¬ waitInvariant k1.
Proof.
  split; [vm_compute; reflexivity|].
  split; [exact waitInvariant_kWait|].
  apply (resume_of_waiting_breaks_wait_invariant kWait 0 0 0 0
           (mkProcess 0 Waiting (WaitTarget 2) O None 100 200 300 [] 0
              (Some AfterWaitPID)));
    [exact waitInvariant_kWait | reflexivity | reflexivity | reflexivity].
Defined.

(** ** WaitPID *)

Lemma resolveTarget_exists k procID action t :
  wfKernel k → resolveTarget k procID action = Some (Some t) →
  is_Some (procs k !! t).
Proof.
  intros [_ Hwf]. unfold resolveTarget.
  destruct (_ && _); [|discriminate].
  destruct (decide (procID = SELF)).
  - intros [= H]. apply Hwf. exact H.
  - unfold get. destruct (procs k !! procID) as [q|] eqn:E; [|discriminate].
    intros [= <-]. eauto.
Qed.

Lemma resumeCurrent_total k : ∃ k1 rets, resumeCurrent k = Some (k1, rets).
Proof.
  unfold resumeCurrent.
  destruct (deref k (m_current k)) as [[c p]|] eqn:Hd; [|eauto].
  destruct (m_resume p) as [pt|]; [|eauto].
  unfold resumeHandler. rewrite Hd. destruct pt; eauto.
Qed.

(** The current process, when it is neither Ready nor Running, is switched
    away from; only its saved context is written. *)
Lemma schedule_blocked pt k c q :
  m_current k = Some c → procs k !! c = Some q →
  m_state q ≠ Ready → m_state q ≠ Running →
  procs (schedule pt k) !! c = Some (setResume pt q)
  ∧ m_current (schedule pt k) ≠ Some c.
Proof.
  intros Hc Hq Hs1 Hs2. unfold schedule.
  assert (Hsv : procs (saveContext pt k) !! c = Some (setResume pt q)).
  { unfold saveContext. rewrite Hc, lookup_update_eq, Hq. reflexivity. }
  pose proof (saveContext_frame pt k) as (_ & _ & _ & _ & _ & _ & _ & Hcur).
  destruct (select (saveContext pt k)) as [next|] eqn:Hsel.
  - apply select_ready in Hsel as (qn & Hqn & Hsn).
    assert (next ≠ c).
    { intros ->. rewrite Hsv in Hqn. injection Hqn as <-. simpl in Hsn. congruence. }
    unfold switchTo. rewrite Hcur, Hc.
    destruct (decide (Some c = Some next)); [congruence|].
    unfold setCurrent; cbn [procs m_current]. split; [|congruence].
    rewrite lookup_update_ne by assumption.
    rewrite lookup_update_eq, Hsv. simpl.
    unfold yieldCpu. simpl. destruct (decide (m_state q = Running)); [contradiction|].
    reflexivity.
  - rewrite Hcur, Hc, Hsv. simpl.
    destruct (decide (m_state q = Running)); [contradiction|].
    simpl. split; [exact Hsv | discriminate].
Qed.

Lemma release_not_waiting_for t s q :
  m_waitId q ≠ WaitTarget t → release t s q = q.
Proof. intros H. apply release_other. tauto. Qed.

Lemma expire_waiting now q : m_state q = Waiting → expire now q = q.
Proof.
  intros H. unfold expire. destruct (m_sleepTimer q); [|reflexivity].
  rewrite H. simpl. reflexivity.
Qed.

(** A parked process stays parked, unless it is woken up (a Resume aimed at
    it, an interrupt on a vector hooked for it) or a KillPID is aimed at the
    process it waits for; no call of it returns. *)
Lemma parked_step c t k e k1 rets :
  wfKernel k → parked c t k → ¬ disturbs c t k e →
  kernelStep k e = Some (k1, rets) →
  (parked c t k1 ∨ gone c k1) ∧ firstReturn c rets = None.
Proof.
  intros Hwf (Hnc & q & Hq & Hs & Hw & Hres) Hbad H.
  destruct (step_phases _ _ _ _ Hwf H) as (kmid & Heff & _ & Hn & Hcm & Hend).
  pose proof (ending_nextID _ _ _ _ Hend) as Hn1.
  pose proof (wfKernel_lookup _ _ _ Hwf Hq) as Hlt.
  specialize (Heff c q Hq).
  assert (Hmid : m_current kmid ≠ Some c) by (destruct Hcm; congruence).
  assert (Hcases : procs kmid !! c = None
                   ∨ ∃ q', procs kmid !! c = Some q' ∧ m_state q' = Waiting
                           ∧ m_waitId q' = WaitTarget t
                           ∧ m_resume q' = Some AfterWaitPID).
  { destruct Heff as [-> | Heff]; [right; eauto|].
    destruct e as [procID action addr output | st vector |].
    - destruct Heff as [(-> & Hr & _) | [(_ & _ & ->) | [(_ & _ & ->) |
        [(-> & t' & _ & Hr & ->) | [(_ & Hc & _) | [(_ & Hc & _) | (_ & Hc & _)]]]]]];
        try contradiction.
      + exfalso. apply Hbad. left. auto.
      + right. eexists. split; [reflexivity|]. auto.
      + left. reflexivity.
      + right. exists q. split; [|auto].
        rewrite release_not_waiting_for; [reflexivity|].
        rewrite Hw. intros [= <-]. apply Hbad. right. auto.
    - destruct Heff as [Hin _]. exfalso. apply Hbad. exact Hin.
    - destruct Heff as [now ->]. right. exists q.
      rewrite expire_waiting by assumption. auto. }
  destruct Hcases as [Hnone | (q' & Hq' & Hs' & Hw' & Hr')].
  - assert (procs k1 !! c = None) by (eapply ending_none; eassumption).
    split; [right; split; [assumption | lia]|].
    destruct Hend as [(-> & Hcur & Hrets) | (pt & Hr)].
    + destruct Hrets as [-> | (cur & r & Hcur' & ->)]; [reflexivity|].
      rewrite firstReturn_single. destruct (decide (cur = c)); [congruence | reflexivity].
    + eapply resched_none; eassumption.
  - destruct Hend as [(-> & Hcur & Hrets) | (pt & Hr)].
    + split; [left; split; [exact Hmid | eauto]|].
      destruct Hrets as [-> | (cur & r & Hcur' & ->)]; [reflexivity|].
      rewrite firstReturn_single. destruct (decide (cur = c)); [congruence | reflexivity].
    + destruct (resched_other pt kmid k1 rets c q' Hr Hmid Hq') as (G1 & G2 & G3).
      { rewrite Hs'. discriminate. }
      split; [left; split; [exact G2 | eauto] | exact G3].
Qed.

Lemma parked_run c t es : ∀ k k1 rets,
  wfKernel k → parked c t k → avoids (disturbs c t) k es →
  run k es = Some (k1, rets) →
  (parked c t k1 ∨ gone c k1) ∧ firstReturn c rets = None.
Proof.
  induction es as [|e es IH]; intros k k1 rets Hwf Hp Hav; simpl.
  - intros [= <- <-]. auto.
  - destruct Hav as [Hbad Hav].
    destruct (kernelStep k e) as [[k2 rets2]|] eqn:E; [|discriminate].
    destruct (run k2 es) as [[k3 rets3]|] eqn:E3; [|discriminate].
    intros [= <- <-].
    pose proof (wf_step _ _ _ _ Hwf E) as Hwf2.
    destruct (parked_step _ _ _ _ _ _ Hwf Hp Hbad E) as [[Hp2 | Hg2] Hr2];
      rewrite firstReturn_app, Hr2.
    + eapply IH; eassumption.
    + destruct (gone_run _ _ _ _ _ Hwf2 Hg2 E3) as [Hg3 Hr3]. auto.
Qed.

Lemma expire_keeps now q :
  m_waitId (expire now q) = m_waitId q ∧ m_resume (expire now q) = m_resume q.
Proof.
  unfold expire. destruct (m_sleepTimer q); [|auto].
  destruct (_ && _); auto.
Qed.

(** A process that holds an exit status inside WaitPID keeps it until it is
    made current, and then returns it. *)
Lemma pending_step c s k e k1 rets :
  wfKernel k → pending c s k → kernelStep k e = Some (k1, rets) →
  ((pending c s k1 ∨ gone c k1) ∧ firstReturn c rets = None)
  ∨ firstReturn c rets = Some (Payload s).
Proof.
  intros Hwf (Hnc & q & Hq & Hw & Hres) H.
  destruct (step_phases _ _ _ _ Hwf H) as (kmid & Heff & _ & Hn & Hcm & Hend).
  pose proof (ending_nextID _ _ _ _ Hend) as Hn1.
  pose proof (wfKernel_lookup _ _ _ Hwf Hq) as Hlt.
  specialize (Heff c q Hq).
  assert (Hmid : m_current kmid ≠ Some c) by (destruct Hcm; congruence).
  assert (Hcases : procs kmid !! c = None
                   ∨ ∃ q', procs kmid !! c = Some q'
                           ∧ m_waitId q' = WaitResult s
                           ∧ m_resume q' = Some AfterWaitPID).
  { destruct Heff as [-> | Heff]; [right; eauto|].
    destruct e as [procID action addr output | st vector |].
    - destruct Heff as [(_ & _ & ->) | [(_ & _ & ->) | [(_ & _ & ->) |
        [(_ & t' & _ & _ & ->) | [(_ & Hc & _) | [(_ & Hc & _) | (_ & Hc & _)]]]]]];
        try contradiction.
      + right. eexists. split; [reflexivity|]. auto.
      + right. eexists. split; [reflexivity|]. auto.
      + left. reflexivity.
      + right. exists q. split; [|auto].
        rewrite release_not_waiting_for; [reflexivity|].
        rewrite Hw. discriminate.
    - destruct Heff as [_ [evs ->]]. right. eexists. split; [reflexivity|]. auto.
    - destruct Heff as [now ->]. right. eexists. split; [reflexivity|].
      destruct (expire_keeps now q) as [-> ->]. auto. }
  destruct Hcases as [Hnone | (q' & Hq' & Hw' & Hr')].
  - left. assert (procs k1 !! c = None) by (eapply ending_none; eassumption).
    split; [right; split; [assumption | lia]|].
    destruct Hend as [(-> & Hcur & Hrets) | (pt & Hr)].
    + destruct Hrets as [-> | (cur & r & Hcur' & ->)]; [reflexivity|].
      rewrite firstReturn_single. destruct (decide (cur = c)); [congruence | reflexivity].
    + eapply resched_none; eassumption.
  - destruct Hend as [(-> & Hcur & Hrets) | (pt & Hr)].
    + left. split; [left; split; [exact Hmid | eauto]|].
      destruct Hrets as [-> | (cur & r & Hcur' & ->)]; [reflexivity|].
      rewrite firstReturn_single. destruct (decide (cur = c)); [congruence | reflexivity].
    + destruct (resched_pending pt kmid k1 rets c q' s Hr Hmid Hq' Hw' Hr')
        as [[G1 G2] | ->].
      * left. auto.
      * right. rewrite firstReturn_single.
        destruct (decide (c = c)); [reflexivity | contradiction].
Qed.

Lemma pending_run c s es : ∀ k k1 rets r,
  wfKernel k → pending c s k → run k es = Some (k1, rets) →
  firstReturn c rets = Some r → r = Payload s.
Proof.
  induction es as [|e es IH]; intros k k1 rets r Hwf Hp; simpl.
  - intros [= <- <-]. discriminate.
  - destruct (kernelStep k e) as [[k2 rets2]|] eqn:E; [|discriminate].
    destruct (run k2 es) as [[k3 rets3]|] eqn:E3; [|discriminate].
    intros [= <- <-].
    pose proof (wf_step _ _ _ _ Hwf E) as Hwf2.
    rewrite firstReturn_app.
    destruct (pending_step _ _ _ _ _ _ Hwf Hp E) as [[[Hp2 | Hg2] Hr2] | Hr2];
      rewrite Hr2.
    + eapply IH; eassumption.
    + destruct (gone_run _ _ _ _ _ Hwf2 Hg2 E3) as [_ Hr3]. rewrite Hr3. discriminate.
    + congruence.
Qed.

(** The call of WaitPID itself: the caller is parked. *)
Lemma waitpid_parks k procID addr output c t :
  wfKernel k → m_current k = Some c →
  resolveTarget k procID WaitPID = Some (Some t) →
  ∃ k1 rets,
    kernelStep k (Trap procID WaitPID addr output) = Some (k1, rets)
    ∧ ProcessCtlHandler k procID WaitPID addr output
      = Scheduled (schedule (Some AfterWaitPID)
                     (update c (setState Waiting) (update c (setWait t) k)))
    ∧ parked c t k1 ∧ firstReturn c rets = None.
Proof.
  intros Hwf Hc Hr.
  destruct (resolveTarget_exists _ _ _ _ Hwf Hr) as [qt Hqt].
  destruct Hwf as [Hwf1 Hwf2]. destruct (Hwf2 c Hc) as [q Hq].
  assert (Hh : ProcessCtlHandler k procID WaitPID addr output
      = Scheduled (schedule (Some AfterWaitPID)
                     (update c (setState Waiting) (update c (setWait t) k)))).
  { unfold ProcessCtlHandler. rewrite Hr. unfold deref. rewrite Hqt, Hc, Hq.
    reflexivity. }
  set (kmid := update c (setState Waiting) (update c (setWait t) k)) in *.
  destruct (resumeCurrent_total (schedule (Some AfterWaitPID) kmid)) as (k1 & rets & Hres).
  exists k1, rets. split; [simpl; rewrite Hc, Hh; exact Hres|].
  split; [exact Hh|].
  assert (Hqm : procs kmid !! c = Some (setState Waiting (setWait t q))).
  { unfold kmid. rewrite update_update, lookup_update_eq, Hq. reflexivity. }
  destruct (schedule_blocked (Some AfterWaitPID) kmid c _ Hc Hqm) as [G1 G2];
    [discriminate | discriminate |].
  pose proof (resumeCurrent_current _ _ _ Hres) as Hcur1.
  apply resumeCurrent_inv in Hres
    as [(-> & -> & _) | (n & p & pt' & r & Hcn & _ & _ & _ & -> & ->)].
  - split; [|reflexivity]. split; [exact G2|]. eexists. split; [exact G1|]. auto.
  - assert (n ≠ c) by congruence.
    split.
    + split; [simpl; congruence|]. eexists.
      rewrite lookup_update_ne by assumption. split; [exact G1|]. auto.
    + rewrite firstReturn_single. destruct (decide (n = c)); [contradiction | reflexivity].
Qed.

(** The removal of the process waited for: the waiting process holds the
    exit status, or returns it at once. *)
Lemma kill_releases c t k procID status output k1 rets :
  wfKernel k → parked c t k → t ≠ c →
  resolveTarget k procID KillPID = Some (Some t) →
  kernelStep k (Trap procID KillPID status output) = Some (k1, rets) →
  (pending c status k1 ∧ firstReturn c rets = None)
  ∨ firstReturn c rets = Some (Payload status).
Proof.
  intros Hwf (Hnc & q & Hq & Hs & Hw & Hres) Hne Hr. simpl.
  destruct (m_current k) as [cur|] eqn:Hc; [|discriminate].
  destruct (resolveTarget_exists _ _ _ _ Hwf Hr) as [qt Hqt].
  unfold ProcessCtlHandler. rewrite Hr. unfold deref. rewrite Hqt.
  intros H.
  assert (Hqm : procs (remove t status k) !! c
                = Some (setState Ready (setWaitField (WaitResult status) q))).
  { rewrite lookup_remove. destruct (decide (t = c)); [contradiction|].
    rewrite Hq. simpl. unfold release.
    rewrite bool_decide_eq_true_2 by auto. reflexivity. }
  assert (Hmid : m_current (remove t status k) ≠ Some c).
  { unfold remove; cbn [m_current setCurrent]. rewrite Hc.
    destruct (decide _); [discriminate | congruence]. }
  destruct (resched_pending _ _ _ _ c _ status H Hmid Hqm) as [G | ->];
    [reflexivity | exact Hres | left; exact G |].
  right. rewrite firstReturn_single.
  destruct (decide (c = c)); [reflexivity | contradiction].
Qed.

Lemma wf_run es : ∀ k k1 rets,
  wfKernel k → run k es = Some (k1, rets) → wfKernel k1.
Proof.
  induction es as [|e es IH]; intros k k1 rets Hwf; simpl.
  - intros [= <- <-]. exact Hwf.
  - destruct (kernelStep k e) as [[k2 rets2]|] eqn:E; [|discriminate].
    destruct (run k2 es) as [[k3 rets3]|] eqn:E3; [|discriminate].
    intros [= <- <-]. eapply IH; [eapply wf_step|]; eassumption.
Qed.

(** ** The scheduler reaches every Ready process *)

Lemma find_first {A} (P : A → bool) (l : list A) (i : nat) (c : A) :
  l !! i = Some c → P c = true →
  ∃ j x, (j ≤ i)%nat ∧ l !! j = Some x ∧ List.find P l = Some x.
Proof.
  revert i. induction l as [|y l IH]; intros i Hi Hc; [discriminate|].
  simpl. destruct (P y) eqn:Hy.
  - exists 0%nat, y. split; [lia|]. auto.
  - destruct i as [|i]; simpl in Hi.
    + injection Hi as ->. congruence.
    + destruct (IH i Hi Hc) as (j & x & Hj & Hl & Hf).
      exists (S j), x. split; [lia|]. auto.
Qed.

Lemma current_lt k cur : wfKernel k → m_current k = Some cur → cur < m_nextID k.
Proof.
  intros Hwf Hc. pose proof Hwf as [_ H]. destruct (H cur Hc) as [q Hq].
  eapply wfKernel_lookup; eassumption.
Qed.

Lemma candidates_eq k k' :
  m_current k' = m_current k → m_nextID k' = m_nextID k →
  candidates k' = candidates k.
Proof. intros H1 H2. unfold candidates. rewrite H1, H2. reflexivity. Qed.

(** The place of a process in the round the scheduler makes. *)
Lemma candidates_lookup k j y :
  (∀ cur, m_current k = Some cur → cur < m_nextID k) →
  candidates k !! j = Some y →
  match m_current k with
  | Some cur =>
      (cur < y < m_nextID k ∧ Z.of_nat j = y - cur - 1)
      ∨ (0 ≤ y ≤ cur ∧ Z.of_nat j = m_nextID k - cur - 1 + y)
  | None => 0 ≤ y < m_nextID k ∧ Z.of_nat j = y
  end.
Proof.
  intros Hlt. unfold candidates. destruct (m_current k) as [cur|].
  - specialize (Hlt cur eq_refl).
    rewrite lookup_app_Some, !lookup_seqZ, length_seqZ.
    intros [[-> H] | [Hlen [-> H]]]; [left | right]; lia.
  - rewrite lookup_seqZ. lia.
Qed.

Lemma candidates_has k c :
  (∀ cur, m_current k = Some cur → cur < m_nextID k) →
  0 ≤ c < m_nextID k → ∃ i, candidates k !! i = Some c.
Proof.
  intros Hlt Hc. unfold candidates. destruct (m_current k) as [cur|].
  - specialize (Hlt cur eq_refl). destruct (decide (cur < c)).
    + exists (Z.to_nat (c - cur - 1)). apply lookup_app_Some. left.
      apply lookup_seqZ. lia.
    + exists (Z.to_nat (m_nextID k - cur - 1 + c)). apply lookup_app_Some. right.
      rewrite length_seqZ. split; [lia|]. apply lookup_seqZ. lia.
  - exists (Z.to_nat c). apply lookup_seqZ. lia.
Qed.

(** A Ready process that is not current is switched to, or it is left as it
    is and has moved up in the round. *)
Lemma schedule_ready pt k c q i :
  wfKernel k → 0 ≤ c → procs k !! c = Some q → m_state q = Ready →
  m_current k ≠ Some c → candidates k !! i = Some c →
  (m_current (schedule pt k) = Some c
   ∧ procs (schedule pt k) !! c = Some (setState Running q))
  ∨ (procs (schedule pt k) !! c = Some q
     ∧ m_current (schedule pt k) ≠ Some c
     ∧ ∃ i', (i' < i)%nat ∧ candidates (schedule pt k) !! i' = Some c).
Proof.
  intros Hwf H0 Hq Hs Hnc Hi.
  pose proof (wfKernel_lookup _ _ _ Hwf Hq) as HcN.
  pose proof (saveContext_frame pt k) as (_ & Hn & _ & _ & _ & _ & _ & Hcur).
  assert (Hqs : procs (saveContext pt k) !! c = Some q).
  { unfold saveContext. destruct (m_current k) as [cur|]; [|exact Hq].
    rewrite lookup_update_ne; [exact Hq | congruence]. }
  assert (Hcand : candidates (saveContext pt k) = candidates k)
    by (apply candidates_eq; assumption).
  assert (Hready : isReady (saveContext pt k) c = true).
  { unfold isReady. rewrite Hqs. apply bool_decide_eq_true_2. exact Hs. }
  rewrite <- Hcand in Hi.
  destruct (find_first _ _ _ _ Hi Hready) as (j & next & Hj & Hl & Hsel).
  change (select (saveContext pt k) = Some next) in Hsel.
  unfold schedule. cbv zeta. rewrite Hsel.
  assert (Hlt : ∀ cur, m_current (saveContext pt k) = Some cur
                       → cur < m_nextID (saveContext pt k)).
  { intros cur Hc. rewrite Hn. rewrite Hcur in Hc. eapply current_lt; eassumption. }
  destruct (decide (next = c)) as [->|Hne].
  - left. unfold switchTo. rewrite Hcur.
    destruct (decide (m_current k = Some c)); [contradiction|].
    unfold setCurrent; cbn [procs m_current]. split; [reflexivity|].
    rewrite lookup_update_eq.
    destruct (m_current k) as [prev|].
    + rewrite lookup_update_ne by congruence. rewrite Hqs. reflexivity.
    + rewrite Hqs. reflexivity.
  - right.
    pose proof (candidates_lookup _ _ _ Hlt Hi) as Fc.
    pose proof (candidates_lookup _ _ _ Hlt Hl) as Fn.
    assert (Hji : (j < i)%nat).
    { destruct (decide (j = i)) as [->|]; [congruence | lia]. }
    pose proof Hsel as Hsel'. apply select_saveContext in Hsel' as (qn & Hqn & _).
    pose proof (wfKernel_lookup _ _ _ Hwf Hqn) as HnN.
    assert (Hnotcur : m_current (saveContext pt k) ≠ Some next).
    { intros E. rewrite E in Fc, Fn. rewrite Hn in Fc, Fn. lia. }
    unfold switchTo. destruct (decide _) as [E|_]; [contradiction|].
    set (k2 := setCurrent (Some next) _).
    assert (Hc2 : m_current k2 = Some next) by reflexivity.
    assert (Hn2 : m_nextID k2 = m_nextID k).
    { unfold k2, setCurrent. cbn [m_nextID].
      destruct (m_current (saveContext pt k)); simpl; exact Hn. }
    split; [|split].
    + unfold k2, setCurrent; cbn [procs].
      rewrite lookup_update_ne by assumption.
      rewrite Hcur. destruct (m_current k) as [prev|]; [|exact Hqs].
      rewrite lookup_update_ne by congruence. exact Hqs.
    + rewrite Hc2. congruence.
    + assert (Hlt2 : ∀ cur, m_current k2 = Some cur → cur < m_nextID k2).
      { intros cur. rewrite Hc2, Hn2. intros [= <-]. exact HnN. }
      destruct (candidates_has k2 c Hlt2) as [i' Hi']; [lia|].
      exists i'. split; [|exact Hi'].
      pose proof (candidates_lookup _ _ _ Hlt2 Hi') as F2.
      rewrite Hc2, Hn2 in F2. rewrite Hn in Fc, Fn.
      destruct (m_current (saveContext pt k)) as [cur|] eqn:Ecur; lia.
Qed.

Lemma expire_ready now q : m_state q = Ready → expire now q = q.
Proof.
  intros H. unfold expire. destruct (m_sleepTimer q); [|reflexivity].
  rewrite H. reflexivity.
Qed.

Lemma tick_frame k :
  m_current (tick k) = m_current k ∧ m_nextID (tick k) = m_nextID k
  ∧ (∀ x, procs (tick k) !! x = None ↔ procs k !! x = None)
  ∧ (∀ x q, procs k !! x = Some q → m_state q = Ready →
            procs (tick k) !! x = Some q).
Proof.
  unfold tick. destruct (m_timer k) as [now|]; simpl; [|tauto].
  split; [reflexivity|]. split; [reflexivity|]. split.
  - intros x. rewrite lookup_fmap. destruct (procs k !! x); simpl; split; congruence.
  - intros x q Hq Hs. rewrite lookup_fmap, Hq. simpl.
    rewrite expire_ready by assumption. reflexivity.
Qed.

(** A rescheduling: a Ready process stopped inside WaitPID gets the
    processor, and its call returns what its wait field holds, or it is left
    as it is and has moved up in the round. *)
Lemma resched_ready pt k k1 rets c q i :
  wfKernel k → 0 ≤ c → procs k !! c = Some q → m_state q = Ready →
  m_current k ≠ Some c → m_resume q = Some AfterWaitPID →
  candidates k !! i = Some c →
  resumeCurrent (schedule pt k) = Some (k1, rets) →
  (m_current k1 = Some c ∧ rets = [(c, Payload (getWait q))])
  ∨ (procs k1 !! c = Some q ∧ m_current k1 ≠ Some c
     ∧ firstReturn c rets = None
     ∧ ∃ i', (i' < i)%nat ∧ candidates k1 !! i' = Some c).
Proof.
  intros Hwf H0 Hq Hs Hnc Hres Hi Hrc.
  destruct (schedule_ready pt k c q i Hwf H0 Hq Hs Hnc Hi)
    as [[Hcur Hl] | (Hl & Hncur & i' & Hlt & Hi')].
  - left. unfold resumeCurrent, deref in Hrc. rewrite Hcur, Hl in Hrc.
    cbn [m_resume setState] in Hrc. rewrite Hres in Hrc.
    unfold resumeHandler, deref in Hrc. rewrite Hcur, Hl in Hrc.
    injection Hrc as <- <-. split; [exact Hcur | reflexivity].
  - right. pose proof (resumeCurrent_current _ _ _ Hrc) as Hcur1.
    apply resumeCurrent_inv in Hrc
      as [(-> & -> & _) | (n & p & pt' & r & Hcn & _ & _ & _ & -> & ->)].
    + split; [exact Hl|]. split; [exact Hncur|]. split; [reflexivity|]. eauto.
    + assert (n ≠ c) by congruence.
      split; [rewrite lookup_update_ne by assumption; exact Hl|].
      split; [simpl; exact Hncur|].
      split.
      { rewrite firstReturn_single. destruct (decide (n = c)); [contradiction | reflexivity]. }
      exists i'. split; [exact Hlt|].
      rewrite (candidates_eq (schedule pt k)); [exact Hi' | reflexivity | reflexivity].
Qed.

(** One tick of the timer does that. *)
Lemma tick_step_ready k c q i :
  wfKernel k → 0 ≤ c → procs k !! c = Some q → m_state q = Ready →
  m_current k ≠ Some c → m_resume q = Some AfterWaitPID →
  candidates k !! i = Some c →
  ∃ k1 rets,
    kernelStep k TimerTick = Some (k1, rets)
    ∧ (∀ x, procs k1 !! x = None ↔ procs k !! x = None)
    ∧ ((m_current k1 = Some c ∧ rets = [(c, Payload (getWait q))])
       ∨ (procs k1 !! c = Some q ∧ m_current k1 ≠ Some c
          ∧ firstReturn c rets = None
          ∧ ∃ i', (i' < i)%nat ∧ candidates k1 !! i' = Some c)).
Proof.
  intros Hwf H0 Hq Hs Hnc Hres Hi.
  destruct (tick_frame k) as (Tc & Tn & Tnone & Tready).
  pose proof (wf_tick _ Hwf) as Hwft.
  assert (Hit : candidates (tick k) !! i = Some c).
  { rewrite (candidates_eq k (tick k)) by assumption. exact Hi. }
  assert (Hnct : m_current (tick k) ≠ Some c) by congruence.
  cbn [kernelStep].
  destruct (resumeCurrent_total (schedule None (tick k))) as (k1 & rets & Hrc).
  exists k1, rets. split; [exact Hrc|].
  split.
  - intros x. rewrite <- Tnone, <- (schedule_None None (tick k) x).
    apply resumeCurrent_inv in Hrc
      as [(-> & _ & _) | (n & p & pt' & r & _ & _ & _ & _ & _ & ->)];
      [tauto | apply update_None].
  - eapply resched_ready; [exact Hwft | exact H0 | apply Tready; eassumption
                          | exact Hs | exact Hnct | exact Hres | exact Hit | exact Hrc].
Qed.

(** Round robin: a Ready process stopped inside WaitPID gets the processor
    after finitely many ticks of the timer, and its call then returns what
    its wait field holds. *)
Lemma ready_waiter_returns c i : ∀ k q,
  wfKernel k → 0 ≤ c → procs k !! c = Some q → m_state q = Ready →
  m_current k ≠ Some c → m_resume q = Some AfterWaitPID →
  candidates k !! i = Some c →
  ∃ n k1 rets,
    run k (repeat TimerTick n) = Some (k1, rets)
    ∧ firstReturn c rets = Some (Payload (getWait q))
    ∧ m_current k1 = Some c
    ∧ (∀ x, procs k1 !! x = None ↔ procs k !! x = None).
Proof.
  induction i as [i IH] using lt_wf_ind.
  intros k q Hwf H0 Hq Hs Hnc Hres Hi.
  destruct (tick_step_ready k c q i Hwf H0 Hq Hs Hnc Hres Hi)
    as (k1 & rets & Hstep & Hnone & [[Hcur ->] | (Hq1 & Hnc1 & Hret & i' & Hlt & Hi')]).
  - exists 1%nat, k1, [(c, Payload (getWait q))].
    split; [cbn [repeat run]; rewrite Hstep; reflexivity|].
    split; [|split; [exact Hcur | exact Hnone]].
    rewrite firstReturn_single. destruct (decide (c = c)); [reflexivity | contradiction].
  - pose proof (wf_step _ _ _ _ Hwf Hstep) as Hwf1.
    destruct (IH i' Hlt k1 q Hwf1 H0 Hq1 Hs Hnc1 Hres Hi')
      as (n & k2 & rets2 & Hrun & Hret2 & Hcur2 & Hnone2).
    exists (S n), k2, (rets ++ rets2).
    split; [cbn [repeat run]; rewrite Hstep, Hrun; reflexivity|].
    split; [rewrite firstReturn_app, Hret; exact Hret2|].
    split; [exact Hcur2|].
    intros x. rewrite Hnone2. apply Hnone.
Qed.

(** ** A process stays in the table until it is removed *)

Lemma alive_step t k e k1 rets :
  wfKernel k → is_Some (procs k !! t) →
  (∀ procID a o, e = Trap procID KillPID a o →
                 resolveTarget k procID KillPID ≠ Some (Some t)) →
  kernelStep k e = Some (k1, rets) → is_Some (procs k1 !! t).
Proof.
  intros Hwf [q Hq] Hno H.
  destruct (step_phases _ _ _ _ Hwf H) as (kmid & Heff & _ & _ & _ & Hend).
  specialize (Heff t q Hq).
  assert (Hmid : is_Some (procs kmid !! t)).
  { destruct Heff as [-> | Heff]; [eauto|].
    destruct e as [procID action addr output | st vector |].
    - destruct Heff as [(_ & _ & ->) | [(_ & _ & ->) | [(-> & Hr & _) |
        [(_ & t' & _ & _ & ->) | [(_ & _ & id & ->) | [(_ & _ & ->) | (_ & _ & ->)]]]]]];
        eauto.
      destruct (Hno procID addr output eq_refl Hr).
    - destruct Heff as [_ [evs ->]]. eauto.
    - destruct Heff as [now ->]. eauto. }
  destruct Hmid as [q' Hq'].
  destruct (ending_book _ _ _ _ _ _ Hend Hq') as (q1 & Hq1 & _). eauto.
Qed.

Lemma alive_run c t es : ∀ k k1 rets,
  wfKernel k → is_Some (procs k !! t) → avoids (disturbs c t) k es →
  run k es = Some (k1, rets) → is_Some (procs k1 !! t).
Proof.
  induction es as [|e es IH]; intros k k1 rets Hwf Ht Hav; simpl.
  - intros [= <- <-]. exact Ht.
  - destruct Hav as [Hbad Hav].
    destruct (kernelStep k e) as [[k2 rets2]|] eqn:E; [|discriminate].
    destruct (run k2 es) as [[k3 rets3]|] eqn:E3; [|discriminate].
    intros [= <- <-].
    eapply IH; [eapply wf_step; eassumption | | exact Hav | exact E3].
    eapply alive_step; [exact Hwf | exact Ht | | exact E].
    intros procID a o -> Hr. apply Hbad. right. auto.
Qed.

(** ** WaitPID and the exit status *)

(** X17: the caller [c] of WaitPID on an existing target [t] is made Waiting
    with wait target [t] and the scheduler is called; no call of [c] returns
    as long as no Resume is aimed at [c], no interrupt comes in on a vector
    hooked for [c], and no KillPID is aimed at [t].  When [t] is then removed
    by a KillPID with an exit status while [c] is still in the table, [c] is
    released: after finitely many ticks of the timer it has the processor
    again and its WaitPID has returned, and whatever enters the kernel after
    the KillPID, the first value returned to [c] is exactly that status. *)
Theorem waitpid_returns_exit_status k procID addr output c t :
  wfKernel k → 0 ≤ c → m_current k = Some c →
  resolveTarget k procID WaitPID = Some (Some t) →
  ∃ k1 rets1,
    kernelStep k (Trap procID WaitPID addr output) = Some (k1, rets1)
    ∧ ProcessCtlHandler k procID WaitPID addr output
      = Scheduled (schedule (Some AfterWaitPID)
                     (update c (setState Waiting) (update c (setWait t) k)))
    ∧ firstReturn c rets1 = None
    ∧ m_current k1 ≠ Some c
    ∧ (∃ q, get k1 c = Some q ∧ m_state q = Waiting ∧ m_waitId q = WaitTarget t)
    ∧ ∀ es k2 rets2,
        avoids (disturbs c t) k1 es → run k1 es = Some (k2, rets2) →
        firstReturn c rets2 = None
        ∧ ∀ kProcID status o k3 rets3,
            t ≠ c → is_Some (get k2 c) →
            resolveTarget k2 kProcID KillPID = Some (Some t) →
            kernelStep k2 (Trap kProcID KillPID status o) = Some (k3, rets3) →
            (∀ es' k4 rets4 r,
               run k3 es' = Some (k4, rets4) →
               firstReturn c (rets3 ++ rets4) = Some r → r = Payload status)
            ∧ ∃ n k4 rets4,
                run k3 (repeat TimerTick n) = Some (k4, rets4)
                ∧ firstReturn c (rets3 ++ rets4) = Some (Payload status)
                ∧ get k4 t = None.
Proof.
  intros Hwf H0 Hc Hr.
  destruct (waitpid_parks k procID addr output c t Hwf Hc Hr)
    as (k1 & rets1 & Hstep & Hh & Hp & Hret).
  exists k1, rets1.
  split; [exact Hstep|]. split; [exact Hh|]. split; [exact Hret|].
  pose proof Hp as (Hnc & q & Hq & Hs & Hw & _).
  split; [exact Hnc|]. split; [exists q; auto|].
  intros es k2 rets2 Hav Hrun.
  pose proof (wf_step _ _ _ _ Hwf Hstep) as Hwf1.
  pose proof (wf_run _ _ _ _ Hwf1 Hrun) as Hwf2.
  destruct (parked_run c t es _ _ _ Hwf1 Hp Hav Hrun) as [Hp2 Hret2].
  split; [exact Hret2|].
  intros kProcID status o k3 rets3 Hne [qc Hqc] Hrk Hkill.
  pose proof (wf_step _ _ _ _ Hwf2 Hkill) as Hwf3.
  destruct Hp2 as [Hp2 | [Hg2 _]]; [|unfold get in Hqc; congruence].
  split.
  - intros es' k4 rets4 r Hrun' Hfirst.
    rewrite firstReturn_app in Hfirst.
    destruct (kill_releases _ _ _ _ _ _ _ _ Hwf2 Hp2 Hne Hrk Hkill) as [[Hpe Hn3] | Hn3];
      rewrite Hn3 in Hfirst.
    + eapply pending_run; eassumption.
    + congruence.
  - destruct Hp2 as (Hnc2 & q2 & Hq2 & Hs2 & Hw2 & Hrs2).
    pose proof Hkill as Hkill'. cbn [kernelStep] in Hkill'.
    destruct (m_current k2) as [cur|] eqn:Hcur2; [|discriminate].
    destruct (resolveTarget_exists _ _ _ _ Hwf2 Hrk) as [qt Hqt].
    unfold ProcessCtlHandler in Hkill'. rewrite Hrk in Hkill'.
    unfold deref in Hkill'. rewrite Hqt in Hkill'.
    set (qr := setState Ready (setWaitField (WaitResult status) q2)).
    assert (Hqm : procs (remove t status k2) !! c = Some qr).
    { rewrite lookup_remove. destruct (decide (t = c)); [contradiction|].
      rewrite Hq2. simpl. unfold release.
      rewrite bool_decide_eq_true_2 by auto. reflexivity. }
    assert (Hmid : m_current (remove t status k2) ≠ Some c).
    { unfold remove; cbn [m_current setCurrent]. rewrite Hcur2.
      destruct (decide _); [discriminate | congruence]. }
    pose proof (wf_remove k2 t status Hwf2) as Hwfm.
    pose proof (wfKernel_lookup _ _ _ Hwfm Hqm) as HcN.
    destruct (candidates_has (remove t status k2) c) as [i Hi];
      [intros cur' Hc'; eapply current_lt; eassumption | lia |].
    assert (Hgone : ∀ k', (∀ x, procs k' !! x = None ↔ procs k3 !! x = None) →
                          get k' t = None).
    { intros k' Hk'. unfold get. apply Hk'.
      eapply resched_none; [exact Hkill'|].
      rewrite lookup_remove. destruct (decide (t = t)); [reflexivity | contradiction]. }
    destruct (resched_ready _ _ _ _ c qr i Hwfm H0 Hqm eq_refl Hmid Hrs2 Hi Hkill')
      as [[Hcur3 ->] | (Hq3 & Hnc3 & Hret3 & i' & _ & Hi')].
    + exists 0%nat, k3, []. split; [reflexivity|]. split.
      * rewrite app_nil_r, firstReturn_single.
        destruct (decide (c = c)); [reflexivity | contradiction].
      * apply Hgone. tauto.
    + destruct (ready_waiter_returns c i' k3 qr Hwf3 H0 Hq3 eq_refl Hnc3 Hrs2 Hi')
        as (n & k4 & rets4 & Hrun4 & Hret4 & _ & Hnone4).
      exists n, k4, rets4. split; [exact Hrun4|]. split.
      * rewrite firstReturn_app, Hret3. exact Hret4.
      * apply Hgone. exact Hnone4.
Qed.

Lemma waitpid_returns_exit_status_witness :
  ∃ k3 rets3,
    kernelStep kEx (Trap 2 WaitPID 0 0) = Some (kWait, [])
    ∧ m_current kWait ≠ Some 0
    ∧ run kWait [Trap SELF Schedule 0 0] = Some (kTarget, [])
    ∧ resolveTarget kTarget SELF KillPID = Some (Some 2)
    ∧ kernelStep kTarget (Trap SELF KillPID 42 0) = Some (k3, rets3)
    ∧ (∀ r, firstReturn 0 (rets3 ++ []) = Some r → r = Payload 42)
    ∧ ∃ n k4 rets4,
        run k3 (repeat TimerTick n) = Some (k4, rets4)
        ∧ firstReturn 0 (rets3 ++ rets4) = Some (Payload 42)
        ∧ get k4 2 = None.
Proof.
  destruct (waitpid_returns_exit_status kEx 2 0 0 0 2 wfKernel_kEx
              ltac:(lia) eq_refl eq_refl)
    as (k1 & rets1 & Hstep & _ & _ & Hnc & _ & Hrest).
  assert (E : kernelStep kEx (Trap 2 WaitPID 0 0) = Some (kWait, []))
    by (vm_compute; reflexivity).
  rewrite E in Hstep. injection Hstep as <- <-.
  destruct (Hrest [Trap SELF Schedule 0 0] kTarget []) as [_ Hkill].
  - split; [|exact I].
    intros [[H _] | [H _]]; discriminate H.
  - vm_compute. reflexivity.
  - eexists _, _.
    split; [exact E|].
    split; [exact Hnc|].
    split; [vm_compute; reflexivity|].
    split; [vm_compute; reflexivity|].
    split; [vm_compute; reflexivity|].
    edestruct (Hkill SELF 42 0) as [Hsafe Hlive].
    + discriminate.
    + eexists. vm_compute. reflexivity.
    + vm_compute. reflexivity.
    + vm_compute. reflexivity.
    + split; [|exact Hlive].
      intros r Hr. eapply (Hsafe [] _ [] r); [reflexivity | exact Hr].
Defined.

(** The scenario of the specification: process 0 waits for process 2, which
    runs and exits with status 42; process 0 resumes with 42. *)
Example waitpid_scenario_42 :
  ∃ k1,
    run kEx [Trap 2 WaitPID 0 0; Trap SELF Schedule 0 0; Trap SELF KillPID 42 0]
    = Some (k1, [(0, Payload 42)])
    ∧ m_current k1 = Some 0 ∧ get k1 2 = None.
Proof. eexists. split; [vm_compute; reflexivity|]. split; reflexivity. Qed.

(** The longer scenario of the specification: process 0 spawns process 1 and
    yields; process 1 sleeps for ten ticks; process 0 waits for process 1; the
    idle placeholder runs until the tenth tick wakes process 1, which exits
    with status 42; process 0 resumes from WaitPID with 42. *)
Example spawn_sleep_wait_exit_scenario :
  ∃ k1,
    run kBoot
      ([Trap 0 Spawn 7 0; Trap SELF Schedule 0 0; Trap SELF WaitTimer 16 0;
        Trap 1 WaitPID 0 0]
       ++ repeat TimerTick 10 ++ [Trap SELF KillPID 42 0])
    = Some (k1, [(0, Payload 1); (0, Success); (1, Success); (0, Payload 42)])
    ∧ m_current k1 = Some 0 ∧ get k1 1 = None.
Proof. eexists. split; [vm_compute; reflexivity|]. split; reflexivity. Qed.

(** ** WaitPID cut short by Resume *)

(** C1: the caller [c] of WaitPID on an existing target [t] is switched away
    from, but it does not stay so until [t] is removed.  While [c] waits and
    [t] is in the table, a Resume aimed at [c] returns Success and makes [c]
    Ready; after finitely many ticks of the timer [c] has the processor again
    and its WaitPID has returned: the value is the identifier of [t], which is
    what the wait field holds, and [t] is still in the table.  No exit status
    was passed to anyone. *)
Theorem resumed_waitpid_returns_target_id k procID addr output c t :
  wfKernel k → 0 ≤ c → m_current k = Some c →
  resolveTarget k procID WaitPID = Some (Some t) →
  ∃ k1 rets1,
    kernelStep k (Trap procID WaitPID addr output) = Some (k1, rets1)
    ∧ firstReturn c rets1 = None
    ∧ ∀ es k2 rets2 r rProcID a o,
        avoids (disturbs c t) k1 es → run k1 es = Some (k2, rets2) →
        m_current k2 = Some r →
        resolveTarget k2 rProcID Resume = Some (Some c) →
        firstReturn c rets2 = None
        ∧ is_Some (get k2 t)
        ∧ ∃ k3,
            kernelStep k2 (Trap rProcID Resume a o) = Some (k3, [(r, Success)])
            ∧ (∃ q3, get k3 c = Some q3 ∧ m_state q3 = Ready
                     ∧ m_waitId q3 = WaitTarget t)
            ∧ ∃ n k4 rets4,
                run k3 (repeat TimerTick n) = Some (k4, rets4)
                ∧ firstReturn c rets4 = Some (Payload t)
                ∧ m_current k4 = Some c
                ∧ is_Some (get k4 t).
Proof.
  intros Hwf H0 Hc Hr.
  destruct (waitpid_parks k procID addr output c t Hwf Hc Hr)
    as (k1 & rets1 & Hstep & _ & Hp & Hret).
  exists k1, rets1. split; [exact Hstep|]. split; [exact Hret|].
  intros es k2 rets2 r rProcID a o Hav Hrun Hcur2 Hres.
  pose proof (wf_step _ _ _ _ Hwf Hstep) as Hwf1.
  pose proof (wf_run _ _ _ _ Hwf1 Hrun) as Hwf2.
  destruct (parked_run c t es _ _ _ Hwf1 Hp Hav Hrun) as [Hp2 Hret2].
  split; [exact Hret2|].
  assert (Ht2 : is_Some (procs k2 !! t)).
  { eapply alive_run; [exact Hwf1 | | exact Hav | exact Hrun].
    eapply alive_step; [exact Hwf | eapply resolveTarget_exists; eassumption | | exact Hstep].
    intros ? ? ? [=]. }
  split; [exact Ht2|].
  destruct (resolveTarget_exists _ _ _ _ Hwf2 Hres) as [qc Hqc].
  destruct Hp2 as [(Hnc2 & q2 & Hq2 & Hs2 & Hw2 & Hrs2) | [Hg2 _]]; [|congruence].
  exists (update c wakeup k2). split.
  { cbn [kernelStep]. rewrite Hcur2. unfold ProcessCtlHandler. rewrite Hres.
    unfold deref. rewrite Hq2. reflexivity. }
  assert (Hq3 : procs (update c wakeup k2) !! c = Some (wakeup q2)).
  { rewrite lookup_update_eq, Hq2. reflexivity. }
  split; [exists (wakeup q2); split; [exact Hq3 | split; [reflexivity | exact Hw2]]|].
  pose proof (wf_update k2 c wakeup Hwf2) as Hwf3.
  pose proof (wfKernel_lookup _ _ _ Hwf3 Hq3) as HcN.
  destruct (candidates_has (update c wakeup k2) c) as [i Hi];
    [intros cur' Hc'; eapply current_lt; eassumption | lia |].
  destruct (ready_waiter_returns c i _ (wakeup q2) Hwf3 H0 Hq3 eq_refl Hnc2 Hrs2 Hi)
    as (n & k4 & rets4 & Hrun4 & Hret4 & Hcur4 & Hnone4).
  exists n, k4, rets4. split; [exact Hrun4|]. split.
  { rewrite Hret4. unfold getWait. simpl. rewrite Hw2. reflexivity. }
  split; [exact Hcur4|].
  unfold get. apply not_eq_None_Some. rewrite Hnone4, update_None.
  apply not_eq_None_Some. exact Ht2.
Qed.

Lemma resumed_waitpid_returns_target_id_witness :
  ∃ k3 n k4 rets4,
    kernelStep kEx (Trap 2 WaitPID 0 0) = Some (kWait, [])
    ∧ kernelStep kWait (Trap 0 Resume 0 0) = Some (k3, [(1, Success)])
    ∧ (∃ q3, get k3 0 = Some q3 ∧ m_state q3 = Ready ∧ m_waitId q3 = WaitTarget 2)
    ∧ run k3 (repeat TimerTick n) = Some (k4, rets4)
    ∧ firstReturn 0 rets4 = Some (Payload 2)
    ∧ m_current k4 = Some 0
    ∧ is_Some (get k4 2).
Proof.
  destruct (resumed_waitpid_returns_target_id kEx 2 0 0 0 2 wfKernel_kEx
              ltac:(lia) eq_refl eq_refl)
    as (k1 & rets1 & Hstep & _ & Hrest).
  assert (E : kernelStep kEx (Trap 2 WaitPID 0 0) = Some (kWait, []))
    by (vm_compute; reflexivity).
  rewrite E in Hstep. injection Hstep as <- <-.
  destruct (Hrest [] kWait [] 1 0 0 0 I eq_refl eq_refl eq_refl)
    as (_ & _ & k3 & Hres & Hq3 & n & k4 & rets4 & Hrun & Hret & Hcur & Ht).
  exists k3, n, k4, rets4. repeat split; assumption.
Defined.

(** The same on the sample system, with the processes yielding in turn:
    process 0 calls WaitPID on process 2; process 1 calls Resume on process
    0; two Schedule calls later process 0 runs again and its WaitPID returns
    2, the identifier of the target, while process 2 is still in the table. *)
Example resumed_waiter_returns_without_exit :
  ∃ k1,
    run kEx [Trap 2 WaitPID 0 0; Trap 0 Resume 0 0;
             Trap SELF Schedule 0 0; Trap SELF Schedule 0 0]
    = Some (k1, [(1, Success); (0, Payload 2)])
    ∧ m_current k1 = Some 0
    ∧ is_Some (get k1 2).
Proof.
  eexists. split; [vm_compute; reflexivity|].
  split; [reflexivity | eexists; reflexivity].
Qed.

(** * Further properties of the dispatcher *)

(** ** Results and faults *)

Lemma resolveTarget_Some_deref k procID action proc c :
  m_current k = Some c → is_Some (procs k !! c) →
  action ≠ GetPID → action ≠ Spawn →
  resolveTarget k procID action = Some proc →
  ∃ id q, proc = Some id ∧ procs k !! id = Some q.
Proof.
  intros Hc [qc Hqc] H1 H2. unfold resolveTarget.
  rewrite !bool_decide_eq_true_2 by assumption. simpl.
  destruct (decide (procID = SELF)).
  - intros [= <-]. eauto.
  - unfold get. destruct (procs k !! procID) as [q|] eqn:E; [|discriminate].
    intros [= <-]. eauto.
Qed.

(** X1: the dispatcher takes one of its two [return API::NotFound] in exactly
    two situations, and nothing was changed then: the target does not resolve
    (an operation other than Spawn and GetPID, an identifier that is not SELF
    and not in the table), or the operation is InfoTimer and there is no
    timer device.  WaitTimer does not ask for the timer device. *)
Theorem not_found_causes k procID action addr output k1 :
  ProcessCtlHandler k procID action addr output = Returned NotFound k1
  ↔ k1 = k
    ∧ ((action ≠ Spawn ∧ action ≠ GetPID ∧ procID ≠ SELF ∧ get k procID = None)
       ∨ (action = InfoTimer ∧ m_timer k = None)).
Proof.
  split.
  - unfold ProcessCtlHandler.
    destruct (resolveTarget k procID action) as [proc|] eqn:Hr.
    + destruct action; repeat break_inner; try discriminate.
      intros [= <-]. split; [reflexivity|]. right. auto.
    + intros [= <-]. split; [reflexivity|]. left.
      unfold resolveTarget in Hr.
      destruct (bool_decide (action ≠ GetPID)) eqn:E1; [|discriminate].
      destruct (bool_decide (action ≠ Spawn)) eqn:E2; [|discriminate].
      apply bool_decide_eq_true_1 in E1, E2. simpl in Hr.
      destruct (decide (procID = SELF)); [discriminate|].
      destruct (get k procID); [discriminate|]. auto.
  - intros [-> [(HS & HG & Hself & Hget) | [-> Ht]]].
    + unfold ProcessCtlHandler, resolveTarget.
      rewrite !bool_decide_eq_true_2 by assumption. simpl.
      destruct (decide (procID = SELF)); [contradiction|].
      rewrite Hget. reflexivity.
    + unfold ProcessCtlHandler.
      destruct (resolveTarget k procID InfoTimer); [|reflexivity].
      rewrite Ht. reflexivity.
Qed.

Lemma not_found_causes_witness :
  ProcessCtlHandler kEx 9 InfoPID 10 20 = Returned NotFound kEx
  ∧ ProcessCtlHandler (setTimer None kEx) SELF InfoTimer 16 0
    = Returned NotFound (setTimer None kEx)
  ∧ ∀ k1, ProcessCtlHandler (setTimer None kEx) SELF WaitTimer 16 0
          ≠ Returned NotFound k1.
Proof.
  split; [|split].
  - apply (not_found_causes kEx 9 InfoPID 10 20 kEx).
    split; [reflexivity|]. left. repeat split; discriminate.
  - apply (not_found_causes (setTimer None kEx) SELF InfoTimer 16 0).
    split; [reflexivity|]. right. split; reflexivity.
  - intros k1 H.
    apply (not_found_causes (setTimer None kEx) SELF WaitTimer 16 0 k1) in H
      as [_ [(_ & _ & H & _) | [H _]]]; [apply H; reflexivity | discriminate H].
Defined.

(** X2: the SELF sentinel stands for the caller: naming SELF and naming the
    caller's own identifier give the same outcome, for every operation. *)
Theorem self_names_the_caller k c action addr output :
  m_current k = Some c → is_Some (get k c) →
  ProcessCtlHandler k SELF action addr output
  = ProcessCtlHandler k c action addr output.
Proof.
  intros Hc [q Hq].
  assert (E : resolveTarget k SELF action = resolveTarget k c action).
  { unfold resolveTarget. destruct (_ && _); [|reflexivity].
    destruct (decide (SELF = SELF)); [|contradiction].
    destruct (decide (c = SELF)); [reflexivity|].
    rewrite Hq, Hc. reflexivity. }
  unfold ProcessCtlHandler. rewrite E. reflexivity.
Qed.

Lemma self_names_the_caller_witness :
  ProcessCtlHandler kEx SELF WaitPID 0 0 = ProcessCtlHandler kEx 0 WaitPID 0 0.
Proof.
  apply (self_names_the_caller kEx 0 WaitPID 0 0); [reflexivity | eexists; reflexivity].
Defined.



(** X4: the dispatcher calls [schedule()] in exactly these cases: the target
    resolves and the operation is KillPID (whichever process is removed),
    Schedule, WaitPID or WaitTimer (with or without a timer device), or it is
    EnterSleep and the caller has no pending wakeup. *)
Theorem reschedules_exactly_when k procID action addr output c q :
  m_current k = Some c → get k c = Some q →
  ((∃ k1, ProcessCtlHandler k procID action addr output = Scheduled k1)
   ↔ resolveTarget k procID action ≠ None
     ∧ (action = KillPID ∨ action = Schedule ∨ action = WaitPID
        ∨ action = WaitTimer ∨ (action = EnterSleep ∧ m_wakeups q = O))).
Proof.
  intros Hc Hqc. unfold get in *. unfold ProcessCtlHandler.
  destruct (resolveTarget k procID action) as [proc|] eqn:Hr.
  2:{ split; [intros [k1 H]; discriminate H | intros [H _]; contradiction]. }
  assert (Hd : action ≠ GetPID → action ≠ Spawn →
               ∃ id q, proc = Some id ∧ procs k !! id = Some q).
  { intros H1 H2. eapply resolveTarget_Some_deref; eauto. }
  assert (Hyes : ∀ o : Outcome, (∃ k1, o = Scheduled k1) →
                 ∀ P : Prop, P → ((∃ k1, o = Scheduled k1) ↔ Some proc ≠ None ∧ P)).
  { intros o Ho P HP. split; [intros _; split; [discriminate | exact HP] | intros _; exact Ho]. }
  assert (Hno : ∀ o : Outcome, (∀ k1, o ≠ Scheduled k1) →
                ∀ P : Prop, ¬ P → ((∃ k1, o = Scheduled k1) ↔ Some proc ≠ None ∧ P)).
  { intros o Ho P HP. split; [intros [k1 H]; destruct (Ho k1 H) | intros [_ H]; contradiction]. }
  unfold deref. rewrite Hc, Hqc.
  destruct action;
    try (destruct Hd as (id & qt & -> & Hq); [discriminate | discriminate |];
         rewrite ?Hq).
  - apply Hno; [intros k1; repeat break_inner; discriminate|].
    intros H. decompose [or and] H; congruence.
  - apply Hyes; [eauto | auto].
  - apply Hno; [intros ?; repeat break_inner; discriminate|]. intros H. decompose [or and] H; congruence.
  - apply Hno; [intros ?; repeat break_inner; discriminate|]. intros H. decompose [or and] H; congruence.
  - apply Hno; [intros ?; repeat break_inner; discriminate|]. intros H. decompose [or and] H; congruence.
  - apply Hno; [intros ?; repeat break_inner; discriminate|]. intros H. decompose [or and] H; congruence.
  - apply Hno; [intros ?; repeat break_inner; discriminate|]. intros H. decompose [or and] H; congruence.
  - apply Hno; [intros ?; repeat break_inner; discriminate|]. intros H. decompose [or and] H; congruence.
  - apply Hyes; [eauto | auto].
  - apply Hno; [intros ?; repeat break_inner; discriminate|].
    intros H. decompose [or and] H; congruence.
  - apply Hyes; [eauto | auto].
  - unfold sleep. destruct (m_wakeups q); simpl.
    + apply Hyes; [eauto | auto 10].
    + apply Hno; [intros ?; repeat break_inner; discriminate|]. intros H. decompose [or and] H; congruence.
  - apply Hyes; [eauto | auto].
  - apply Hno; [intros ?; repeat break_inner; discriminate|]. intros H. decompose [or and] H; congruence.
  - apply Hno; [intros ?; repeat break_inner; discriminate|]. intros H. decompose [or and] H; congruence.
Qed.

Lemma reschedules_exactly_when_witness :
  (∃ k1, ProcessCtlHandler kEx SELF EnterSleep 0 0 = Scheduled k1)
  ↔ resolveTarget kEx SELF EnterSleep ≠ None
    ∧ (EnterSleep = KillPID ∨ EnterSleep = Schedule ∨ EnterSleep = WaitPID
       ∨ EnterSleep = WaitTimer
       ∨ (EnterSleep = EnterSleep ∧ m_wakeups (procEx Running) = O)).
Proof.
  apply (reschedules_exactly_when kEx SELF EnterSleep 0 0 0 (procEx Running));
    reflexivity.
Defined.

(** ** What an operation leaves alone *)

(** What a call does to user memory: nothing, or the one store of InfoPID or
    of InfoTimer. *)
Lemma handler_memory_cases k procID action addr output k1 :
  outcomeKernel (ProcessCtlHandler k procID action addr output) = Some k1 →
  m_memory k1 = m_memory k
  ∨ (action = InfoPID
     ∧ ∃ id p old,
         resolveTarget k procID InfoPID = Some (Some id) ∧ get k id = Some p
         ∧ userBuffer k addr = Some (ObjProcessInfo old)
         ∧ m_memory k1 = <[addr := ObjProcessInfo (snapshot id p)]> (m_memory k))
  ∨ (action = InfoTimer
     ∧ ∃ now old,
         m_timer k = Some now
         ∧ userBuffer k addr = Some (ObjTimerInfo old)
         ∧ m_memory k1 = <[addr := ObjTimerInfo now]> (m_memory k)).
Proof.
  unfold ProcessCtlHandler. intros H.
  destruct (resolveTarget k procID action) as [proc|] eqn:Hr;
    [|simpl in H; injection H as <-; left; reflexivity].
  destruct action; simpl in H;
    repeat match type of H with
    | context [match ?x with _ => _ end] => destruct x eqn:?; simpl in H
    end;
    try discriminate; injection H as <-;
    rewrite ?schedule_memory; simpl; try (left; reflexivity).
  - unfold create in *. destruct (decide _); [discriminate|]. simplify_eq.
    left. reflexivity.
  - right. left. split; [reflexivity|].
    match goal with E : deref _ _ = Some _ |- _ =>
      apply deref_Some in E as [-> Hq] end.
    match goal with E : storeProcessInfo _ _ _ = Some _ |- _ =>
      apply storeProcessInfo_Some in E as [[old Hold] ->] end.
    simplify_eq. eexists _, _, old. repeat split; eauto.
  - right. right. split; [reflexivity|].
    match goal with E : storeTimerInfo _ _ _ = Some _ |- _ =>
      apply storeTimerInfo_Some in E as [[old Hold] ->] end.
    eexists _, old. repeat split; eauto.
Qed.

(** X5: whatever the operation, a call that does not go wrong leaves the user
    buffers as they were, with two exceptions: InfoPID puts the snapshot of
    its target in the [ProcessInfo] buffer at [addr], and InfoTimer puts the
    current time in the [Timer::Info] buffer at [addr].  No other buffer is
    written, and no buffer appears or disappears. *)
Theorem only_info_operations_write_memory k procID action addr output k1 :
  outcomeKernel (ProcessCtlHandler k procID action addr output) = Some k1 →
  (m_memory k1 = m_memory k
   ∨ (action = InfoPID
      ∧ ∃ id p old,
          resolveTarget k procID InfoPID = Some (Some id) ∧ get k id = Some p
          ∧ userBuffer k addr = Some (ObjProcessInfo old)
          ∧ m_memory k1 = <[addr := ObjProcessInfo (snapshot id p)]> (m_memory k))
   ∨ (action = InfoTimer
      ∧ ∃ now old,
          m_timer k = Some now
          ∧ userBuffer k addr = Some (ObjTimerInfo old)
          ∧ m_memory k1 = <[addr := ObjTimerInfo now]> (m_memory k)))
  ∧ (∀ a, a ≠ addr → m_memory k1 !! a = m_memory k !! a)
  ∧ dom (m_memory k1) = (dom (m_memory k) : gset Z).
Proof.
  intros H. pose proof (handler_memory_cases _ _ _ _ _ _ H) as Hcases.
  split; [exact Hcases|]. split.
  - intros a Ha. eapply handler_memory; eassumption.
  - destruct Hcases as [-> | [(_ & id & p & old & _ & _ & Hb & ->)
                              | (_ & now & old & _ & Hb & ->)]];
      [reflexivity | |];
      apply userBuffer_lookup in Hb; apply dom_insert_lookup_L; eauto.
Qed.

Lemma only_info_operations_write_memory_witness :
  ∃ k1,
    ProcessCtlHandler kEx 1 InfoPID 10 20 = Returned Success k1
    ∧ m_memory k1 = <[10 := ObjProcessInfo (snapshot 1 (procEx Ready))]> (m_memory kEx)
    ∧ (∀ a, a ≠ 10 → m_memory k1 !! a = m_memory kEx !! a)
    ∧ dom (m_memory k1) = (dom (m_memory kEx) : gset Z).
Proof.
  eexists. split; [vm_compute; reflexivity|]. split; [reflexivity|].
  eapply (only_info_operations_write_memory kEx 1 InfoPID 10 20).
  vm_compute. reflexivity.
Defined.

(** X6: GetPID, GetParent, InfoPID and InfoTimer never reschedule, and when
    they return they have left everything but the user buffers as it was: the
    process table, the current process, the identifier counter, the capacity,
    the timer, the interrupt hooks, the enabled interrupt lines and the memory
    map; GetPID and GetParent leave the user buffers too.  They go wrong only
    when there is no current process to ask, or when the buffer of InfoPID or
    InfoTimer is not there. *)
Theorem query_operations_keep_processes k procID action addr output :
  action = GetPID ∨ action = GetParent ∨ action = InfoPID ∨ action = InfoTimer →
  match ProcessCtlHandler k procID action addr output with
  | Returned _ k1 =>
      procs k1 = procs k ∧ m_current k1 = m_current k
      ∧ m_nextID k1 = m_nextID k ∧ m_capacity k1 = m_capacity k
      ∧ m_timer k1 = m_timer k ∧ m_hooks k1 = m_hooks k
      ∧ m_irqEnabled k1 = m_irqEnabled k ∧ m_map k1 = m_map k
      ∧ (action = GetPID ∨ action = GetParent → k1 = k)
  | Scheduled _ => False
  | Fault =>
      m_current k = None ∨ (∃ c, m_current k = Some c ∧ get k c = None)
      ∨ (action = InfoPID ∧ ∀ old, userBuffer k addr ≠ Some (ObjProcessInfo old))
      ∨ (action = InfoTimer ∧ ∀ old, userBuffer k addr ≠ Some (ObjTimerInfo old))
  end.
Proof.
  intros H. unfold ProcessCtlHandler.
  destruct (resolveTarget k procID action) as [proc|] eqn:Hr;
    [|repeat split; reflexivity].
  assert (Hp : ∀ id, proc = Some id → procs k !! id = None →
               m_current k = Some id).
  { intros id -> Hnone. unfold resolveTarget in Hr.
    destruct (_ && _); [|discriminate].
    destruct (decide (procID = SELF)); [congruence|].
    unfold get in Hr. destruct (procs k !! procID) eqn:E; [|discriminate].
    injection Hr as <-. congruence. }
  decompose [or] H; subst action; unfold deref.
  - destruct (m_current k) as [c|] eqn:Hc; [|auto].
    destruct (procs k !! c) eqn:E; [repeat split; congruence|]. right. left. eauto.
  - destruct (m_current k) as [c|] eqn:Hc; [|auto].
    destruct (procs k !! c) eqn:E; [repeat split; congruence|]. right. left. eauto.
  - destruct proc as [id|].
    + destruct (procs k !! id) as [p|] eqn:E.
      * unfold storeProcessInfo.
        destruct (userBuffer k addr) as [[old|t]|] eqn:Hb.
        -- simpl. repeat split; try congruence.
           intros [G | G]; discriminate G.
        -- right. right. left. split; [reflexivity|]. intros old. discriminate.
        -- right. right. left. split; [reflexivity|]. intros old. discriminate.
      * right. left. exists id. split; [apply Hp; auto | exact E].
    + left. unfold resolveTarget in Hr. simpl in Hr.
      destruct (decide (procID = SELF)); [congruence|].
      destruct (get k procID); discriminate.
  - destruct (m_timer k) as [now|] eqn:Ht; [|repeat split; congruence].
    unfold storeTimerInfo.
    destruct (userBuffer k addr) as [[i|old]|] eqn:Hb.
    + right. right. right. split; [reflexivity|]. intros old. discriminate.
    + simpl. repeat split; try congruence.
      intros [G | G]; discriminate G.
    + right. right. right. split; [reflexivity|]. intros old. discriminate.
Qed.

Lemma query_operations_keep_processes_witness :
  match ProcessCtlHandler kEx 1 InfoPID 10 20 with
  | Returned _ k1 =>
      procs k1 = procs kEx ∧ m_current k1 = m_current kEx
      ∧ m_nextID k1 = m_nextID kEx ∧ m_capacity k1 = m_capacity kEx
      ∧ m_timer k1 = m_timer kEx ∧ m_hooks k1 = m_hooks kEx
      ∧ m_irqEnabled k1 = m_irqEnabled kEx ∧ m_map k1 = m_map kEx
      ∧ (InfoPID = GetPID ∨ InfoPID = GetParent → k1 = kEx)
  | Scheduled _ => False
  | Fault =>
      m_current kEx = None ∨ (∃ c, m_current kEx = Some c ∧ get kEx c = None)
      ∨ (InfoPID = InfoPID ∧ ∀ old, userBuffer kEx 10 ≠ Some (ObjProcessInfo old))
      ∨ (InfoPID = InfoTimer ∧ ∀ old, userBuffer kEx 10 ≠ Some (ObjTimerInfo old))
  end.
Proof.
  apply (query_operations_keep_processes kEx 1 InfoPID 10 20). auto.
Defined.

(** X7: GetPID and GetParent answer for the caller.  GetPID does not look at
    [procID] at all.  GetParent returns the parent of the caller, not of the
    process named, whenever [procID] is SELF or names a process of the table;
    when it names none, GetParent returns NotFound. *)
Theorem identity_queries_answer_for_the_caller k c q procID addr output :
  m_current k = Some c → get k c = Some q →
  ProcessCtlHandler k procID GetPID addr output = Returned (Payload c) k
  ∧ (procID = SELF ∨ is_Some (get k procID) →
     ProcessCtlHandler k procID GetParent addr output
     = Returned (Payload (m_parent q)) k)
  ∧ (procID ≠ SELF → get k procID = None →
     ProcessCtlHandler k procID GetParent addr output = Returned NotFound k).
Proof.
  intros Hc Hq. unfold get in *. split; [|split].
  - unfold ProcessCtlHandler, resolveTarget. simpl.
    unfold deref. rewrite Hc, Hq. reflexivity.
  - intros Hr. unfold ProcessCtlHandler.
    assert (E : ∃ proc, resolveTarget k procID GetParent = Some proc).
    { unfold resolveTarget, get. simpl.
      destruct (decide (procID = SELF)); [eauto|].
      destruct Hr as [? | [p ->]]; [contradiction | eauto]. }
    destruct E as [proc ->]. unfold deref. rewrite Hc, Hq. reflexivity.
  - intros Hne Hnone. unfold ProcessCtlHandler, resolveTarget, get. simpl.
    destruct (decide (procID = SELF)); [contradiction|].
    rewrite Hnone. reflexivity.
Qed.

Lemma identity_queries_answer_for_the_caller_witness :
  ProcessCtlHandler (update 2 (setParent 7) kEx) 9 GetPID 0 0
  = Returned (Payload 0) (update 2 (setParent 7) kEx)
  ∧ ProcessCtlHandler (update 2 (setParent 7) kEx) 2 GetParent 0 0
    = Returned (Payload 0) (update 2 (setParent 7) kEx)
  ∧ ProcessCtlHandler (update 2 (setParent 7) kEx) 9 GetParent 0 0
    = Returned NotFound (update 2 (setParent 7) kEx).
Proof.
  destruct (identity_queries_answer_for_the_caller
              (update 2 (setParent 7) kEx) 0 (procEx Running) 9 0 0
              eq_refl eq_refl) as (H1 & _ & H3).
  destruct (identity_queries_answer_for_the_caller
              (update 2 (setParent 7) kEx) 0 (procEx Running) 2 0 0
              eq_refl eq_refl) as (_ & H2 & _).
  split; [exact H1|]. split.
  - apply H2. right. eexists. reflexivity.
  - apply H3; [discriminate | reflexivity].
Defined.

(** ** WaitTimer *)

(** X8: WaitTimer does not look at the pending wakeups: whatever their
    number, the caller is made Sleeping with the deadline found at [addr],
    keeps its wakeup counter, and is switched away from. *)
Theorem waittimer_sleeps_whatever_is_pending k procID addr output c q :
  m_current k = Some c → get k c = Some q →
  resolveTarget k procID WaitTimer ≠ None →
  ∃ k1 q1,
    ProcessCtlHandler k procID WaitTimer addr output = Scheduled k1
    ∧ get k1 c = Some q1
    ∧ m_state q1 = Sleeping
    ∧ m_sleepTimer q1 = readTimer k addr
    ∧ m_wakeups q1 = m_wakeups q
    ∧ m_resume q1 = Some AfterWaitTimer
    ∧ m_current k1 ≠ Some c.
Proof.
  intros Hc Hq Hr. unfold get in *. unfold ProcessCtlHandler.
  destruct (resolveTarget k procID WaitTimer) as [proc|]; [|contradiction].
  unfold deref. rewrite Hc, Hq.
  set (kmid := update c (setState Sleeping)
                 (update c (setSleepTimer (readTimer k addr)) k)).
  assert (Hm : procs kmid !! c
               = Some (setState Sleeping (setSleepTimer (readTimer k addr) q))).
  { unfold kmid. rewrite update_update, lookup_update_eq, Hq. reflexivity. }
  destruct (schedule_blocked (Some AfterWaitTimer) kmid c _ Hc Hm) as [G1 G2];
    [discriminate | discriminate |].
  eexists _, _. split; [reflexivity|]. split; [exact G1|].
  repeat split; auto.
Qed.

Lemma waittimer_sleeps_whatever_is_pending_witness :
  ∃ k1 q1,
    ProcessCtlHandler (update 0 wakeup kEx) SELF WaitTimer 0 0 = Scheduled k1
    ∧ get k1 0 = Some q1
    ∧ m_state q1 = Sleeping
    ∧ m_sleepTimer q1 = readTimer (update 0 wakeup kEx) 0
    ∧ m_wakeups q1 = m_wakeups (wakeup (procEx Running))
    ∧ m_resume q1 = Some AfterWaitTimer
    ∧ m_current k1 ≠ Some 0.
Proof.
  apply (waittimer_sleeps_whatever_is_pending (update 0 wakeup kEx) SELF 0 0 0
           (wakeup (procEx Running)));
    [reflexivity | reflexivity | discriminate].
Defined.

(** ** Calls that do not come back *)

(** X9: a process that removes itself with KillPID is out of the table from
    then on, and the call never returns to it, whatever enters the kernel
    afterwards. *)
Theorem self_kill_never_returns k procID status output c :
  wfKernel k → m_current k = Some c →
  resolveTarget k procID KillPID = Some (Some c) →
  ∃ k0 rets0,
    kernelStep k (Trap procID KillPID status output) = Some (k0, rets0)
    ∧ get k0 c = None ∧ firstReturn c rets0 = None
    ∧ ∀ es k1 rets,
        run k0 es = Some (k1, rets) →
        get k1 c = None ∧ firstReturn c rets = None.
Proof.
  intros Hwf Hc Hr.
  destruct (resolveTarget_exists _ _ _ _ Hwf Hr) as [q Hq].
  pose proof (wfKernel_lookup _ _ _ Hwf Hq) as Hlt.
  destruct (resumeCurrent_total
              (schedule (Some AfterKillPID) (remove c status k)))
    as (k0 & rets0 & Hres).
  assert (Hstep : kernelStep k (Trap procID KillPID status output) = Some (k0, rets0)).
  { simpl. rewrite Hc. unfold ProcessCtlHandler. rewrite Hr.
    unfold deref. rewrite Hq. exact Hres. }
  assert (Hnone : procs (remove c status k) !! c = None).
  { rewrite lookup_remove. destruct (decide (c = c)); [reflexivity | contradiction]. }
  destruct (resched_none _ _ _ _ c Hres Hnone) as [G1 G2].
  pose proof (wf_step _ _ _ _ Hwf Hstep) as Hwf0.
  assert (Hg : gone c k0).
  { split; [exact G1|].
    destruct (step_phases _ _ _ _ Hwf Hstep) as (kmid & _ & _ & Hn & _ & Hend).
    rewrite (ending_nextID _ _ _ _ Hend). lia. }
  exists k0, rets0. split; [exact Hstep|]. split; [exact G1|]. split; [exact G2|].
  intros es k1 rets Hrun.
  destruct (gone_run c es _ _ _ Hwf0 Hg Hrun) as [[H1 _] H2]. auto.
Qed.

Lemma self_kill_never_returns_witness :
  ∃ k0 rets0,
    kernelStep kEx (Trap SELF KillPID 42 0) = Some (k0, rets0)
    ∧ get k0 0 = None ∧ firstReturn 0 rets0 = None
    ∧ ∀ es k1 rets,
        run k0 es = Some (k1, rets) →
        get k1 0 = None ∧ firstReturn 0 rets = None.
Proof.
  apply (self_kill_never_returns kEx SELF 42 0 0);
    [exact wfKernel_kEx | reflexivity | reflexivity].
Defined.

(** A process that waits for itself stays parked under every entry into the
    kernel that does not wake it up. *)
Lemma parked_self_step c k e k1 rets :
  wfKernel k → parked c c k → ¬ wakes c k e →
  kernelStep k e = Some (k1, rets) →
  (parked c c k1 ∨ gone c k1) ∧ firstReturn c rets = None.
Proof.
  intros Hwf (Hnc & q & Hq & Hs & Hw & Hres) Hbad H.
  destruct (step_phases _ _ _ _ Hwf H) as (kmid & Heff & _ & Hn & Hcm & Hend).
  pose proof (ending_nextID _ _ _ _ Hend) as Hn1.
  pose proof (wfKernel_lookup _ _ _ Hwf Hq) as Hlt.
  specialize (Heff c q Hq).
  assert (Hmid : m_current kmid ≠ Some c) by (destruct Hcm; congruence).
  assert (Hcases : procs kmid !! c = None
                   ∨ ∃ q', procs kmid !! c = Some q' ∧ m_state q' = Waiting
                           ∧ m_waitId q' = WaitTarget c
                           ∧ m_resume q' = Some AfterWaitPID).
  { destruct Heff as [-> | Heff]; [right; eauto|].
    destruct e as [procID action addr output | st vector |].
    - destruct Heff as [(-> & Hr & _) | [(_ & _ & ->) | [(_ & _ & ->) |
        [(-> & t' & Hne & Hr & ->) | [(_ & Hc & _) | [(_ & Hc & _) | (_ & Hc & _)]]]]]];
        try contradiction.
      + right. eexists. split; [reflexivity|]. auto.
      + left. reflexivity.
      + right. exists q. split; [|auto].
        rewrite release_not_waiting_for; [reflexivity|].
        rewrite Hw. congruence.
    - destruct Heff as [Hin _]. exfalso. apply Hbad. exact Hin.
    - destruct Heff as [now ->]. right. exists q.
      rewrite expire_waiting by assumption. auto. }
  destruct Hcases as [Hnone | (q' & Hq' & Hs' & Hw' & Hr')].
  - assert (procs k1 !! c = None) by (eapply ending_none; eassumption).
    split; [right; split; [assumption | lia]|].
    destruct Hend as [(-> & Hcur & Hrets) | (pt & Hr)].
    + destruct Hrets as [-> | (cur & r & Hcur' & ->)]; [reflexivity|].
      rewrite firstReturn_single. destruct (decide (cur = c)); [congruence | reflexivity].
    + eapply resched_none; eassumption.
  - destruct Hend as [(-> & Hcur & Hrets) | (pt & Hr)].
    + split; [left; split; [exact Hmid | eauto]|].
      destruct Hrets as [-> | (cur & r & Hcur' & ->)]; [reflexivity|].
      rewrite firstReturn_single. destruct (decide (cur = c)); [congruence | reflexivity].
    + destruct (resched_other pt kmid k1 rets c q' Hr Hmid Hq') as (G1 & G2 & G3).
      { rewrite Hs'. discriminate. }
      split; [left; split; [exact G2 | eauto] | exact G3].
Qed.

Lemma parked_self_run c es : ∀ k k1 rets,
  wfKernel k → parked c c k → avoids (wakes c) k es →
  run k es = Some (k1, rets) →
  (parked c c k1 ∨ gone c k1) ∧ firstReturn c rets = None.
Proof.
  induction es as [|e es IH]; intros k k1 rets Hwf Hp Hav; simpl.
  - intros [= <- <-]. auto.
  - destruct Hav as [Hbad Hav].
    destruct (kernelStep k e) as [[k2 rets2]|] eqn:E; [|discriminate].
    destruct (run k2 es) as [[k3 rets3]|] eqn:E3; [|discriminate].
    intros [= <- <-].
    pose proof (wf_step _ _ _ _ Hwf E) as Hwf2.
    destruct (parked_self_step _ _ _ _ _ Hwf Hp Hbad E) as [[Hp2 | Hg2] Hr2];
      rewrite firstReturn_app, Hr2.
    + eapply IH; eassumption.
    + destruct (gone_run _ _ _ _ _ Hwf2 Hg2 E3) as [Hg3 Hr3]. auto.
Qed.

(** X10: the WaitPID arm does not compare the target with the caller: a
    process that names itself (by SELF or by its own identifier) is made
    Waiting for itself, and its call never returns as long as it is not woken
    up (by a Resume aimed at it, or by an interrupt on a vector hooked for
    it), not even when it is removed. *)
Theorem waiting_for_oneself_never_returns k procID addr output c :
  wfKernel k → m_current k = Some c →
  resolveTarget k procID WaitPID = Some (Some c) →
  ∃ k0 rets0,
    kernelStep k (Trap procID WaitPID addr output) = Some (k0, rets0)
    ∧ firstReturn c rets0 = None
    ∧ (∃ q, get k0 c = Some q ∧ m_state q = Waiting ∧ m_waitId q = WaitTarget c)
    ∧ ∀ es k1 rets,
        avoids (wakes c) k0 es → run k0 es = Some (k1, rets) →
        firstReturn c rets = None.
Proof.
  intros Hwf Hc Hr.
  destruct (waitpid_parks k procID addr output c c Hwf Hc Hr)
    as (k0 & rets0 & Hstep & _ & Hp & Hret).
  exists k0, rets0. split; [exact Hstep|]. split; [exact Hret|].
  pose proof Hp as (_ & q & Hq & Hs & Hw & _).
  split; [exists q; auto|].
  intros es k1 rets Hav Hrun.
  pose proof (wf_step _ _ _ _ Hwf Hstep) as Hwf0.
  destruct (parked_self_run c es _ _ _ Hwf0 Hp Hav Hrun) as [_ G]. exact G.
Qed.

Lemma waiting_for_oneself_never_returns_witness :
  ∃ k0 rets0,
    kernelStep kEx (Trap SELF WaitPID 0 0) = Some (k0, rets0)
    ∧ firstReturn 0 rets0 = None
    ∧ (∃ q, get k0 0 = Some q ∧ m_state q = Waiting ∧ m_waitId q = WaitTarget 0)
    ∧ ∀ es k1 rets,
        avoids (wakes 0) k0 es → run k0 es = Some (k1, rets) →
        firstReturn 0 rets = None.
Proof.
  apply (waiting_for_oneself_never_returns kEx SELF 0 0 0);
    [exact wfKernel_kEx | reflexivity | reflexivity].
Defined.

(** ** What a call can return *)

(** The scheduler records where the process that was current stopped. *)
Lemma schedule_saves pt k c q1 :
  m_current k = Some c → procs (schedule pt k) !! c = Some q1 →
  m_resume q1 = pt.
Proof.
  intros Hc.
  assert (Hsv : ∀ q2, procs (saveContext pt k) !! c = Some q2 → m_resume q2 = pt).
  { intros q2. unfold saveContext. rewrite Hc, lookup_update_eq.
    intros H. apply fmap_Some in H as (q0 & _ & ->). reflexivity. }
  pose proof (saveContext_frame pt k) as (_ & _ & _ & _ & _ & _ & _ & Hcur).
  unfold schedule.
  destruct (select (saveContext pt k)) as [next|].
  - unfold switchTo. rewrite Hcur, Hc.
    destruct (decide (Some c = Some next)); [apply Hsv|].
    unfold setCurrent; cbn [procs m_current].
    assert (Hnc : next ≠ c) by congruence.
    rewrite lookup_update_ne by assumption. rewrite lookup_update_eq.
    intros Hl. apply fmap_Some in Hl as (q0 & Hq0 & ->).
    apply Hsv in Hq0. unfold yieldCpu. destruct (decide _); exact Hq0.
  - rewrite Hcur, Hc.
    destruct (procs (saveContext pt k) !! c) as [p|] eqn:E.
    + pose proof (Hsv p eq_refl) as Hp.
      destruct (decide (m_state p = Running)); simpl; rewrite E;
        intros [= <-]; exact Hp.
    + simpl. rewrite E. discriminate.
Qed.

Lemma resumeHandler_success pt k r :
  pt ≠ AfterWaitPID → resumeHandler pt k = Some r → r = Success.
Proof. destruct pt; simpl; try congruence. Qed.

Lemma resched_suspended pt0 k k1 rets c q pt :
  resumeCurrent (schedule pt0 k) = Some (k1, rets) →
  m_current k ≠ Some c → procs k !! c = Some q →
  m_resume q = Some pt → pt ≠ AfterWaitPID →
  (suspended c pt k1 ∧ firstReturn c rets = None) ∨ rets = [(c, Success)].
Proof.
  intros H Hc Hq Hr Hpt.
  destruct (procs (schedule pt0 k) !! c) as [q2|] eqn:Hq2.
  2:{ apply schedule_None in Hq2. congruence. }
  pose proof Hq2 as Hq2'.
  apply schedule_lookup in Hq2 as (q' & Hq' & _ & Hres & _).
  rewrite Hq in Hq'. injection Hq' as <-.
  destruct Hres as [Hres | [? _]]; [|contradiction].
  apply resumeCurrent_inv in H
    as [(-> & -> & Hnone) | (n & p & pt' & r & Hcn & Hp & Hpt' & Hrh & -> & ->)].
  - left. split; [|reflexivity]. split.
    + intros Hcc. specialize (Hnone c q2 Hcc Hq2'). congruence.
    + exists q2. split; [exact Hq2' | congruence].
  - destruct (decide (n = c)) as [->|Hne].
    + right. rewrite Hq2' in Hp. injection Hp as <-.
      rewrite Hres, Hr in Hpt'. injection Hpt' as <-.
      rewrite (resumeHandler_success _ _ _ Hpt Hrh). reflexivity.
    + left. split.
      * split; [simpl; congruence|]. exists q2.
        rewrite lookup_update_ne by assumption. split; [exact Hq2' | congruence].
      * rewrite firstReturn_single. destruct (decide (n = c)); [contradiction | reflexivity].
Qed.

Lemma release_resume t s q : m_resume (release t s q) = m_resume q.
Proof. unfold release. destruct (bool_decide _); reflexivity. Qed.

(** A process stopped inside a call other than WaitPID keeps its place until
    it is made current, and the call then returns Success. *)
Lemma suspended_step c pt k e k1 rets :
  wfKernel k → suspended c pt k → pt ≠ AfterWaitPID →
  kernelStep k e = Some (k1, rets) →
  ((suspended c pt k1 ∨ gone c k1) ∧ firstReturn c rets = None)
  ∨ firstReturn c rets = Some Success.
Proof.
  intros Hwf (Hnc & q & Hq & Hres) Hpt H.
  destruct (step_phases _ _ _ _ Hwf H) as (kmid & Heff & _ & Hn & Hcm & Hend).
  pose proof (ending_nextID _ _ _ _ Hend) as Hn1.
  pose proof (wfKernel_lookup _ _ _ Hwf Hq) as Hlt.
  specialize (Heff c q Hq).
  assert (Hmid : m_current kmid ≠ Some c) by (destruct Hcm; congruence).
  assert (Hcases : procs kmid !! c = None
                   ∨ ∃ q', procs kmid !! c = Some q' ∧ m_resume q' = Some pt).
  { destruct Heff as [-> | Heff]; [right; eauto|].
    destruct e as [procID action addr output | st vector |].
    - destruct Heff as [(_ & _ & ->) | [(_ & _ & ->) | [(_ & _ & ->) |
        [(_ & t' & _ & _ & ->) | [(_ & Hc & _) | [(_ & Hc & _) | (_ & Hc & _)]]]]]];
        try contradiction.
      + right. eexists. split; [reflexivity|]. auto.
      + right. eexists. split; [reflexivity|]. auto.
      + left. reflexivity.
      + right. eexists. split; [reflexivity|]. rewrite release_resume. exact Hres.
    - destruct Heff as [_ [evs ->]]. right. eexists. split; [reflexivity|]. auto.
    - destruct Heff as [now ->]. right. eexists. split; [reflexivity|].
      destruct (expire_keeps now q) as [_ ->]. exact Hres. }
  destruct Hcases as [Hnone | (q' & Hq' & Hr')].
  - left. assert (procs k1 !! c = None) by (eapply ending_none; eassumption).
    split; [right; split; [assumption | lia]|].
    destruct Hend as [(-> & Hcur & Hrets) | (pt0 & Hr)].
    + destruct Hrets as [-> | (cur & r & Hcur' & ->)]; [reflexivity|].
      rewrite firstReturn_single. destruct (decide (cur = c)); [congruence | reflexivity].
    + eapply resched_none; eassumption.
  - destruct Hend as [(-> & Hcur & Hrets) | (pt0 & Hr)].
    + left. split; [left; split; [exact Hmid | eauto]|].
      destruct Hrets as [-> | (cur & r & Hcur' & ->)]; [reflexivity|].
      rewrite firstReturn_single. destruct (decide (cur = c)); [congruence | reflexivity].
    + destruct (resched_suspended pt0 kmid k1 rets c q' pt Hr Hmid Hq' Hr' Hpt)
        as [[G1 G2] | ->].
      * left. auto.
      * right. rewrite firstReturn_single.
        destruct (decide (c = c)); [reflexivity | contradiction].
Qed.

Lemma suspended_run c pt es : ∀ k k1 rets r,
  wfKernel k → suspended c pt k → pt ≠ AfterWaitPID →
  run k es = Some (k1, rets) →
  firstReturn c rets = Some r → r = Success.
Proof.
  induction es as [|e es IH]; intros k k1 rets r Hwf Hp Hpt; simpl.
  - intros [= <- <-]. discriminate.
  - destruct (kernelStep k e) as [[k2 rets2]|] eqn:E; [|discriminate].
    destruct (run k2 es) as [[k3 rets3]|] eqn:E3; [|discriminate].
    intros [= <- <-].
    pose proof (wf_step _ _ _ _ Hwf E) as Hwf2.
    rewrite firstReturn_app.
    destruct (suspended_step _ _ _ _ _ _ Hwf Hp Hpt E) as [[[Hp2 | Hg2] Hr2] | Hr2];
      rewrite Hr2.
    + eapply IH; eassumption.
    + destruct (gone_run _ _ _ _ _ Hwf2 Hg2 E3) as [_ Hr3]. rewrite Hr3. discriminate.
    + congruence.
Qed.

(** The call itself, for the operations that return no payload: it returns
    Success or NotFound at once, or the caller is stopped at a place other
    than the one of WaitPID, or the caller is gone. *)
Lemma plain_call_step k procID action addr output c k1 rets :
  wfKernel k → m_current k = Some c →
  action ≠ Spawn → action ≠ GetPID → action ≠ GetParent → action ≠ WaitPID →
  kernelStep k (Trap procID action addr output) = Some (k1, rets) →
  (∃ r, firstReturn c rets = Some r ∧ (r = Success ∨ r = NotFound))
  ∨ (firstReturn c rets = None
     ∧ ((∃ pt, pt ≠ AfterWaitPID ∧ suspended c pt k1) ∨ gone c k1)).
Proof.
  intros Hwf Hc H1 H2 H3 H4 Hstep.
  pose proof Hwf as [_ Hwf2]. destruct (Hwf2 c Hc) as [qc Hqc].
  pose proof (wfKernel_lookup _ _ _ Hwf Hqc) as Hlt.
  assert (Hres : ∀ pt kpre,
    pt ≠ AfterWaitPID →
    (m_current kpre = Some c ∧ is_Some (procs kpre !! c))
    ∨ (m_current kpre = None ∧ procs kpre !! c = None) →
    m_nextID k ≤ m_nextID kpre →
    resumeCurrent (schedule (Some pt) kpre) = Some (k1, rets) →
    (∃ r, firstReturn c rets = Some r ∧ (r = Success ∨ r = NotFound))
    ∨ (firstReturn c rets = None
       ∧ ((∃ pt, pt ≠ AfterWaitPID ∧ suspended c pt k1) ∨ gone c k1))).
  { intros pt kpre Hpt Hpre Hn Hr.
    pose proof (schedule_frame (Some pt) kpre) as (_ & Hn1 & _).
    destruct Hpre as [[Hcp [qp Hqp]] | [Hcp Hnone]].
    - destruct (procs (schedule (Some pt) kpre) !! c) as [q1|] eqn:Hq1.
      2:{ apply schedule_None in Hq1. congruence. }
      pose proof (schedule_saves _ _ _ _ Hcp Hq1) as Hsaved.
      apply resumeCurrent_inv in Hr
        as [(-> & -> & Hnone) | (n & p & pt' & r & Hcn & Hp & Hpt' & Hrh & -> & ->)].
      + right. split; [reflexivity|]. left. exists pt. split; [exact Hpt|].
        split; [|eauto].
        intros Hcc. specialize (Hnone c q1 Hcc Hq1). congruence.
      + destruct (decide (n = c)) as [->|Hne].
        * left. exists r. rewrite firstReturn_single.
          destruct (decide (c = c)); [|contradiction]. split; [reflexivity|].
          rewrite Hq1 in Hp. injection Hp as <-.
          rewrite Hsaved in Hpt'. injection Hpt' as <-.
          left. eapply resumeHandler_success; eassumption.
        * right. rewrite firstReturn_single.
          destruct (decide (n = c)); [contradiction|]. split; [reflexivity|].
          left. exists pt. split; [exact Hpt|].
          split; [simpl; congruence|]. exists q1.
          rewrite lookup_update_ne by assumption. auto.
    - right. destruct (resched_none _ _ _ _ c Hr Hnone) as [G1 G2].
      split; [exact G2|]. right. split; [exact G1|].
      apply resumeCurrent_inv in Hr
        as [(-> & _ & _) | (n & p & pt' & r & _ & _ & _ & _ & _ & ->)];
        simpl; lia. }
  simpl in Hstep. rewrite Hc in Hstep. unfold ProcessCtlHandler in Hstep.
  destruct (resolveTarget k procID action) as [proc|] eqn:Hr.
  2:{ injection Hstep as <- <-. left. exists NotFound.
      rewrite firstReturn_single. destruct (decide (c = c)); [auto | contradiction]. }
  assert (Hret : ∀ r k2, r = Success ∨ r = NotFound →
                 Some (k2, [(c, r)]) = Some (k1, rets) →
                 (∃ r, firstReturn c rets = Some r ∧ (r = Success ∨ r = NotFound))
                 ∨ (firstReturn c rets = None
                    ∧ ((∃ pt, pt ≠ AfterWaitPID ∧ suspended c pt k1) ∨ gone c k1))).
  { intros r k2 Hrr [= <- <-]. left. exists r. rewrite firstReturn_single.
    destruct (decide (c = c)); [auto | contradiction]. }
  unfold deref in Hstep. rewrite Hc, Hqc in Hstep.
  destruct action; try contradiction.
  - (* KillPID *)
    destruct proc as [id|]; [|discriminate].
    destruct (procs k !! id) as [qt|] eqn:Hqt; [|discriminate].
    eapply (Hres AfterKillPID); [discriminate | | | exact Hstep].
    + destruct (decide (id = c)) as [->|Hne].
      * right. unfold remove; cbn [m_current setCurrent]. rewrite Hc.
        destruct (decide (Some c = Some c)); [|contradiction].
        split; [reflexivity|].
        change (procs (remove c addr k) !! c = None).
        rewrite lookup_remove. destruct (decide (c = c)); [reflexivity | contradiction].
      * left. unfold remove; cbn [m_current setCurrent]. rewrite Hc.
        destruct (decide (Some c = Some id)); [congruence|].
        split; [reflexivity|].
        change (is_Some (procs (remove id addr k) !! c)).
        rewrite lookup_remove. destruct (decide (id = c)); [contradiction|].
        rewrite Hqc. simpl. eauto.
    + simpl. lia.
  - (* WatchIRQ *) eapply Hret; [|exact Hstep]. auto.
  - (* EnableIRQ *) eapply Hret; [|exact Hstep]. auto.
  - (* DisableIRQ *) eapply Hret; [|exact Hstep]. auto.
  - (* InfoPID *)
    destruct proc as [id|]; [|discriminate].
    destruct (procs k !! id); [|discriminate].
    destruct (storeProcessInfo _ _ _); [|discriminate].
    eapply Hret; [|exact Hstep]. auto.
  - (* InfoTimer *)
    destruct (m_timer k); [destruct (storeTimerInfo _ _ _); [|discriminate]|];
      (eapply Hret; [|exact Hstep]); auto.
  - (* WaitTimer *)
    eapply (Hres AfterWaitTimer); [discriminate | | | exact Hstep].
    + left. split; [exact Hc|]. apply not_eq_None_Some.
      rewrite !update_None. congruence.
    + simpl. lia.
  - (* EnterSleep *)
    destruct (fst (sleep (readTimer k addr) qc)).
    + eapply (Hres AfterEnterSleep); [discriminate | | | exact Hstep].
      * left. split; [exact Hc|]. apply not_eq_None_Some.
        rewrite !update_None. congruence.
      * simpl. lia.
    + eapply Hret; [|exact Hstep]. auto.
  - (* Schedule *)
    eapply (Hres AfterSchedule); [discriminate | | | exact Hstep].
    + left. split; [exact Hc | eauto].
    + lia.
  - (* Resume *)
    destruct proc as [id|]; [|discriminate].
    destruct (procs k !! id); [|discriminate].
    eapply Hret; [|exact Hstep]. auto.
  - (* SetStack *)
    destruct proc as [id|]; [|discriminate].
    destruct (procs k !! id); [|discriminate].
    eapply Hret; [|exact Hstep]. auto.
Qed.

(** X11: only Spawn, GetPID, GetParent and WaitPID hand a payload back.  Every
    other call returns Success or NotFound to its caller, whether it returns
    at once or only when the caller runs again after a [schedule()]. *)
Theorem plain_calls_return_success_or_not_found
    k procID action addr output c es k1 rets r :
  wfKernel k → m_current k = Some c →
  action ≠ Spawn → action ≠ GetPID → action ≠ GetParent → action ≠ WaitPID →
  run k (Trap procID action addr output :: es) = Some (k1, rets) →
  firstReturn c rets = Some r →
  r = Success ∨ r = NotFound.
Proof.
  intros Hwf Hc H1 H2 H3 H4. cbn [run].
  destruct (kernelStep k (Trap procID action addr output)) as [[k2 rets2]|] eqn:E;
    [|discriminate].
  destruct (run k2 es) as [[k3 rets3]|] eqn:E3; [|discriminate].
  intros [= <- <-]. rewrite firstReturn_app.
  pose proof (wf_step _ _ _ _ Hwf E) as Hwf2.
  destruct (plain_call_step _ _ _ _ _ _ _ _ Hwf Hc H1 H2 H3 H4 E)
    as [(r0 & Hr0 & Hdom) | (Hr0 & [(pt & Hpt & Hs) | Hg])]; rewrite Hr0.
  - intros [= <-]. exact Hdom.
  - intros Hf. left. eapply suspended_run; eassumption.
  - destruct (gone_run _ _ _ _ _ Hwf2 Hg E3) as [_ Hr3]. rewrite Hr3. discriminate.
Qed.

Lemma plain_calls_return_success_or_not_found_witness :
  ∃ k1 rets r,
    run kEx (Trap SELF Schedule 0 0
             :: [Trap SELF Schedule 0 0; Trap SELF Schedule 0 0])
    = Some (k1, rets)
    ∧ firstReturn 0 rets = Some r
    ∧ (r = Success ∨ r = NotFound).
Proof.
  eexists _, _, _.
  split; [vm_compute; reflexivity|].
  split; [vm_compute; reflexivity|].
  eapply (plain_calls_return_success_or_not_found kEx SELF Schedule 0 0 0
            [Trap SELF Schedule 0 0; Trap SELF Schedule 0 0]).
  - exact wfKernel_kEx.
  - reflexivity.
  - discriminate.
  - discriminate.
  - discriminate.
  - discriminate.
  - vm_compute. reflexivity.
  - vm_compute. reflexivity.
Defined.

(** * The log, the boot information and getcwd *)

(** ** Logging an operation *)




(** ** The heap behind the boot image *)

Lemma land_page_mask s x :
  0 ≤ s < 32 → 0 ≤ x < 2 ^ 32 →
  Z.land x (2 ^ 32 - 2 ^ s) = x - x mod 2 ^ s.
Proof.
  intros Hs Hx.
  assert (Hmask : 2 ^ 32 - 2 ^ s = Z.shiftl (Z.ones (32 - s)) s).
  { rewrite Z.shiftl_mul_pow2 by lia. rewrite Z.ones_equiv.
    replace (2 ^ 32) with (2 ^ (32 - s) * 2 ^ s).
    - unfold Z.pred. ring.
    - rewrite <- Z.pow_add_r by lia. f_equal. lia. }
  assert (Hdiv : x - x mod 2 ^ s = Z.shiftl (Z.shiftr x s) s).
  { rewrite Z.shiftl_mul_pow2, Z.shiftr_div_pow2 by lia.
    pose proof (Z.div_mod x (2 ^ s)) as H.
    assert (2 ^ s ≠ 0) by (apply Z.pow_nonzero; lia). specialize (H ltac:(assumption)).
    lia. }
  rewrite Hmask, Hdiv. apply Z.bits_inj'. intros n Hn.
  rewrite Z.land_spec, !Z.shiftl_spec by lia.
  destruct (Z.lt_ge_cases n s) as [Hlt | Hge].
  - rewrite (Z.testbit_neg_r _ (n - s)) by lia.
    rewrite (Z.testbit_neg_r _ (n - s)) by lia. apply andb_false_r.
  - rewrite Z.shiftr_spec by lia. replace (n - s + s) with n by lia.
    destruct (Z.lt_ge_cases n 32) as [Hlt32 | Hge32].
    + rewrite Z.ones_spec_low by lia. apply andb_true_r.
    + rewrite Z.ones_spec_high by lia. rewrite andb_false_r.
      symmetry. apply Z.bits_above_log2; [lia|].
      destruct (decide (x = 0)) as [->|]; [simpl; lia|].
      apply Z.log2_lt_pow2; [lia|].
      assert (2 ^ 32 ≤ 2 ^ n) by (apply Z.pow_le_mono_r; lia). lia.
Qed.

(** X13: [kernel_main] puts the heap on the first page boundary strictly
    behind the boot image: with a page size that is a power of two, the page
    mask that goes with it, and a boot image that ends more than a page below
    the top of the address space, the heap address is a multiple of the page
    size, lies behind the last byte of the image, and at most one page behind
    its end; an image that ends on a page boundary is followed by a whole
    unused page.  The heap is one megabyte, the kernel region four megabytes
    from address 0, and the memory region starts at 0 and has 1024 megabytes
    when BCM2836 is defined and 512 otherwise. *)
Theorem heap_follows_boot_image
    PAGESIZE PAGEMASK MegaByte BCM2836 bootimage imageSize s :
  0 ≤ s < 32 → PAGESIZE = 2 ^ s → PAGEMASK = 2 ^ 32 - PAGESIZE →
  0 ≤ bootimage → 0 ≤ imageSize →
  bootimage + imageSize + PAGESIZE < 2 ^ 32 →
  let info := fillCoreInfo PAGESIZE PAGEMASK MegaByte BCM2836 bootimage imageSize in
  let e := bootimage + imageSize in
  heapAddress info = e - e mod PAGESIZE + PAGESIZE
  ∧ heapAddress info mod PAGESIZE = 0
  ∧ e < heapAddress info ≤ e + PAGESIZE
  ∧ (e mod PAGESIZE = 0 → heapAddress info = e + PAGESIZE)
  ∧ bootImageAddress info = bootimage ∧ bootImageSize info = imageSize
  ∧ heapSize info = MegaByte 1
  ∧ kernel info = mkMemoryRegion 0 (MegaByte 4)
  ∧ memory info
    = mkMemoryRegion 0 (if BCM2836 then MegaByte 1024 else MegaByte 512).
Proof.
  intros Hs -> -> Hb Hi Hfit info e.
  assert (Hp : 0 < 2 ^ s) by (apply Z.pow_pos_nonneg; lia).
  pose proof (Z.mod_pos_bound e (2 ^ s) Hp) as Hm.
  assert (He : 0 ≤ e < 2 ^ 32) by (unfold e; lia).
  assert (Hh : heapAddress info = e - e mod 2 ^ s + 2 ^ s).
  { unfold info, fillCoreInfo, wrap32. simpl. fold e.
    rewrite (Z.mod_small e) by lia.
    rewrite land_page_mask by lia.
    apply Z.mod_small. lia. }
  split; [exact Hh|]. rewrite Hh.
  split.
  { rewrite Zplus_mod, Z_mod_same_full, Z.add_0_r, Zmod_mod.
    rewrite Zminus_mod_idemp_r. rewrite Z.sub_diag. reflexivity. }
  split; [lia|]. split; [intros H0; lia|]. repeat split; reflexivity.
Qed.

Lemma heap_follows_boot_image_witness :
  let info := fillCoreInfo 4096 4294963200 (λ n, n * 1048576) false 1048576 8192 in
  let e := 1048576 + 8192 in
  heapAddress info = e - e mod 4096 + 4096
  ∧ heapAddress info mod 4096 = 0
  ∧ e < heapAddress info ≤ e + 4096
  ∧ (e mod 4096 = 0 → heapAddress info = e + 4096)
  ∧ bootImageAddress info = 1048576 ∧ bootImageSize info = 8192
  ∧ heapSize info = 1 * 1048576
  ∧ kernel info = mkMemoryRegion 0 (4 * 1048576)
  ∧ memory info = mkMemoryRegion 0 (512 * 1048576).
Proof.
  apply (heap_follows_boot_image 4096 4294963200 (λ n, n * 1048576) false
           1048576 8192 12); [lia | reflexivity | reflexivity | lia | lia | lia].
Defined.

(** ** getcwd *)

Lemma cstring_app (a b : list Z) :
  Forall (λ c, c ≠ 0) a → cstring (a ++ b) = a ++ cstring b.
Proof.
  induction 1 as [|c a Hc _ IH]; simpl; [reflexivity|].
  destruct (decide (c = 0)); [contradiction|]. rewrite IH. reflexivity.
Qed.

(** X14: when [size] is larger than the length of the current directory,
    [size] bytes can be read where it is stored (the path, its terminating
    zero and what follows it in memory) and the buffer holds [size] bytes,
    [getcwd] copies all [size] bytes, those behind the zero included, and
    leaves the rest of the buffer alone: the C string in the buffer is the
    path, the buffer keeps its length, and [errno] is ESUCCESS. *)
Theorem getcwd_copies_the_path (ESUCCESS : Z) (path rest buf : list Z) (n : nat) :
  Forall (λ c, c ≠ 0) path →
  (length path < n)%nat → (n ≤ length (path ++ 0%Z :: rest))%nat →
  (n ≤ length buf)%nat →
  ∃ out,
    getcwd ESUCCESS (path ++ 0 :: rest) buf n = Some (out, ESUCCESS)
    ∧ cstring out = path
    ∧ length out = length buf
    ∧ take n out = take n (path ++ 0 :: rest)
    ∧ drop n out = drop n buf.
Proof.
  intros Hnz Hlt Hsrc Hbuf. unfold getcwd, memcpy.
  destruct (decide _) as [_|Hno]; [|exfalso; apply Hno; split; assumption].
  eexists. split; [reflexivity|].
  assert (Hlen : length (take n (path ++ 0 :: rest)) = n)
    by (rewrite length_take; lia).
  split; [|split; [|split]].
  - rewrite take_app, (take_ge path) by lia.
    destruct (n - length path)%nat as [|m] eqn:E; [lia|]. simpl.
    rewrite <- app_assoc, cstring_app by assumption. simpl.
    apply app_nil_r.
  - rewrite length_app, length_take, length_drop. lia.
  - rewrite take_app_length' by (symmetry; exact Hlen). reflexivity.
  - rewrite drop_app_length' by (symmetry; exact Hlen). reflexivity.
Qed.

Lemma getcwd_copies_the_path_witness :
  ∃ out,
    getcwd 0 ([47; 98; 105; 110] ++ 0 :: [7; 7; 7]) [1; 1; 1; 1; 1; 1; 1; 1] 6
    = Some (out, 0)
    ∧ cstring out = [47; 98; 105; 110]
    ∧ length out = length [1; 1; 1; 1; 1; 1; 1; 1]
    ∧ take 6 out = take 6 ([47; 98; 105; 110] ++ 0 :: [7; 7; 7])
    ∧ drop 6 out = drop 6 [1; 1; 1; 1; 1; 1; 1; 1].
Proof.
  apply (getcwd_copies_the_path 0 [47; 98; 105; 110] [7; 7; 7]
           [1; 1; 1; 1; 1; 1; 1; 1] 6).
  - repeat constructor; discriminate.
  - simpl. lia.
  - simpl. lia.
  - simpl. lia.
Defined.

(** X15: when [size] does not exceed the length of the path, [getcwd] does
    not fail: it copies the first [size] bytes of the path, writes no
    terminating zero, so that the C string in the buffer runs on into what
    the buffer held before, and still sets [errno] to ESUCCESS. *)
Theorem getcwd_truncates_without_error
    (ESUCCESS : Z) (path rest buf : list Z) (n : nat) :
  Forall (λ c, c ≠ 0) path →
  (n ≤ length path)%nat → (n ≤ length buf)%nat →
  getcwd ESUCCESS (path ++ 0 :: rest) buf n
  = Some (take n path ++ drop n buf, ESUCCESS)
  ∧ cstring (take n path ++ drop n buf) = take n path ++ cstring (drop n buf).
Proof.
  intros Hnz Hle Hbuf. unfold getcwd, memcpy.
  destruct (decide _) as [_|Hno].
  2:{ exfalso. apply Hno. rewrite length_app. split; lia. }
  rewrite take_app_le by lia.
  split; [reflexivity|].
  apply cstring_app. apply Forall_take. exact Hnz.
Qed.

Lemma getcwd_truncates_without_error_witness :
  getcwd 0 ([47; 98; 105; 110] ++ 0 :: [7; 7; 7]) [1; 1; 1; 1; 1; 1; 1; 1] 3
  = Some (take 3 [47; 98; 105; 110] ++ drop 3 [1; 1; 1; 1; 1; 1; 1; 1], 0)
  ∧ cstring (take 3 [47; 98; 105; 110] ++ drop 3 [1; 1; 1; 1; 1; 1; 1; 1])
    = take 3 [47; 98; 105; 110] ++ cstring (drop 3 [1; 1; 1; 1; 1; 1; 1; 1]).
Proof.
  apply (getcwd_truncates_without_error 0 [47; 98; 105; 110] [7; 7; 7]
           [1; 1; 1; 1; 1; 1; 1; 1] 3).
  - repeat constructor; discriminate.
  - simpl. lia.
  - simpl. lia.
Defined.

(** ** interruptNotify *)

(** X16: [interruptNotify] on a process that is in the table raises one
    event on it, an InterruptEvent numbered 0, whatever the saved CPU state
    it is given holds.  The event goes behind the events already pending; as
    raising an event wakes the process up, one more wakeup is pending and the
    process is Ready.  Nothing else changes: not the other fields of the
    process, not the other processes, not the rest of the kernel state. *)
Theorem interrupt_notify_appends_one_event st1 st2 k id q :
  get k id = Some q →
  ∃ k1 q1,
    interruptNotify st1 (Some id) k = Some k1
    ∧ interruptNotify st2 (Some id) k = Some k1
    ∧ get k1 id = Some q1
    ∧ m_events q1 = m_events q ++ [mkProcessEvent InterruptEvent 0]
    ∧ m_wakeups q1 = S (m_wakeups q)
    ∧ m_state q1 = Ready
    ∧ m_parent q1 = m_parent q ∧ m_waitId q1 = m_waitId q
    ∧ m_sleepTimer q1 = m_sleepTimer q ∧ m_userStack q1 = m_userStack q
    ∧ m_kernelStack q1 = m_kernelStack q
    ∧ m_pageDirectory q1 = m_pageDirectory q
    ∧ m_entry q1 = m_entry q ∧ m_resume q1 = m_resume q
    ∧ (∀ j, j ≠ id → get k1 j = get k j)
    ∧ m_current k1 = m_current k ∧ m_nextID k1 = m_nextID k
    ∧ m_capacity k1 = m_capacity k ∧ m_timer k1 = m_timer k
    ∧ m_hooks k1 = m_hooks k ∧ m_irqEnabled k1 = m_irqEnabled k
    ∧ m_memory k1 = m_memory k ∧ m_map k1 = m_map k.
Proof.
  intros Hq. unfold get in *.
  exists (update id (raiseEvent (mkProcessEvent InterruptEvent 0)) k),
         (raiseEvent (mkProcessEvent InterruptEvent 0) q).
  unfold interruptNotify, deref. rewrite Hq.
  split; [reflexivity|]. split; [reflexivity|].
  split; [rewrite lookup_update_eq, Hq; reflexivity|].
  do 11 (split; [reflexivity|]).
  split; [intros j Hj; apply lookup_update_ne; congruence|].
  repeat split; reflexivity.
Qed.

Lemma interrupt_notify_appends_one_event_witness :
  ∃ k1 q1,
    interruptNotify stEx (Some 1) kWait = Some k1
    ∧ interruptNotify (mkCPUState [] 1 2 3 4 5 6 7 8 9 10 11 12 13 14 15 16 17)
        (Some 1) kWait = Some k1
    ∧ get k1 1 = Some q1
    ∧ m_events q1 = m_events (procEx Running) ++ [mkProcessEvent InterruptEvent 0]
    ∧ m_wakeups q1 = S (m_wakeups (procEx Running))
    ∧ m_state q1 = Ready
    ∧ m_parent q1 = m_parent (procEx Running)
    ∧ m_waitId q1 = m_waitId (procEx Running)
    ∧ m_sleepTimer q1 = m_sleepTimer (procEx Running)
    ∧ m_userStack q1 = m_userStack (procEx Running)
    ∧ m_kernelStack q1 = m_kernelStack (procEx Running)
    ∧ m_pageDirectory q1 = m_pageDirectory (procEx Running)
    ∧ m_entry q1 = m_entry (procEx Running)
    ∧ m_resume q1 = m_resume (procEx Running)
    ∧ (∀ j, j ≠ 1 → get k1 j = get kWait j)
    ∧ m_current k1 = m_current kWait ∧ m_nextID k1 = m_nextID kWait
    ∧ m_capacity k1 = m_capacity kWait ∧ m_timer k1 = m_timer kWait
    ∧ m_hooks k1 = m_hooks kWait ∧ m_irqEnabled k1 = m_irqEnabled kWait
    ∧ m_memory k1 = m_memory kWait ∧ m_map k1 = m_map kWait.
Proof.
  apply (interrupt_notify_appends_one_event stEx
           (mkCPUState [] 1 2 3 4 5 6 7 8 9 10 11 12 13 14 15 16 17)
           kWait 1 (procEx Running)).
  reflexivity.
Defined.
